(** * subscription_service: the service and repository layers, verified

    A shallow embedding of the Go packages [model], [repository] and
    [service] (both variants of the service that the repository holds)
    together with the parts of the HTTP handler that decide how a result
    is reported.

    Conventions of the embedding.
    - A Go function returning [(T, error)] returns a pair whose second
      component is [option error]; [None] is Go's [nil] error.  A Go
      pointer result that may be [nil] is an [option].
    - A slice is [slice A]: Go tells the [nil] slice from an empty one.
    - [*sql.DB] is a value of type [DB]: the rows of table
      [subscriptions], the journal of the statements sent so far, and
      the choices SQL leaves to the engine ([Engine]): the order of the
      rows that ORDER BY does not tell apart, whether a condition is
      evaluated on a value that cannot change the result, and the
      direction in which a timestamp halfway between two microseconds
      is rounded.  Every repository method takes the database and
      returns the new one.  A lost connection is not modelled.
    - A [string] is a Go string whose bytes are a text in UTF-8 without
      the character of code 0, which is what the engine takes as text.
    - [time.Now()] and [uuid.New()] are inputs of the functions that
      call them.
    - [range] over a Go map visits the entries in an order the runtime
      picks; the functions that iterate take that order as [MapRange]. *)

From Stdlib Require Import ZArith Ascii String List Lia Permutation Sorted.
From stdpp Require Import base decidable option list strings gmap fin_maps sorting.

Local Open Scope string_scope.
Local Open Scope list_scope.
Local Open Scope Z_scope.

(** ** Characters *)

Module Chars.

Definition code (c : ascii) : Z := Z.of_N (N_of_ascii c).

Definition isDigit (c : ascii) : bool := (48 <=? code c) && (code c <=? 57).

Definition digit (c : ascii) : option Z :=
  if isDigit c then Some (code c - 48) else None.

(** [xtob] of package uuid, one nibble. *)
Definition xval (c : ascii) : option Z :=
  let n := code c in
  if (48 <=? n) && (n <=? 57) then Some (n - 48)
  else if (97 <=? n) && (n <=? 102) then Some (n - 87)
  else if (65 <=? n) && (n <=? 70) then Some (n - 55)
  else None.

(** Case folding of the letters A to Z. *)
Definition lower (c : ascii) : ascii :=
  let n := code c in
  if (65 <=? n) && (n <=? 90) then ascii_of_N (Z.to_N (n + 32)) else c.

Definition eq_fold (a b : ascii) : bool := bool_decide (lower a = lower b).

Definition chars (s : string) : list ascii := list_ascii_of_string s.

End Chars.

(** ** Package time: the two layouts the program parses *)

Module GoTime.
Import Chars.

(** A calendar date at midnight UTC, which is what [time.Parse] returns
    for a layout without a clock and what a DATE column stores. *)
Record Date := mkDate { year : Z; month : Z; day : Z }.

#[export] Instance Date_eq_dec : EqDecision Date.
Proof. solve_decision. Defined.

(** An instant, for [created_at] and [updated_at]: nanoseconds since
    the epoch of Unix, the resolution of [time.Now()]. *)
Definition Timestamp := Z.

Inductive Layout :=
| MonthYear      (* "01-2006" *)
| YearMonthDay.  (* "2006-01-02" *)

Definition isLeap (y : Z) : bool :=
  (y mod 4 =? 0) && (negb (y mod 100 =? 0) || (y mod 400 =? 0)).

Definition daysIn (m y : Z) : Z :=
  if m =? 2 then (if isLeap y then 29 else 28)
  else if (m =? 4) || (m =? 6) || (m =? 9) || (m =? 11) then 30
  else 31.

(** [getnum(s, true)]: exactly two digits. *)
Definition num2 (a b : ascii) : option Z :=
  x ← digit a; y ← digit b; Some (10 * x + y).

(** The ["2006"] chunk: exactly four digits. *)
Definition num4 (a b c d : ascii) : option Z :=
  w ← digit a; x ← digit b; y ← digit c; z ← digit d;
  Some (1000 * w + 100 * x + 10 * y + z).

Definition validDate (y m d : Z) : option Date :=
  if (1 <=? m) && (m <=? 12) && (1 <=? d) && (d <=? daysIn m y)
  then Some (mkDate y m d) else None.

(** [time.Parse(layout, value)]; [None] is a [*ParseError]. *)
Definition Parse (layout : Layout) (value : string) : option Date :=
  match layout, chars value with
  | MonthYear, [m1; m2; sep; y1; y2; y3; y4] =>
      if bool_decide (sep = "-"%char)
      then m ← num2 m1 m2; y ← num4 y1 y2 y3 y4; validDate y m 1
      else None
  | YearMonthDay, [y1; y2; y3; y4; s1; m1; m2; s2; d1; d2] =>
      if bool_decide (s1 = "-"%char) && bool_decide (s2 = "-"%char)
      then y ← num4 y1 y2 y3 y4; m ← num2 m1 m2; d ← num2 d1 d2;
           validDate y m d
      else None
  | _, _ => None
  end.

Definition compare (a b : Date) : comparison :=
  match year a ?= year b with
  | Eq => match month a ?= month b with
          | Eq => day a ?= day b
          | c => c
          end
  | c => c
  end.

(** [a.After(b)] and [a.Before(b)]. *)
Definition After (a b : Date) : bool :=
  match compare a b with Gt => true | _ => false end.
Definition Before (a b : Date) : bool :=
  match compare a b with Lt => true | _ => false end.

(** The engine's [a <= b] and [a >= b] on dates. *)
Definition leb (a b : Date) : bool := negb (After a b).
Definition geb (a b : Date) : bool := negb (Before a b).

End GoTime.

(** ** Package uuid *)

Module GoUUID.
Import Chars.

(** The sixteen bytes of a UUID, as one number below 2^128. *)
Definition UUID := Z.

Fixpoint hex (acc : Z) (cs : list ascii) : option Z :=
  match cs with
  | [] => Some acc
  | c :: cs' => v ← xval c; hex (16 * acc + v) cs'
  end.

(** xxxxxxxx-xxxx-xxxx-xxxx-xxxxxxxxxxxx, read from the first 36
    characters of [cs]. *)
Definition canonical (cs : list ascii) : option UUID :=
  let dash i := bool_decide (cs !! i = Some "-"%char) in
  if dash 8%nat && dash 13%nat && dash 18%nat && dash 23%nat
  then hex 0 (take 8 cs ++ take 4 (drop 9 cs) ++ take 4 (drop 14 cs)
               ++ take 4 (drop 19 cs) ++ take 12 (drop 24 cs))
  else None.

Definition EqualFold (a b : list ascii) : bool :=
  bool_decide (map lower a = map lower b).

(** [uuid.Parse]: the canonical form, the same after [urn:uuid:], the
    same inside one leading and one trailing character (the braces of
    the Microsoft form), and 32 digits without dashes. *)
Definition Parse (s : string) : option UUID :=
  let cs := chars s in
  match length cs with
  | 36%nat => canonical cs
  | 45%nat => if EqualFold (take 9 cs) (chars "urn:uuid:")
              then canonical (drop 9 cs) else None
  | 38%nat => canonical (drop 1 cs)
  | 32%nat => hex 0 cs
  | _ => None
  end.

End GoUUID.

(** ** Errors *)

Module GoErrors.

Inductive error :=
| ErrNoRows                                  (* sql.ErrNoRows *)
| ErrNoUpdates                               (* service.ErrNoUpdates *)
| ErrInvalidUUID                             (* what uuid.Parse returns *)
| ErrParseTime                               (* *time.ParseError *)
| ErrEngine (code : string)                  (* *pq.Error, by condition name *)
| ErrNew (msg : string)                      (* errors.New, fmt.Errorf without %w *)
| ErrWrap (msg : string) (err : error)       (* fmt.Errorf(msg + ": %w", err) *)
| ValidationError (Field : string) (Err : error)
| NotFoundError (ID : string).

#[export] Instance error_eq_dec : EqDecision error.
Proof. solve_decision. Defined.

(** [Unwrap]: [fmt]'s wrapper and [*ValidationError] have one. *)
Definition Unwrap (e : error) : option error :=
  match e with
  | ErrWrap _ e' | ValidationError _ e' => Some e'
  | _ => None
  end.

(** [errors.Is(err, target)] for a sentinel [target]. *)
Fixpoint Is (err target : error) : bool :=
  bool_decide (err = target) ||
  match err with
  | ErrWrap _ e' | ValidationError _ e' => Is e' target
  | _ => false
  end.

(** [errors.As(err, &validationErr)]: the first [*ValidationError] of
    the chain. *)
Fixpoint AsValidation (err : error) : option (string * error) :=
  match err with
  | ValidationError f e => Some (f, e)
  | ErrWrap _ e' => AsValidation e'
  | _ => None
  end.

Definition isValidation (e : option error) (field : string) : Prop :=
  ∃ inner, e = Some (ValidationError field inner).

End GoErrors.


(** ** Go slices *)

Module GoSlice.

(** [SliceNil] is the value of [var s []T]; [append] always returns an
    allocated slice. *)
Inductive slice (A : Type) :=
| SliceNil
| SliceOf (elems : list A).
Arguments SliceNil {A}.
Arguments SliceOf {A} elems.

Definition elements {A} (s : slice A) : list A :=
  match s with SliceNil => [] | SliceOf l => l end.

Definition len {A} (s : slice A) : Z := Z.of_nat (length (elements s)).

Definition append {A} (s : slice A) (x : A) : slice A :=
  SliceOf (elements s ++ [x]).

Definition isNil {A} (s : slice A) : bool :=
  match s with SliceNil => true | SliceOf _ => false end.

End GoSlice.

(** ** Package model *)

Module Model.
Import GoTime GoUUID GoErrors.

Record Subscription := mkSubscription {
  ID : UUID;
  ServiceName : string;
  Price : Z;
  UserID : UUID;
  StartDate : Date;
  EndDate : option Date;
  CreatedAt : Timestamp;
  UpdatedAt : Timestamp
}.

Record CreateSubscriptionRequest := mkCreate {
  create_ServiceName : string;
  create_Price : Z;
  create_UserID : string;
  create_StartDate : string;
  create_EndDate : string
}.

Record UpdateSubscriptionRequest := mkUpdate {
  update_ServiceName : option string;
  update_Price : option Z;
  update_EndDate : option string
}.

Record SubscriptionFilter := mkFilter {
  filter_UserID : option UUID;
  filter_ServiceName : option string;
  filter_StartDate : option Date;
  filter_EndDate : option Date;
  filter_Limit : Z;
  filter_Offset : Z
}.

Record AggregateRequest := mkAggregate {
  aggregate_UserID : option string;
  aggregate_ServiceName : option string;
  aggregate_StartDate : string;
  aggregate_EndDate : string
}.

Record AggregateResponse := mkResponse { TotalPrice : Z }.

(** The zero [time.Time] of a struct literal that leaves the field out. *)
Definition zeroTime : Timestamp := 0.

Definition withEndDate (sub : Subscription) (e : option Date) : Subscription :=
  mkSubscription (ID sub) (ServiceName sub) (Price sub) (UserID sub)
                 (StartDate sub) e (CreatedAt sub) (UpdatedAt sub).

Definition withTimes (sub : Subscription) (c u : Timestamp) : Subscription :=
  mkSubscription (ID sub) (ServiceName sub) (Price sub) (UserID sub)
                 (StartDate sub) (EndDate sub) c u.

(** [(r *CreateSubscriptionRequest) ToSubscription()]; [newID] is the
    value of [uuid.New()]. *)
Definition ToSubscription (r : CreateSubscriptionRequest) (newID : UUID)
  : option Subscription * option error :=
  match GoUUID.Parse (create_UserID r) with
  | None => (None, Some ErrInvalidUUID)
  | Some userID =>
    match GoTime.Parse MonthYear (create_StartDate r) with
    | None => (None, Some ErrParseTime)
    | Some startDate =>
      let sub := mkSubscription newID (create_ServiceName r) (create_Price r)
                                userID startDate None zeroTime zeroTime in
      if bool_decide (create_EndDate r ≠ "") then
        match GoTime.Parse MonthYear (create_EndDate r) with
        | None => (None, Some ErrParseTime)
        | Some endDate => (Some (withEndDate sub (Some endDate)), None)
        end
      else (Some sub, None)
    end
  end.

End Model.

(** ** The database: table [subscriptions] and the statements of the
    repository

    A statement is what the repository builds: the query with its
    numbered placeholders and the list of arguments.  The text of the
    query is kept as a syntax tree; the one place where the Go code
    formats a string of its own into the query, the column of a SET
    clause, stays a string.

    The table is the one of the migration: the eight columns with
    their types and widths (INTEGER has 32 bits, VARCHAR(255) holds 255
    characters, TIMESTAMP WITH TIME ZONE counts microseconds), NOT NULL
    on all but [end_date], the primary key, and the two CHECKs.  The
    sum of the prices is a BIGINT, which the prices of fewer than 2^32
    rows do not leave. *)

Module Postgres.
Import Chars GoTime GoUUID GoErrors Model.

(** An argument of [Exec] or [Query] ([interface{}]). *)
Inductive Value :=
| VNull
| VInt (n : Z)
| VString (s : string)
| VDate (d : Date)
| VTimestamp (t : Timestamp)
| VUUID (u : UUID).

#[export] Instance Value_eq_dec : EqDecision Value.
Proof. solve_decision. Defined.

(** A condition of a WHERE clause; the number is the placeholder. *)
Inductive Cond :=
| StartDateLe (p : nat)       (* start_date <= $p *)
| StartDateGe (p : nat)       (* start_date >= $p *)
| EndNullOrGe (p : nat)       (* (end_date IS NULL OR end_date >= $p) *)
| EndNullOrLe (p : nat)       (* (end_date IS NULL OR end_date <= $p) *)
| UserIDEq (p : nat)          (* user_id = $p *)
| ServiceNameILike (p : nat). (* service_name ILIKE $p *)

Inductive Query :=
| Insert                                  (* INSERT ... VALUES ($1, ..., $8) *)
| SelectByID                              (* SELECT ... WHERE id = $1 *)
| UpdateSet (set : list (string * nat)) (id : nat)
                                          (* UPDATE ... SET c = $n, ... WHERE id = $id *)
| DeleteByID                              (* DELETE ... WHERE id = $1 *)
| SelectList (conds : list Cond) (limit offset : option nat)
                                          (* SELECT ... WHERE 1=1 AND ... ORDER BY start_date DESC *)
| SelectSum (conds : list Cond).          (* SELECT COALESCE(SUM(price), 0) ... *)

Record Stmt := mkStmt { query : Query; args : list Value }.

(** What SQL leaves to the engine.  Each choice may depend on all the
    statements sent so far, the one at hand being the last of them.
    - [tieRank]: ORDER BY start_date says nothing about two rows of one
      start date; the engine returns them by rising rank.
    - [eager]: a pattern that ends in an escape character is refused
      when the matcher comes to its end on a value.  On the rows that
      meet every other condition it has to; whether it does on some
      other value (a row that another condition excludes, a value of
      the planner's statistics) is the engine's choice.
    - [tieUp]: a timestamp is read as a floating-point number of
      seconds; one that lies halfway between two microseconds goes
      either way. *)
Record Engine := mkEngine {
  tieRank : list Stmt → Subscription → Z;
  eager : list Stmt → bool;
  tieUp : Timestamp → bool
}.

Record DB := mkDB {
  table : list Subscription;
  journal : list Stmt;
  engine : Engine
}.

(** What the engine answers. *)
Inductive Res (A : Type) :=
| Ok (a : A)
| Fail (condition : string).
Arguments Ok {A} a.
Arguments Fail {A} condition.

#[export] Instance Res_bind : MBind Res :=
  λ A B f r, match r with Ok a => f a | Fail c => Fail c end.

Definition param (args : list Value) (p : nat) : Res Value :=
  match p with
  | O => Fail "undefined_parameter"
  | S i => match args !! i with
           | Some v => Ok v
           | None => Fail "undefined_parameter"
           end
  end.

(** *** ILIKE

    [service_name ILIKE $n] in a database encoded in UTF-8: the engine
    puts the value and the pattern in lower case and runs [MatchText]
    of its like_match.c on the bytes.  [%] stands for any run of
    characters, [_] for any one character, a backslash takes the next
    byte literally, and a backslash that ends the pattern is an error,
    raised when the matcher comes to it.  The pattern has to cover the
    whole value.  Lower case is that of the letters A to Z; what the
    engine does with other letters depends on its locale. *)

Inductive Tok :=
| Any                 (* % *)
| One                 (* _ *)
| Lit (c : ascii)     (* a byte, escaped or not *)
| Escape.             (* the backslash that ends the pattern *)

Fixpoint pattern (cs : list ascii) : list Tok :=
  match cs with
  | [] => []
  | c :: rest =>
    if bool_decide (c = "%"%char) then Any :: pattern rest
    else if bool_decide (c = "_"%char) then One :: pattern rest
    else if bool_decide (c = "\"%char) then
      match rest with
      | [] => [Escape]
      | d :: rest' => Lit d :: pattern rest'
      end
    else Lit c :: pattern rest
  end.

Inductive Verdict := LIKE_TRUE | LIKE_FALSE | LIKE_ABORT | LIKE_ERROR.

#[export] Instance Verdict_eq_dec : EqDecision Verdict.
Proof. solve_decision. Defined.

(** A byte 10xxxxxx continues a character. *)
Definition isCont (c : ascii) : bool := (128 <=? code c) && (code c <? 192).

Fixpoint skipCont (t : list ascii) : list ascii :=
  match t with
  | c :: t' => if isCont c then skipCont t' else t
  | [] => []
  end.

(** [NextChar]: one byte on, then past the bytes that continue it. *)
Definition NextChar (t : list ascii) : list ascii :=
  match t with
  | [] => []
  | _ :: t' => skipCont t'
  end.

Definition isAny (k : Tok) : bool :=
  match k with Any => true | _ => false end.

(** The end of the value: what is left of the pattern may only be [%]. *)
Definition atEnd (p : list Tok) : Verdict :=
  if forallb isAny p then LIKE_TRUE else LIKE_ABORT.

(** The search for the literal [c] that follows a [%]: at every
    character of the value that is [c], [rest] tries what follows, and
    the first place from which it does not fail decides.  [first] marks
    the place where the search starts. *)
Fixpoint scanFor (c : ascii) (rest : list ascii → Verdict) (first : bool)
  (t : list ascii) : Verdict :=
  match t with
  | [] => LIKE_ABORT
  | d :: t' =>
      if (first || negb (isCont d)) && bool_decide (c = d) then
        match rest t' with
        | LIKE_FALSE => scanFor c rest false t'
        | matched => matched
        end
      else scanFor c rest false t'
  end.

(** [MatchText].  With [wild], a [%] has been read and the wildcards
    after it are being passed. *)
Fixpoint MatchFrom (p : list Tok) (wild : bool) (t : list ascii) : Verdict :=
  match p with
  | [] =>
      if wild then LIKE_TRUE
      else match t with [] => LIKE_TRUE | _ => LIKE_FALSE end
  | Any :: p' =>
      if wild then MatchFrom p' true t
      else match t with [] => atEnd p' | _ => MatchFrom p' true t end
  | One :: p' =>
      match t with
      | [] => LIKE_ABORT
      | _ => MatchFrom p' wild (NextChar t)
      end
  | Escape :: _ =>
      if wild then LIKE_ERROR
      else match t with [] => LIKE_ABORT | _ => LIKE_ERROR end
  | Lit c :: p' =>
      if wild then scanFor c (MatchFrom p' false) true t
      else
        match t with
        | [] => LIKE_ABORT
        | d :: t' => if bool_decide (c = d) then MatchFrom p' false t'
                     else LIKE_FALSE
        end
  end.

Definition MatchText (p : list Tok) (t : list ascii) : Verdict :=
  MatchFrom p false t.

Definition ILIKE (s pat : string) : Verdict :=
  MatchText (pattern (map lower (chars pat))) (map lower (chars s)).

(** The value matches. *)
Definition ilike (s pat : string) : bool :=
  bool_decide (ILIKE s pat = LIKE_TRUE).

(** The pattern is refused on the value. *)
Definition refuses (s pat : string) : bool :=
  bool_decide (ILIKE s pat = LIKE_ERROR).

Definition isEscape (k : Tok) : bool :=
  match k with Escape => true | _ => false end.

(** The pattern ends in an escape character. *)
Definition endsInEscape (pat : string) : bool :=
  existsb isEscape (pattern (chars pat)).

(** *** Columns and their types (the migration's CREATE TABLE) *)

Inductive Column :=
| ColID | ColServiceName | ColPrice | ColUserID
| ColStartDate | ColEndDate | ColCreatedAt | ColUpdatedAt.

#[export] Instance Column_eq_dec : EqDecision Column.
Proof. solve_decision. Defined.

Definition columnOf (name : string) : option Column :=
  if bool_decide (name = "id") then Some ColID
  else if bool_decide (name = "service_name") then Some ColServiceName
  else if bool_decide (name = "price") then Some ColPrice
  else if bool_decide (name = "user_id") then Some ColUserID
  else if bool_decide (name = "start_date") then Some ColStartDate
  else if bool_decide (name = "end_date") then Some ColEndDate
  else if bool_decide (name = "created_at") then Some ColCreatedAt
  else if bool_decide (name = "updated_at") then Some ColUpdatedAt
  else None.

(** A value can be bound to a column when it is NULL or has its type. *)
Definition fits (c : Column) (v : Value) : bool :=
  match v, c with
  | VNull, _ => true
  | VUUID _, (ColID | ColUserID) => true
  | VString _, ColServiceName => true
  | VInt _, ColPrice => true
  | VDate _, (ColStartDate | ColEndDate) => true
  | VTimestamp _, (ColCreatedAt | ColUpdatedAt) => true
  | _, _ => false
  end.

(** INTEGER has 32 bits. *)
Definition int4 (n : Z) : bool := (- 2 ^ 31 <=? n) && (n <? 2 ^ 31).

(** TIMESTAMP WITH TIME ZONE counts microseconds: the nearest one, and
    the engine's choice halfway between two. *)
Definition micros (e : Engine) (t : Timestamp) : Timestamp :=
  let q := t / 1000 in
  let r := t mod 1000 in
  if r <? 500 then 1000 * q
  else if 500 <? r then 1000 * (q + 1)
  else if tieUp e t then 1000 * (q + 1) else 1000 * q.

(** The bytes of the first [n] characters of a text. *)
Fixpoint firstChars (n : nat) (cs : list ascii) : list ascii :=
  match cs with
  | [] => []
  | c :: rest =>
      if isCont c then c :: firstChars n rest
      else match n with
           | O => []
           | S n' => c :: firstChars n' rest
           end
  end.

(** Storing a text in VARCHAR(n): what goes beyond [n] characters is cut
    when it is spaces only, and refused otherwise. *)
Definition varchar (n : nat) (s : string) : option string :=
  let cs := chars s in
  let kept := firstChars n cs in
  if forallb (λ c, bool_decide (c = " "%char)) (drop (length kept) cs)
  then Some (string_of_list_ascii kept)
  else None.

(** Bind: the value is read by the input function of the type of its
    column. *)
Definition typed (e : Engine) (c : Column) (v : Value) : Res Value :=
  if fits c v then
    match v with
    | VInt n => if int4 n then Ok v else Fail "numeric_value_out_of_range"
    | VTimestamp t => Ok (VTimestamp (micros e t))
    | _ => Ok v
    end
  else Fail "datatype_mismatch".

(** The statement is planned with its values bound, and a text on its
    way to [service_name] is brought to VARCHAR(255) then: whether a
    row is written or not. *)
Definition sized (v : Value) : Res Value :=
  match v with
  | VString s =>
      match varchar 255 s with
      | Some s' => Ok (VString s')
      | None => Fail "string_data_right_truncation"
      end
  | _ => Ok v
  end.

Fixpoint sizedAll (bs : list (Column * Value)) : Res (list (Column * Value)) :=
  match bs with
  | [] => Ok []
  | (c, v) :: rest => v' ← sized v; rest' ← sizedAll rest; Ok ((c, v') :: rest')
  end.

(** What the table gets for an argument on its way to column [c]. *)
Definition landed (e : Engine) (c : Column) (v : Value) : Res Value :=
  v' ← typed e c v; sized v'.

(** Writing one column of a row with a value that has been bound and
    sized; only [end_date] takes NULL. *)
Definition store (r : Subscription) (c : Column) (v : Value) : Res Subscription :=
  match c, v with
  | ColID, VUUID u =>
      Ok (mkSubscription u (ServiceName r) (Price r) (UserID r) (StartDate r)
                         (EndDate r) (CreatedAt r) (UpdatedAt r))
  | ColServiceName, VString s =>
      Ok (mkSubscription (ID r) s (Price r) (UserID r) (StartDate r)
                         (EndDate r) (CreatedAt r) (UpdatedAt r))
  | ColPrice, VInt n =>
      Ok (mkSubscription (ID r) (ServiceName r) n (UserID r) (StartDate r)
                         (EndDate r) (CreatedAt r) (UpdatedAt r))
  | ColUserID, VUUID u =>
      Ok (mkSubscription (ID r) (ServiceName r) (Price r) u (StartDate r)
                         (EndDate r) (CreatedAt r) (UpdatedAt r))
  | ColStartDate, VDate d =>
      Ok (mkSubscription (ID r) (ServiceName r) (Price r) (UserID r) d
                         (EndDate r) (CreatedAt r) (UpdatedAt r))
  | ColEndDate, VDate d => Ok (withEndDate r (Some d))
  | ColEndDate, VNull => Ok (withEndDate r None)
  | ColCreatedAt, VTimestamp t => Ok (withTimes r t (UpdatedAt r))
  | ColUpdatedAt, VTimestamp t => Ok (withTimes r (CreatedAt r) t)
  | _, VNull => Fail "not_null_violation"
  | _, _ => Fail "datatype_mismatch"
  end.

(** CHECK (price >= 0) and CHECK (end_date IS NULL OR end_date >= start_date). *)
Definition checks (r : Subscription) : Res Subscription :=
  if Price r <? 0 then Fail "check_violation"
  else match EndDate r with
       | None => Ok r
       | Some e => if GoTime.geb e (StartDate r) then Ok r
                   else Fail "check_violation"
       end.

(** *** Binding the placeholders *)

Definition bindClause (e : Engine) (a : list Value) (cl : string * nat)
  : Res (Column * Value) :=
  v ← param a cl.2;
  match columnOf cl.1 with
  | None => Fail "undefined_column"
  | Some c => v' ← typed e c v; Ok (c, v')
  end.

Fixpoint bindSet (e : Engine) (a : list Value) (set : list (string * nat))
  : Res (list (Column * Value)) :=
  match set with
  | [] => Ok []
  | cl :: rest => b ← bindClause e a cl; bs ← bindSet e a rest; Ok (b :: bs)
  end.

Fixpoint storeAll (asg : list (Column * Value)) (r : Subscription)
  : Res Subscription :=
  match asg with
  | [] => Ok r
  | (c, v) :: rest => r' ← store r c v; storeAll rest r'
  end.

(** A bound condition; [None] is a NULL argument, with which the
    comparison is not true. *)
Inductive Bound :=
| BStartDateLe (d : option Date)
| BStartDateGe (d : option Date)
| BEndNullOrGe (d : option Date)
| BEndNullOrLe (d : option Date)
| BUserIDEq (u : option UUID)
| BServiceNameILike (pat : option string).

Definition asDate (v : Value) : Res (option Date) :=
  match v with
  | VDate d => Ok (Some d) | VNull => Ok None | _ => Fail "datatype_mismatch"
  end.
Definition asUUID (v : Value) : Res (option UUID) :=
  match v with
  | VUUID u => Ok (Some u) | VNull => Ok None | _ => Fail "datatype_mismatch"
  end.
Definition asText (v : Value) : Res (option string) :=
  match v with
  | VString s => Ok (Some s) | VNull => Ok None | _ => Fail "datatype_mismatch"
  end.
Definition asCount (v : Value) : Res (option nat) :=
  match v with
  | VInt n => if n <? 0 then Fail "invalid_row_count" else Ok (Some (Z.to_nat n))
  | VNull => Ok None
  | _ => Fail "datatype_mismatch"
  end.

Definition bindCond (a : list Value) (c : Cond) : Res Bound :=
  match c with
  | StartDateLe p => v ← param a p; d ← asDate v; Ok (BStartDateLe d)
  | StartDateGe p => v ← param a p; d ← asDate v; Ok (BStartDateGe d)
  | EndNullOrGe p => v ← param a p; d ← asDate v; Ok (BEndNullOrGe d)
  | EndNullOrLe p => v ← param a p; d ← asDate v; Ok (BEndNullOrLe d)
  | UserIDEq p => v ← param a p; u ← asUUID v; Ok (BUserIDEq u)
  | ServiceNameILike p => v ← param a p; s ← asText v; Ok (BServiceNameILike s)
  end.

Fixpoint bindWhere (a : list Value) (conds : list Cond) : Res (list Bound) :=
  match conds with
  | [] => Ok []
  | c :: rest => b ← bindCond a c; bs ← bindWhere a rest; Ok (b :: bs)
  end.

(** The condition is true of the row. *)
Definition holds (r : Subscription) (b : Bound) : bool :=
  match b with
  | BStartDateLe (Some d) => GoTime.leb (StartDate r) d
  | BStartDateGe (Some d) => GoTime.geb (StartDate r) d
  | BEndNullOrGe d =>
      match EndDate r, d with
      | None, _ => true
      | Some e, Some d => GoTime.geb e d
      | Some _, None => false
      end
  | BEndNullOrLe d =>
      match EndDate r, d with
      | None, _ => true
      | Some e, Some d => GoTime.leb e d
      | Some _, None => false
      end
  | BUserIDEq (Some u) => bool_decide (UserID r = u)
  | BServiceNameILike (Some pat) => ilike (ServiceName r) pat
  | _ => false
  end.

Definition selected (bs : list Bound) (t : list Subscription) : list Subscription :=
  List.filter (λ r, forallb (holds r) bs) t.

(** The condition is an error on the row. *)
Definition fails (r : Subscription) (b : Bound) : bool :=
  match b with
  | BServiceNameILike (Some pat) => refuses (ServiceName r) pat
  | _ => false
  end.

(** A row on which the WHERE clause cannot but fail: a condition is an
    error, and no condition is there to exclude the row without it. *)
Definition stuck (bs : list Bound) (r : Subscription) : bool :=
  existsb (fails r) bs && forallb (λ b, holds r b || fails r b) bs.

(** A condition of the clause can fail on some value. *)
Definition fallible (bs : list Bound) : bool :=
  existsb (λ b, match b with
                | BServiceNameILike (Some pat) => endsInEscape pat
                | _ => false
                end) bs.

(** The rows of the WHERE clause.  [all] tells that the statement needs
    every one of them (a sum, a sort without LIMIT); with a LIMIT the
    engine may stop before it has seen a row that is stuck. *)
Definition scanned (e : Engine) (sent : list Stmt) (all : bool)
  (bs : list Bound) (t : list Subscription) : Res (list Subscription) :=
  if (all && existsb (stuck bs) t) || (fallible bs && eager e sent)
  then Fail "invalid_escape_sequence"
  else Ok (selected bs t).

(** *** Running a statement *)

Definition hasID (id : option UUID) (r : Subscription) : bool :=
  match id with Some u => bool_decide (ID r = u) | None => false end.

(** INSERT INTO subscriptions (id, ..., updated_at) VALUES ($1, ..., $8):
    the eight values are bound, then sized, then written, and the row
    is held against the CHECKs. *)
Definition insertColumns : list (string * nat) :=
  [("id", 1%nat); ("service_name", 2%nat); ("price", 3%nat);
   ("user_id", 4%nat); ("start_date", 5%nat); ("end_date", 6%nat);
   ("created_at", 7%nat); ("updated_at", 8%nat)].

Definition blank : Subscription :=
  mkSubscription 0 "" 0 0 (mkDate 0 0 0) None 0 0.

Definition insertRow (e : Engine) (a : list Value) : Res Subscription :=
  vs ← bindSet e a insertColumns;
  vs ← sizedAll vs;
  r ← storeAll vs blank;
  checks r.

Fixpoint updateRows (id : option UUID) (asg : list (Column * Value))
  (t : list Subscription) : Res (list Subscription) :=
  match t with
  | [] => Ok []
  | r :: rest =>
      r' ← (if hasID id r then r1 ← storeAll asg r; checks r1 else Ok r);
      rest' ← updateRows id asg rest;
      Ok (r' :: rest')
  end.

(** The primary key, looked at again when an update writes [id]. *)
Definition uniqueIDs (t : list Subscription) : bool := bool_decide (NoDup (map ID t)).

(** ORDER BY start_date DESC: [x] comes before [r] when it starts
    later, and between two rows of one start date the engine's rank
    decides (and the order of the table between two of one rank). *)
Definition precedes (rank : Subscription → Z) (x r : Subscription) : bool :=
  After (StartDate x) (StartDate r)
  || (bool_decide (StartDate x = StartDate r) && (rank x <? rank r)).

Fixpoint insertDesc (rank : Subscription → Z) (r : Subscription)
  (l : list Subscription) : list Subscription :=
  match l with
  | [] => [r]
  | x :: l' => if precedes rank x r then x :: insertDesc rank r l'
               else r :: l
  end.

Definition orderByStartDateDesc (rank : Subscription → Z)
  (l : list Subscription) : list Subscription :=
  fold_right (insertDesc rank) [] l.

(** SUM over no row is NULL. *)
Definition SUM (l : list Z) : option Z :=
  match l with
  | [] => None
  | x :: l' => Some (fold_left Z.add l' x)
  end.

Definition COALESCE (v : option Z) (d : Z) : Z :=
  match v with Some x => x | None => d end.

Definition bindCount (a : list Value) (p : option nat) : Res (option nat) :=
  match p with
  | None => Ok None
  | Some p => v ← param a p; asCount v
  end.

Inductive Answer :=
| Affected (n : Z)
| Rows (rs : list Subscription)
| Scalar (n : Z).

(** [sent] is the journal with the statement at hand as its last
    entry. *)
Definition run (e : Engine) (sent : list Stmt) (q : Query) (a : list Value)
  (t : list Subscription) : Res (list Subscription * Answer) :=
  match q with
  | Insert =>
      r ← insertRow e a;
      if bool_decide (ID r ∈ map ID t) then Fail "unique_violation"
      else Ok (t ++ [r], Affected 1)
  | SelectByID =>
      v ← param a 1; id ← asUUID v;
      Ok (t, Rows (List.filter (hasID id) t))
  | UpdateSet set p =>
      asg ← bindSet e a set;
      v ← param a p; id ← asUUID v;
      asg ← sizedAll asg;
      if bool_decide (NoDup (asg.*1)) then
        t' ← updateRows id asg t;
        if bool_decide (ColID ∈ asg.*1) && negb (uniqueIDs t')
        then Fail "unique_violation"
        else Ok (t', Affected (Z.of_nat (length (List.filter (hasID id) t))))
      else Fail "syntax_error"
  | DeleteByID =>
      v ← param a 1; id ← asUUID v;
      Ok (List.filter (λ r, negb (hasID id r)) t,
          Affected (Z.of_nat (length (List.filter (hasID id) t))))
  | SelectList conds limit offset =>
      bs ← bindWhere a conds;
      lim ← bindCount a limit;
      off ← bindCount a offset;
      rs ← scanned e sent (bool_decide (lim = None)) bs t;
      let rs := orderByStartDateDesc (tieRank e sent) rs in
      let rs := match off with Some n => drop n rs | None => rs end in
      let rs := match lim with Some n => take n rs | None => rs end in
      Ok (t, Rows rs)
  | SelectSum conds =>
      bs ← bindWhere a conds;
      rs ← scanned e sent true bs t;
      Ok (t, Scalar (COALESCE (SUM (map Price rs)) 0))
  end.

(** *** database/sql *)

Definition send (db : DB) (q : Query) (a : list Value) : DB * Res Answer :=
  let sent := journal db ++ [mkStmt q a] in
  match run (engine db) sent q a (table db) with
  | Ok (t', ans) => (mkDB t' sent (engine db), Ok ans)
  | Fail c => (mkDB (table db) sent (engine db), Fail c)
  end.

(** [db.Exec]: the number of rows affected. *)
Definition Exec (db : DB) (q : Query) (a : list Value) : DB * (Z * option error) :=
  match send db q a with
  | (db', Ok (Affected n)) => (db', (n, None))
  | (db', Ok _) => (db', (0, None))
  | (db', Fail c) => (db', (0, Some (ErrEngine c)))
  end.

(** [db.Query]: all rows. *)
Definition QueryRows (db : DB) (q : Query) (a : list Value)
  : DB * (list Subscription * option error) :=
  match send db q a with
  | (db', Ok (Rows rs)) => (db', (rs, None))
  | (db', Ok _) => (db', ([], None))
  | (db', Fail c) => (db', ([], Some (ErrEngine c)))
  end.

(** [db.QueryRow(...).Scan(...)] of a row of the table: the first row,
    [sql.ErrNoRows] when there is none. *)
Definition QueryRow (db : DB) (q : Query) (a : list Value)
  : DB * (option Subscription * option error) :=
  match QueryRows db q a with
  | (db', (_, Some e)) => (db', (None, Some e))
  | (db', ([], None)) => (db', (None, Some ErrNoRows))
  | (db', (r :: _, None)) => (db', (Some r, None))
  end.

(** [db.QueryRow(...).Scan(&total)] of the one-column row of a sum. *)
Definition QueryScalar (db : DB) (q : Query) (a : list Value)
  : DB * (Z * option error) :=
  match send db q a with
  | (db', Ok (Scalar n)) => (db', (n, None))
  | (db', Ok _) => (db', (0, Some ErrNoRows))
  | (db', Fail c) => (db', (0, Some (ErrEngine c)))
  end.

End Postgres.

(** ** Package repository *)

Module Repository.
Import GoTime GoUUID GoErrors GoSlice Model Postgres.

(** The order in which [range] visits a map. *)
Definition MapRange := gmap string Value → list (string * Value).

(** Every entry once: the only thing Go promises about that order. *)
Definition visitsAll (rt : MapRange) : Prop := ∀ m, rt m ≡ₚ map_to_list m.

Definition pointerArg (e : option Date) : Value :=
  match e with Some d => VDate d | None => VNull end.

(** [Create] writes the two timestamps into [*sub]; the caller sees
    them, so the subscription comes back with the result. *)
Definition Create (db : DB) (sub : Subscription) (now : Timestamp)
  : DB * (Subscription * option error) :=
  let sub := withTimes sub now now in
  let '(db', (_, err)) :=
    Exec db Insert
         [VUUID (ID sub); VString (ServiceName sub); VInt (Price sub);
          VUUID (UserID sub); VDate (StartDate sub); pointerArg (EndDate sub);
          VTimestamp (CreatedAt sub); VTimestamp (UpdatedAt sub)] in
  match err with
  | Some e => (db', (sub, Some (ErrWrap "failed to create subscription" e)))
  | None => (db', (sub, None))
  end.

Definition GetByID (db : DB) (id : UUID)
  : DB * (option Subscription * option error) :=
  match QueryRow db SelectByID [VUUID id] with
  | (db', (_, Some e)) =>
      if Is e ErrNoRows then (db', (None, None))
      else (db', (None, Some (ErrWrap "failed to get subscription" e)))
  | (db', (sub, None)) => (db', (sub, None))
  end.

(** The loop over [updates]: one SET clause and one argument per entry. *)
Definition setLoop (entries : list (string * Value))
  : list (string * nat) * list Value * nat :=
  fold_left (λ '(setClauses, args, i) '(field, value),
               (setClauses ++ [(field, i)], args ++ [value], S i))
            entries ([], [], 1%nat).

Definition Update (rt : MapRange) (db : DB) (id : UUID)
  (updates : gmap string Value) (now : Timestamp) : DB * option error :=
  if bool_decide (size updates = 0%nat) then (db, None)
  else
    let '(setClauses, args, i) := setLoop (rt updates) in
    let setClauses := setClauses ++ [("updated_at", i)] in
    let args := args ++ [VTimestamp now] in
    let i := S i in
    let args := args ++ [VUUID id] in
    let '(db', (rowsAffected, err)) := Exec db (UpdateSet setClauses i) args in
    match err with
    | Some e => (db', Some (ErrWrap "failed to update subscription" e))
    | None => if rowsAffected =? 0 then (db', Some ErrNoRows) else (db', None)
    end.

Definition Delete (db : DB) (id : UUID) : DB * option error :=
  let '(db', (rowsAffected, err)) := Exec db DeleteByID [VUUID id] in
  match err with
  | Some e => (db', Some (ErrWrap "failed to delete subscription" e))
  | None => if rowsAffected =? 0 then (db', Some ErrNoRows) else (db', None)
  end.

(** The WHERE clause and the arguments of [List], up to ORDER BY. *)
Definition listWhere (filter : SubscriptionFilter)
  : list Cond * list Value * nat :=
  let '(conds, args, i) := ([], [], 1%nat) in
  let '(conds, args, i) :=
    match filter_UserID filter with
    | Some u => (conds ++ [UserIDEq i], args ++ [VUUID u], S i)
    | None => (conds, args, i)
    end in
  let '(conds, args, i) :=
    match filter_ServiceName filter with
    | Some s => (conds ++ [ServiceNameILike i],
                 args ++ [VString ("%" +:+ s +:+ "%")], S i)
    | None => (conds, args, i)
    end in
  let '(conds, args, i) :=
    match filter_StartDate filter with
    | Some d => (conds ++ [StartDateGe i], args ++ [VDate d], S i)
    | None => (conds, args, i)
    end in
  match filter_EndDate filter with
  | Some d => (conds ++ [EndNullOrLe i], args ++ [VDate d], S i)
  | None => (conds, args, i)
  end.

Definition List (db : DB) (filter : SubscriptionFilter)
  : DB * (slice Subscription * option error) :=
  let '(conds, args, i) := listWhere filter in
  let '(limit, args, i) :=
    if 0 <? filter_Limit filter
    then (Some i, args ++ [VInt (filter_Limit filter)], S i)
    else (None, args, i) in
  let '(offset, args) :=
    if 0 <? filter_Offset filter
    then (Some i, args ++ [VInt (filter_Offset filter)])
    else (None, args) in
  match QueryRows db (SelectList conds limit offset) args with
  | (db', (_, Some e)) =>
      (db', (SliceNil, Some (ErrWrap "failed to list subscriptions" e)))
  | (db', (rows, None)) =>
      (db', (fold_left append rows SliceNil, None))
  end.

(** The WHERE clause and the arguments of [Aggregate]. *)
Definition aggregateWhere (startDate endDate : Date) (userID : option UUID)
  (serviceName : option string) : list Cond * list Value :=
  let conds := [StartDateLe 2; EndNullOrGe 1] in
  let args := [VDate startDate; VDate endDate] in
  let i := 3%nat in
  let '(conds, args, i) :=
    match userID with
    | Some u => (conds ++ [UserIDEq i], args ++ [VUUID u], S i)
    | None => (conds, args, i)
    end in
  match serviceName with
  | Some s => (conds ++ [ServiceNameILike i], args ++ [VString s])
  | None => (conds, args)
  end.

Definition Aggregate (db : DB) (startDate endDate : Date)
  (userID : option UUID) (serviceName : option string)
  : DB * (Z * option error) :=
  let '(conds, args) := aggregateWhere startDate endDate userID serviceName in
  match QueryScalar db (SelectSum conds) args with
  | (db', (_, Some e)) =>
      (db', (0, Some (ErrWrap "failed to aggregate subscriptions" e)))
  | (db', (total, None)) => (db', (total, None))
  end.

End Repository.

(** ** Package service, with [ValidationError], [NotFoundError] and
    [ErrNoUpdates] (the variant of unnamed/part_003) *)

Module Service.
Import GoTime GoUUID GoErrors GoSlice Model Postgres.

Definition invalidUUID (field : string) : error :=
  ValidationError field (ErrWrap "invalid UUID format" ErrInvalidUUID).

Definition invalidDate (field : string) : error :=
  ValidationError field
    (ErrWrap "invalid date format, expected YYYY-MM-DD" ErrParseTime).

Definition Create (db : DB) (req : CreateSubscriptionRequest)
  (newID : UUID) (now : Timestamp) : DB * (option Subscription * option error) :=
  if create_Price req <? 0 then
    (db, (None, Some (ValidationError "price" (ErrNew "price cannot be negative"))))
  else
    match ToSubscription req newID with
    | (_, Some err) => (db, (None, Some (ValidationError "request" err)))
    | (None, None) => (db, (None, Some (ErrNew "nil pointer dereference")))
    | (Some sub, None) =>
        match Repository.Create db sub now with
        | (db', (_, Some err)) =>
            (db', (None, Some (ErrWrap "failed to create subscription" err)))
        | (db', (sub', None)) => (db', (Some sub', None))
        end
    end.

Definition GetByID (db : DB) (id : string)
  : DB * (option Subscription * option error) :=
  match GoUUID.Parse id with
  | None => (db, (None, Some (invalidUUID "id")))
  | Some uuidID =>
      match Repository.GetByID db uuidID with
      | (db', (_, Some err)) =>
          (db', (None, Some (ErrWrap "failed to get subscription" err)))
      | (db', (None, None)) => (db', (None, Some (NotFoundError id)))
      | (db', (Some sub, None)) => (db', (Some sub, None))
      end
  end.

(** The three steps of [Update] that fill [updates] from the request. *)
Definition serviceNameStep (req : UpdateSubscriptionRequest)
  (updates : gmap string Value) : gmap string Value :=
  match update_ServiceName req with
  | Some s => <["service_name" := VString s]> updates
  | None => updates
  end.

Definition priceStep (req : UpdateSubscriptionRequest)
  (updates : gmap string Value) : gmap string Value * option error :=
  match update_Price req with
  | Some p =>
      if p <? 0 then
        (updates, Some (ValidationError "price" (ErrNew "price cannot be negative")))
      else (<["price" := VInt p]> updates, None)
  | None => (updates, None)
  end.

Definition endDateStep (req : UpdateSubscriptionRequest)
  (updates : gmap string Value) : gmap string Value * option error :=
  match update_EndDate req with
  | Some e =>
      if bool_decide (e = "") then (<["end_date" := VNull]> updates, None)
      else match GoTime.Parse YearMonthDay e with
           | None => (updates, Some (invalidDate "end_date"))
           | Some endDate => (<["end_date" := VDate endDate]> updates, None)
           end
  | None => (updates, None)
  end.

Definition buildUpdates (req : UpdateSubscriptionRequest)
  : gmap string Value * option error :=
  let updates := serviceNameStep req ∅ in
  match priceStep req updates with
  | (updates, Some err) => (updates, Some err)
  | (updates, None) => endDateStep req updates
  end.

Definition Update (rt : Repository.MapRange) (db : DB) (id : string)
  (req : UpdateSubscriptionRequest) (now : Timestamp) : DB * option error :=
  match GoUUID.Parse id with
  | None => (db, Some (invalidUUID "id"))
  | Some uuidID =>
      match buildUpdates req with
      | (_, Some err) => (db, Some err)
      | (updates, None) =>
          if bool_decide (size updates = 0%nat) then (db, Some ErrNoUpdates)
          else
            match Repository.Update rt db uuidID updates now with
            | (db', Some err) =>
                if Is err ErrNoRows then (db', Some (NotFoundError id))
                else (db', Some (ErrWrap "failed to update subscription" err))
            | (db', None) => (db', None)
            end
      end
  end.

Definition Delete (db : DB) (id : string) : DB * option error :=
  match GoUUID.Parse id with
  | None => (db, Some (invalidUUID "id"))
  | Some uuidID =>
      match Repository.Delete db uuidID with
      | (db', Some err) =>
          if Is err ErrNoRows then (db', Some (NotFoundError id))
          else (db', Some (ErrWrap "failed to delete subscription" err))
      | (db', None) => (db', None)
      end
  end.

(** The part of [List] that turns the arguments into the filter. *)
Definition buildFilter (userID serviceName startDate endDate : option string)
  (limit offset : Z) : option SubscriptionFilter * option error :=
  let user :=
    match userID with
    | Some u => match GoUUID.Parse u with
                | Some v => inl (Some v)
                | None => inr (invalidUUID "user_id")
                end
    | None => inl None
    end in
  let date field (d : option string) :=
    match d with
    | Some s => match GoTime.Parse YearMonthDay s with
                | Some v => inl (Some v)
                | None => inr (invalidDate field)
                end
    | None => inl None
    end in
  match user with
  | inr err => (None, Some err)
  | inl u =>
      match date "start_date" startDate with
      | inr err => (None, Some err)
      | inl sd =>
          match date "end_date" endDate with
          | inr err => (None, Some err)
          | inl ed => (Some (mkFilter u serviceName sd ed limit offset), None)
          end
      end
  end.

Definition List (db : DB) (userID serviceName startDate endDate : option string)
  (limit offset : Z) : DB * (slice Subscription * option error) :=
  match buildFilter userID serviceName startDate endDate limit offset with
  | (Some filter, None) =>
      match Repository.List db filter with
      | (db', (_, Some err)) =>
          (db', (SliceNil, Some (ErrWrap "failed to list subscriptions" err)))
      | (db', (subscriptions, None)) => (db', (subscriptions, None))
      end
  | (_, Some err) => (db, (SliceNil, Some err))
  | (None, None) => (db, (SliceNil, Some (ErrNew "nil pointer dereference")))
  end.

Definition Aggregate (db : DB) (req : AggregateRequest)
  : DB * (option AggregateResponse * option error) :=
  match GoTime.Parse YearMonthDay (aggregate_StartDate req) with
  | None => (db, (None, Some (invalidDate "start_date")))
  | Some startDate =>
    match GoTime.Parse YearMonthDay (aggregate_EndDate req) with
    | None => (db, (None, Some (invalidDate "end_date")))
    | Some endDate =>
      if After startDate endDate then
        (db, (None, Some (ValidationError "date_range"
           (ErrNew "start_date must be before or equal to end_date"))))
      else
        let user :=
          match aggregate_UserID req with
          | Some u => match GoUUID.Parse u with
                      | Some v => inl (Some v)
                      | None => inr (invalidUUID "user_id")
                      end
          | None => inl None
          end in
        match user with
        | inr err => (db, (None, Some err))
        | inl userIDPtr =>
            match Repository.Aggregate db startDate endDate userIDPtr
                                       (aggregate_ServiceName req) with
            | (db', (_, Some err)) =>
                (db', (None, Some (ErrWrap "failed to aggregate subscriptions" err)))
            | (db', (total, None)) => (db', (Some (mkResponse total), None))
            end
        end
    end
  end.

End Service.

(** ** Package service, with plain errors (the variant of
    src/internal/service/subscription.go) *)

Module PlainService.
Import GoTime GoUUID GoErrors GoSlice Model Postgres.

Definition Create (db : DB) (req : CreateSubscriptionRequest)
  (newID : UUID) (now : Timestamp) : DB * (option Subscription * option error) :=
  match ToSubscription req newID with
  | (_, Some err) => (db, (None, Some (ErrWrap "invalid request data" err)))
  | (None, None) => (db, (None, Some (ErrNew "nil pointer dereference")))
  | (Some sub, None) =>
      match Repository.Create db sub now with
      | (db', (_, Some err)) => (db', (None, Some err))
      | (db', (sub', None)) => (db', (Some sub', None))
      end
  end.

Definition GetByID (db : DB) (id : string)
  : DB * (option Subscription * option error) :=
  match GoUUID.Parse id with
  | None => (db, (None, Some (ErrWrap "invalid id format" ErrInvalidUUID)))
  | Some uuidID =>
      match Repository.GetByID db uuidID with
      | (db', (_, Some err)) => (db', (None, Some err))
      | (db', (sub, None)) => (db', (sub, None))
      end
  end.

Definition endDateStep (req : UpdateSubscriptionRequest)
  (updates : gmap string Value) : gmap string Value * option error :=
  match update_EndDate req with
  | Some e =>
      if bool_decide (e = "") then (<["end_date" := VNull]> updates, None)
      else match GoTime.Parse MonthYear e with
           | None => (updates, Some (ErrWrap "invalid end date format" ErrParseTime))
           | Some endDate => (<["end_date" := VDate endDate]> updates, None)
           end
  | None => (updates, None)
  end.

Definition buildUpdates (req : UpdateSubscriptionRequest)
  : gmap string Value * option error :=
  let updates := Service.serviceNameStep req ∅ in
  let updates :=
    match update_Price req with
    | Some p => <["price" := VInt p]> updates
    | None => updates
    end in
  endDateStep req updates.

Definition Update (rt : Repository.MapRange) (db : DB) (id : string)
  (req : UpdateSubscriptionRequest) (now : Timestamp) : DB * option error :=
  match GoUUID.Parse id with
  | None => (db, Some (ErrWrap "invalid id format" ErrInvalidUUID))
  | Some uuidID =>
      match buildUpdates req with
      | (_, Some err) => (db, Some err)
      | (updates, None) =>
          match Repository.Update rt db uuidID updates now with
          | (db', Some err) =>
              if Is err ErrNoRows then (db', Some (ErrNew "subscription not found"))
              else (db', Some err)
          | (db', None) => (db', None)
          end
      end
  end.

Definition Delete (db : DB) (id : string) : DB * option error :=
  match GoUUID.Parse id with
  | None => (db, Some (ErrWrap "invalid id format" ErrInvalidUUID))
  | Some uuidID =>
      match Repository.Delete db uuidID with
      | (db', Some err) =>
          if Is err ErrNoRows then (db', Some (ErrNew "subscription not found"))
          else (db', Some err)
      | (db', None) => (db', None)
      end
  end.

Definition buildFilter (userID serviceName startDate endDate : option string)
  (limit offset : Z) : option SubscriptionFilter * option error :=
  let user :=
    match userID with
    | Some u => match GoUUID.Parse u with
                | Some v => inl (Some v)
                | None => inr (ErrWrap "invalid user_id format" ErrInvalidUUID)
                end
    | None => inl None
    end in
  let date message (d : option string) :=
    match d with
    | Some s => match GoTime.Parse MonthYear s with
                | Some v => inl (Some v)
                | None => inr (ErrWrap message ErrParseTime)
                end
    | None => inl None
    end in
  match user with
  | inr err => (None, Some err)
  | inl u =>
      match date "invalid start_date format" startDate with
      | inr err => (None, Some err)
      | inl sd =>
          match date "invalid end_date format" endDate with
          | inr err => (None, Some err)
          | inl ed => (Some (mkFilter u serviceName sd ed limit offset), None)
          end
      end
  end.

Definition List (db : DB) (userID serviceName startDate endDate : option string)
  (limit offset : Z) : DB * (slice Subscription * option error) :=
  match buildFilter userID serviceName startDate endDate limit offset with
  | (Some filter, None) =>
      match Repository.List db filter with
      | (db', (_, Some err)) => (db', (SliceNil, Some err))
      | (db', (subscriptions, None)) => (db', (subscriptions, None))
      end
  | (_, Some err) => (db, (SliceNil, Some err))
  | (None, None) => (db, (SliceNil, Some (ErrNew "nil pointer dereference")))
  end.

Definition Aggregate (db : DB) (req : AggregateRequest)
  : DB * (option AggregateResponse * option error) :=
  match GoTime.Parse MonthYear (aggregate_StartDate req) with
  | None => (db, (None, Some (ErrWrap "invalid start_date format" ErrParseTime)))
  | Some startDate =>
    match GoTime.Parse MonthYear (aggregate_EndDate req) with
    | None => (db, (None, Some (ErrWrap "invalid end_date format" ErrParseTime)))
    | Some endDate =>
      if After startDate endDate then
        (db, (None, Some (ErrNew "start_date must be before or equal to end_date")))
      else
        let user :=
          match aggregate_UserID req with
          | Some u => match GoUUID.Parse u with
                      | Some v => inl (Some v)
                      | None => inr (ErrWrap "invalid user_id format" ErrInvalidUUID)
                      end
          | None => inl None
          end in
        match user with
        | inr err => (db, (None, Some err))
        | inl userIDPtr =>
            match Repository.Aggregate db startDate endDate userIDPtr
                                       (aggregate_ServiceName req) with
            | (db', (_, Some err)) => (db', (None, Some err))
            | (db', (total, None)) => (db', (Some (mkResponse total), None))
            end
        end
    end
  end.

End PlainService.

(** ** Package handler (the variant of unnamed/part_002, which goes with
    [Service]): what is answered for a get and for a list *)

Module Handler.
Import GoTime GoUUID GoErrors GoSlice Model Postgres.

Inductive Body :=
| ErrorBody (message : string)
| ValidationBody (field : string) (err : error)   (* validationErr.Error() *)
| SubscriptionBody (sub : Subscription)
| ListBody (data : slice Subscription) (limit offset total : Z).

Record Response := mkHTTP { status : Z; body : Body }.

Definition GetSubscription (db : DB) (id : string) : DB * Response :=
  match Service.GetByID db id with
  | (db', (_, Some err)) =>
      match AsValidation err with
      | Some (f, e) => (db', mkHTTP 400 (ValidationBody f e))
      | None => (db', mkHTTP 500 (ErrorBody "Failed to get subscription"))
      end
  | (db', (None, None)) => (db', mkHTTP 404 (ErrorBody "Subscription not found"))
  | (db', (Some sub, None)) => (db', mkHTTP 200 (SubscriptionBody sub))
  end.

(** An empty query parameter becomes a nil pointer. *)
Definition pointerTo (s : string) : option string :=
  if bool_decide (s ≠ "") then Some s else None.

(** [ListSubscriptions] once [limit] and [offset] are read from the
    query string. *)
Definition ListSubscriptions (db : DB)
  (userID serviceName startDate endDate : string) (limit offset : Z)
  : DB * Response :=
  match Service.List db (pointerTo userID) (pointerTo serviceName)
                     (pointerTo startDate) (pointerTo endDate) limit offset with
  | (db', (_, Some err)) =>
      match AsValidation err with
      | Some (f, e) => (db', mkHTTP 400 (ValidationBody f e))
      | None => (db', mkHTTP 500 (ErrorBody "Failed to list subscriptions"))
      end
  | (db', (subscriptions, None)) =>
      let subscriptions :=
        if isNil subscriptions then SliceOf [] else subscriptions in
      (db', mkHTTP 200 (ListBody subscriptions limit offset (len subscriptions)))
  end.

End Handler.

(** ** The vocabulary of the specification *)

Module Spec.
Import Chars GoTime GoUUID GoErrors GoSlice Model Postgres.

(** The active interval of [r] meets the window:
    start_date <= periodEnd AND (end_date IS NULL OR end_date >= periodStart). *)
Definition overlaps (periodStart periodEnd : Date) (r : Subscription) : bool :=
  GoTime.leb (StartDate r) periodEnd &&
  match EndDate r with
  | None => true
  | Some e => GoTime.geb e periodStart
  end.

Definition ownedBy (userID : option UUID) (r : Subscription) : bool :=
  match userID with
  | None => true
  | Some u => bool_decide (UserID r = u)
  end.

Definition named (serviceName : option string) (r : Subscription) : bool :=
  match serviceName with
  | None => true
  | Some pat => ilike (ServiceName r) pat
  end.

(** The rows an aggregate query counts. *)
Definition counted (periodStart periodEnd : Date) (userID : option UUID)
  (serviceName : option string) (r : Subscription) : bool :=
  overlaps periodStart periodEnd r && ownedBy userID r && named serviceName r.

(** The rows a list query selects, before ordering and paging. *)
Definition listed (f : SubscriptionFilter) (r : Subscription) : bool :=
  ownedBy (filter_UserID f) r
  && match filter_ServiceName f with
     | None => true
     | Some s => ilike (ServiceName r) ("%" +:+ s +:+ "%")
     end
  && match filter_StartDate f with
     | None => true
     | Some d => GoTime.geb (StartDate r) d
     end
  && match filter_EndDate f, EndDate r with
     | Some d, Some e => GoTime.leb e d
     | _, _ => true
     end.

(** The rank the engine gives the rows of a list query. *)
Definition listRank (db : DB) (f : SubscriptionFilter) : Subscription → Z :=
  tieRank (engine db) (journal (Repository.List db f).1).

(** OFFSET, then LIMIT, each only when positive. *)
Definition page (f : SubscriptionFilter) (l : list Subscription)
  : list Subscription :=
  let l := if 0 <? filter_Offset f then drop (Z.to_nat (filter_Offset f)) l
           else l in
  if 0 <? filter_Limit f then take (Z.to_nat (filter_Limit f)) l else l.

Definition priceSum (l : list Subscription) : Z :=
  foldr (λ r acc, Price r + acc) 0 l.

(** An optional identifier of a request: absent, or one that parses. *)
Definition optionalUUID (s : option string) : option (option UUID) :=
  match s with
  | None => Some None
  | Some u => match GoUUID.Parse u with
              | Some v => Some (Some v)
              | None => None
              end
  end.

(** No storage call: nothing is added to the journal, and the table is
    the same. *)
Definition untouched (db db' : DB) : Prop := db' = db.

(** Exactly one statement has been sent. *)
Definition sentOne (db db' : DB) (s : Stmt) : Prop :=
  journal db' = journal db ++ [s].

(** A filter that the engine cannot refuse as a pattern: it does not
    end in an escape character. *)
Definition clean (serviceName : option string) : Prop :=
  match serviceName with
  | Some s => endsInEscape s = false
  | None => True
  end.

(** A row on which an aggregate query cannot but fail: it meets the
    window and the user, and the pattern is refused on its name. *)
Definition halts (periodStart periodEnd : Date) (userID : option UUID)
  (serviceName : option string) (r : Subscription) : bool :=
  overlaps periodStart periodEnd r && ownedBy userID r
  && match serviceName with
     | Some s => refuses (ServiceName r) s
     | None => false
     end.

(** The statement of an aggregate query. *)
Definition aggregateStmt (periodStart periodEnd : Date) (userID : option UUID)
  (serviceName : option string) : Stmt :=
  mkStmt
    (SelectSum (Repository.aggregateWhere periodStart periodEnd userID serviceName).1)
    (Repository.aggregateWhere periodStart periodEnd userID serviceName).2.

(** The engine refuses an aggregate query: a stored row halts it, or
    its pattern ends in an escape character and the engine comes to
    that on some other value. *)
Definition refused (db : DB) (periodStart periodEnd : Date)
  (userID : option UUID) (serviceName : option string) : bool :=
  existsb (halts periodStart periodEnd userID serviceName) (table db)
  || (match serviceName with Some s => endsInEscape s | None => false end
      && eager (engine db)
               (journal db
                ++ [aggregateStmt periodStart periodEnd userID serviceName])).

(** A string that holds none of the characters ILIKE reads in a special
    way. *)
Definition plain (s : string) : Prop :=
  Forall (λ c, c ≠ "%"%char ∧ c ≠ "_"%char ∧ c ≠ "\"%char) (chars s).

(** The first byte of the text starts a character, as in every text in
    UTF-8. *)
Definition initial (s : string) : Prop :=
  match chars s with
  | c :: _ => isCont c = false
  | [] => True
  end.

(** [a] and [b] are the same up to the case of letters. *)
Definition sameFold (a b : list ascii) : Prop := map lower a = map lower b.

(** [s] occurs in [t], up to case. *)
Definition occursFold (s t : list ascii) : Prop :=
  ∃ pre mid post, t = pre ++ mid ++ post ∧ sameFold mid s.

(** The columns an update may write. *)
Definition allowList : gset string :=
  {[ "service_name"; "price"; "end_date" ]}.

(** The columns named by the SET clauses of a statement. *)
Definition setColumns (s : Stmt) : list string :=
  match query s with
  | UpdateSet set _ => set.*1
  | _ => []
  end.

(** The stored end date of the subscription [id], if it is stored. *)
Definition storedEndDate (db : DB) (id : UUID) : option (option Date) :=
  EndDate <$> head (List.filter (hasID (Some id)) (table db)).

End Spec.

(** ** Sample data *)

Module Sample.
Import GoTime GoUUID GoErrors GoSlice Model Postgres.

Definition alice : string := "00000000-0000-0000-0000-0000000000aa".
Definition firstID : string := "00000000-0000-0000-0000-000000000001".
Definition missingID : string := "00000000-0000-0000-0000-000000000009".

(** Subscription A runs from 2024-01 to 2024-03, B from 2024-02 on. *)
Definition subA : Subscription :=
  mkSubscription 1 "Netflix" 10 170 (mkDate 2024 1 1) (Some (mkDate 2024 3 1))
                 100000 100000.
Definition subB : Subscription :=
  mkSubscription 2 "Spotify" 7 170 (mkDate 2024 2 1) None 200000 200000.

(** An engine that keeps the order of the table between rows of one
    start date, looks at no value it need not look at, and rounds a tie
    down. *)
Definition plainEngine : Engine :=
  mkEngine (λ _ _, 0) (λ _, false) (λ _, false).

Definition store : DB := mkDB [subA; subB] [] plainEngine.
Definition emptyStore : DB := mkDB [] [] plainEngine.

End Sample.

(** ** Package strconv *)

Module Strconv.
Import Chars.

Fixpoint digits (acc : Z) (cs : list ascii) : option Z :=
  match cs with
  | [] => Some acc
  | c :: cs' => d ← digit c; digits (10 * acc + d) cs'
  end.

(** [strconv.Atoi] on a 64-bit [int]: an optional sign, then digits only,
    at least one, and a value that fits; [None] is a [*NumError]. *)
Definition Atoi (s : string) : option Z :=
  let cs := chars s in
  let '(neg, ds) :=
    match cs with
    | c :: rest =>
        if bool_decide (c = "-"%char) then (true, rest)
        else if bool_decide (c = "+"%char) then (false, rest)
        else (false, cs)
    | [] => (false, [])
    end in
  match ds with
  | [] => None
  | _ =>
      n ← digits 0 ds;
      let v := if neg then - n else n in
      if (- 2 ^ 63 <=? v) && (v <? 2 ^ 63) then Some v else None
  end.

End Strconv.

(** ** Package handler, the rest of the variant of unnamed/part_002

    Each handler is taken from the point where gin has bound the body or
    the query to the request struct; [Query] is [c.Query]. *)

Module Handlers.
Import GoTime GoUUID GoErrors GoSlice Model Postgres.

Inductive Payload :=
| Failure (message : string)                      (* gin.H{"error": message} *)
| Invalid (field : string) (err : error)          (* gin.H{"error": validationErr.Error()} *)
| One (sub : option Subscription)
| Done (message id : string)                      (* gin.H{"message": ..., "id": id} *)
| Sum (result : option AggregateResponse).

Record Reply := mkReply { code : Z; payload : Payload }.

Definition CreateSubscription (db : DB) (req : CreateSubscriptionRequest)
  (newID : UUID) (now : Timestamp) : DB * Reply :=
  match Service.Create db req newID now with
  | (db', (_, Some err)) =>
      match AsValidation err with
      | Some (f, e) => (db', mkReply 400 (Invalid f e))
      | None => (db', mkReply 500 (Failure "Failed to create subscription"))
      end
  | (db', (sub, None)) => (db', mkReply 201 (One sub))
  end.

Definition UpdateSubscription (rt : Repository.MapRange) (db : DB) (id : string)
  (req : UpdateSubscriptionRequest) (now : Timestamp) : DB * Reply :=
  match Service.Update rt db id req now with
  | (db', Some err) =>
      if Is err ErrNoRows then
        (db', mkReply 404 (Failure "Subscription not found"))
      else if Is err ErrNoUpdates then
        (db', mkReply 400 (Failure "No fields to update"))
      else
        match AsValidation err with
        | Some (f, e) => (db', mkReply 400 (Invalid f e))
        | None => (db', mkReply 500 (Failure "Failed to update subscription"))
        end
  | (db', None) =>
      (db', mkReply 200 (Done "Subscription updated successfully" id))
  end.

Definition DeleteSubscription (db : DB) (id : string) : DB * Reply :=
  match Service.Delete db id with
  | (db', Some err) =>
      if Is err ErrNoRows then
        (db', mkReply 404 (Failure "Subscription not found"))
      else
        match AsValidation err with
        | Some (f, e) => (db', mkReply 400 (Invalid f e))
        | None => (db', mkReply 500 (Failure "Failed to delete subscription"))
        end
  | (db', None) =>
      (db', mkReply 200 (Done "Subscription deleted successfully" id))
  end.

Definition AggregateSubscriptions (db : DB) (req : AggregateRequest)
  : DB * Reply :=
  match Service.Aggregate db req with
  | (db', (_, Some err)) =>
      match AsValidation err with
      | Some (f, e) => (db', mkReply 400 (Invalid f e))
      | None => (db', mkReply 500 (Failure "Failed to aggregate subscriptions"))
      end
  | (db', (result, None)) => (db', mkReply 200 (Sum result))
  end.

(** The two numbers of the query string of a list request: the value to
    use, or the message of the 400 answer. *)
Definition readLimit (Query : string → string) : Z + string :=
  let l := Query "limit" in
  if bool_decide (l ≠ "") then
    match Strconv.Atoi l with
    | Some parsed => if 0 <? parsed then inl parsed else inl 10
    | None => inr "Invalid limit parameter"
    end
  else inl 10.

Definition readOffset (Query : string → string) : Z + string :=
  let o := Query "offset" in
  if bool_decide (o ≠ "") then
    match Strconv.Atoi o with
    | Some parsed => if 0 <=? parsed then inl parsed else inl 0
    | None => inr "Invalid offset parameter"
    end
  else inl 0.

(** [ListSubscriptions], from the query string on. *)
Definition ListSubscriptions (db : DB) (Query : string → string)
  : DB * Handler.Response :=
  let userID := Query "user_id" in
  let serviceName := Query "service_name" in
  let startDate := Query "start_date" in
  let endDate := Query "end_date" in
  match readLimit Query with
  | inr message => (db, Handler.mkHTTP 400 (Handler.ErrorBody message))
  | inl limit =>
      match readOffset Query with
      | inr message => (db, Handler.mkHTTP 400 (Handler.ErrorBody message))
      | inl offset =>
          Handler.ListSubscriptions db userID serviceName startDate endDate
                                    limit offset
      end
  end.

End Handlers.

(** ** More vocabulary *)

Module Props.
Import Chars GoTime GoUUID GoErrors GoSlice Model Postgres.

(** [a] is not after [b]. *)
Definition notAfter (a b : Date) : Prop := After a b = false.

(** What the two CHECKs of the table ask of a row. *)
Definition checked (r : Subscription) : Prop :=
  0 ≤ Price r ∧
  match EndDate r with
  | Some e => notAfter (StartDate r) e
  | None => True
  end.

(** What the table keeps: one row per identifier, every row checked. *)
Definition consistent (t : list Subscription) : Prop :=
  NoDup (map ID t) ∧ Forall checked t.

(** The value of a column of a row, as the driver would send it. *)
Definition cell (c : Column) (r : Subscription) : Value :=
  match c with
  | ColID => VUUID (ID r)
  | ColServiceName => VString (ServiceName r)
  | ColPrice => VInt (Price r)
  | ColUserID => VUUID (UserID r)
  | ColStartDate => VDate (StartDate r)
  | ColEndDate => match EndDate r with Some d => VDate d | None => VNull end
  | ColCreatedAt => VTimestamp (CreatedAt r)
  | ColUpdatedAt => VTimestamp (UpdatedAt r)
  end.

(** The name of a column in the statements. *)
Definition columnName (c : Column) : string :=
  match c with
  | ColID => "id"
  | ColServiceName => "service_name"
  | ColPrice => "price"
  | ColUserID => "user_id"
  | ColStartDate => "start_date"
  | ColEndDate => "end_date"
  | ColCreatedAt => "created_at"
  | ColUpdatedAt => "updated_at"
  end.

(** A text as VARCHAR(255) keeps it, when it takes it. *)
Definition cut (s : string) : string := default s (varchar 255 s).

(** The values of a request are of the width of their columns. *)
Definition fitsName (s : string) : Prop := is_Some (varchar 255 s).
Definition fitsPrice (n : Z) : Prop := n < 2 ^ 31.


(** The number of characters of a text. *)
Definition charLength (s : string) : nat :=
  length (List.filter (λ c, negb (isCont c)) (chars s)).

(** A subscription as the table keeps it: the name cut to 255
    characters, the two timestamps in microseconds. *)
Definition kept (e : Engine) (r : Subscription) : Subscription :=
  mkSubscription (ID r) (cut (ServiceName r)) (Price r) (UserID r)
                 (StartDate r) (EndDate r)
                 (micros e (CreatedAt r)) (micros e (UpdatedAt r)).

(** The row [r] after an update request that was accepted at [now]: the
    fields the request carries are replaced, [updated_at] is [now] in
    microseconds, and the rest is kept. *)
Definition updated (e : Engine) (req : UpdateSubscriptionRequest)
  (now : Timestamp) (r : Subscription) : Subscription :=
  mkSubscription
    (ID r)
    (match update_ServiceName req with
     | Some s => cut s
     | None => ServiceName r
     end)
    (default (Price r) (update_Price req))
    (UserID r)
    (StartDate r)
    (match update_EndDate req with
     | None => EndDate r
     | Some e => if bool_decide (e = "") then None
                 else GoTime.Parse YearMonthDay e
     end)
    (CreatedAt r)
    (micros e now).

(** An entry of the update set and what the table gets for it. *)
Definition bound (e : Engine) (en : string * Value) (b : Column * Value) : Prop :=
  columnOf en.1 = Some b.1 ∧ landed e b.1 en.2 = Ok b.2.

(** The row of identifier [u], if it is stored. *)
Definition stored (db : DB) (u : UUID) : option Subscription :=
  head (List.filter (hasID (Some u)) (table db)).

(** The statements that only read. *)
Definition isSelect (q : Query) : bool :=
  match q with
  | SelectByID | SelectList _ _ _ | SelectSum _ => true
  | Insert | UpdateSet _ _ | DeleteByID => false
  end.

(** From [db] to [db'] nothing was written: the table is the same, and
    what was sent, if anything, is one SELECT. *)
Definition readOnly (db db' : DB) : Prop :=
  table db' = table db
  ∧ (journal db' = journal db
     ∨ ∃ st, journal db' = journal db ++ [st] ∧ isSelect (query st) = true).

(** The rows of a slice are in the order of ORDER BY start_date DESC. *)
Definition newestFirst (l : list Subscription) : Prop :=
  StronglySorted (λ a b, notAfter (StartDate b) (StartDate a)) l.

End Props.

(** * Theorems *)

Import Chars GoTime GoUUID GoErrors GoSlice Model Postgres Spec Props.

#[local] Arguments GoTime.Parse : simpl never.
#[local] Arguments GoUUID.Parse : simpl never.
#[local] Arguments int4 : simpl never.
#[local] Arguments varchar : simpl never.
#[local] Arguments micros : simpl never.

(** * ILIKE *)

Lemma chars_append (a b : string) : chars (a +:+ b) = chars a ++ chars b.
Proof.
  unfold chars. induction a as [|c a IH]; simpl; [reflexivity|].
  f_equal. exact IH.
Qed.

(** Lower case leaves the three characters of a pattern and the bytes
    that continue a character as they are, and makes no new ones. *)
Lemma lower_special (c : ascii) :
  bool_decide (lower c = "%"%char) = bool_decide (c = "%"%char)
  ∧ bool_decide (lower c = "_"%char) = bool_decide (c = "_"%char)
  ∧ bool_decide (lower c = "\"%char) = bool_decide (c = "\"%char)
  ∧ isCont (lower c) = isCont c.
Proof.
  destruct c as [[] [] [] [] [] [] [] []]; vm_compute; repeat split.
Qed.

Lemma pattern_lower (cs : list ascii) :
  existsb isEscape (pattern (map lower cs)) = existsb isEscape (pattern cs).
Proof.
  remember (length cs) as n eqn:Hn. revert cs Hn.
  induction n as [n IH] using lt_wf_ind. intros cs Hn.
  destruct cs as [|c cs]; [reflexivity|]. simpl.
  destruct (lower_special c) as (-> & -> & -> & _).
  case_bool_decide; [simpl; apply (IH (length cs)); simpl in Hn; lia|].
  case_bool_decide; [simpl; apply (IH (length cs)); simpl in Hn; lia|].
  case_bool_decide.
  - destruct cs as [|d cs]; [reflexivity|]. simpl.
    apply (IH (length cs)); simpl in Hn; lia.
  - simpl. apply (IH (length cs)); simpl in Hn; lia.
Qed.

Lemma scanFor_never (v : Verdict) c rest first t :
  v ≠ LIKE_ABORT → (∀ t', rest t' ≠ v) → scanFor c rest first t ≠ v.
Proof.
  intros Hv Hrest. revert first. induction t as [|d t IH]; intros first; simpl.
  - congruence.
  - destruct ((first || negb (isCont d)) && bool_decide (c = d)); [|apply IH].
    pose proof (Hrest t) as Ht. destruct (rest t); try congruence; apply IH.
Qed.

(** Only a pattern that ends in an escape character is ever refused. *)
Lemma MatchFrom_error p wild t :
  MatchFrom p wild t = LIKE_ERROR → existsb isEscape p = true.
Proof.
  revert wild t. induction p as [|k p IH]; intros wild t; simpl.
  - destruct wild, t; discriminate.
  - destruct k; simpl.
    + destruct wild; [apply IH|]. destruct t; [|apply IH].
      unfold atEnd. destruct (forallb isAny p); discriminate.
    + destruct t; [discriminate | apply IH].
    + destruct wild.
      * intros Hscan. destruct (existsb isEscape p) eqn:Hp; [reflexivity|].
        exfalso. revert Hscan. apply scanFor_never; [discriminate|].
        intros t' Ht'. apply IH in Ht'. congruence.
      * destruct t as [|d t]; [discriminate|].
        case_bool_decide; [apply IH | discriminate].
    + reflexivity.
Qed.

(** And such a pattern matches nothing. *)
Lemma MatchFrom_escape p wild t :
  existsb isEscape p = true → MatchFrom p wild t ≠ LIKE_TRUE.
Proof.
  revert wild t. induction p as [|k p IH]; intros wild t; simpl; [discriminate|].
  destruct k; simpl; intros Hp.
  - destruct wild; [apply IH, Hp|]. destruct t; [|apply IH, Hp].
    unfold atEnd. destruct (forallb isAny p) eqn:Hall; [|discriminate].
    exfalso. clear IH. induction p as [|k p IHp]; [discriminate|].
    simpl in *. destruct k; simpl in *; try discriminate. apply IHp; assumption.
  - destruct t; [discriminate | apply IH, Hp].
  - destruct wild.
    + apply scanFor_never; [discriminate|]. intros t'. apply IH, Hp.
    + destruct t as [|d t]; [discriminate|].
      case_bool_decide; [apply IH, Hp | discriminate].
  - destruct wild; [discriminate|]. destruct t; discriminate.
Qed.

Lemma refuses_endsInEscape name s :
  refuses name s = true → endsInEscape s = true.
Proof.
  unfold refuses, ILIKE, MatchText, endsInEscape. intros H.
  apply bool_decide_eq_true in H. apply MatchFrom_error in H.
  rewrite pattern_lower in H. exact H.
Qed.

Lemma endsInEscape_ilike name s :
  endsInEscape s = true → ilike name s = false.
Proof.
  unfold ilike, ILIKE, MatchText, endsInEscape. intros H.
  apply bool_decide_eq_false. apply MatchFrom_escape.
  rewrite pattern_lower. exact H.
Qed.


Lemma pattern_wrapped (cs : list ascii) :
  Forall (λ c, c ≠ "%"%char ∧ c ≠ "_"%char ∧ c ≠ "\"%char) cs →
  pattern ("%"%char :: cs ++ ["%"%char]) = Any :: map Lit cs ++ [Any].
Proof.
  intros H. simpl. f_equal.
  induction H as [|c cs (Hp & Hu & Hb) _ IH]; simpl; [reflexivity|].
  rewrite !bool_decide_eq_false_2 by assumption. f_equal. exact IH.
Qed.

Lemma plain_lower (cs : list ascii) :
  Forall (λ c, c ≠ "%"%char ∧ c ≠ "_"%char ∧ c ≠ "\"%char) cs →
  Forall (λ c, c ≠ "%"%char ∧ c ≠ "_"%char ∧ c ≠ "\"%char) (map lower cs).
Proof.
  induction 1 as [|c cs (Hp & Hu & Hb) _ IH]; simpl; constructor; [|exact IH].
  destruct (lower_special c) as (H1 & H2 & H3 & _).
  rewrite (bool_decide_eq_false_2 _ Hp) in H1.
  rewrite (bool_decide_eq_false_2 _ Hu) in H2.
  rewrite (bool_decide_eq_false_2 _ Hb) in H3.
  apply bool_decide_eq_false in H1, H2, H3. auto.
Qed.

(** A wrapped pattern never ends in an escape character. *)
Lemma pattern_closed (cs : list ascii) :
  existsb isEscape (pattern (cs ++ ["%"%char])) = false.
Proof.
  remember (length cs) as n eqn:Hn. revert cs Hn.
  induction n as [n IH] using lt_wf_ind. intros cs Hn.
  destruct cs as [|c cs]; [reflexivity|]. simpl.
  case_bool_decide; [simpl; apply (IH (length cs)); simpl in Hn; lia|].
  case_bool_decide; [simpl; apply (IH (length cs)); simpl in Hn; lia|].
  case_bool_decide.
  - destruct cs as [|d cs]; [reflexivity|]. simpl.
    apply (IH (length cs)); simpl in Hn; lia.
  - simpl. apply (IH (length cs)); simpl in Hn; lia.
Qed.

Lemma wrapped_closed (s : string) : endsInEscape ("%" +:+ s +:+ "%") = false.
Proof.
  unfold endsInEscape. rewrite !chars_append.
  change (chars "%") with ["%"%char]. simpl app. simpl pattern.
  apply pattern_closed.
Qed.


(** Literals followed by [%]. *)
Lemma MatchFrom_literals_then_any (cs t : list ascii) :
  match MatchFrom (map Lit cs ++ [Any]) false t with
  | LIKE_TRUE => ∃ post, t = cs ++ post
  | LIKE_ABORT => (length t < length cs)%nat
  | LIKE_FALSE => ¬ ∃ post, t = cs ++ post
  | LIKE_ERROR => False
  end.
Proof.
  revert t. induction cs as [|c cs IH]; intros t; simpl.
  - destruct t; simpl; eauto.
  - destruct t as [|d t]; simpl; [lia|].
    case_bool_decide as Hc.
    + specialize (IH t). destruct (MatchFrom (map Lit cs ++ [Any]) false t).
      * destruct IH as [post ->]. exists post. subst. reflexivity.
      * intros [post Hpost]. apply IH. exists post. congruence.
      * lia.
      * exact IH.
    + intros [post Hpost]. congruence.
Qed.

(** The search after a leading [%]: the literals are found wherever
    they occur, as long as the first of them starts a character. *)
Lemma scanFor_occurs c cs first t :
  isCont c = false →
  scanFor c (MatchFrom (map Lit cs ++ [Any]) false) first t = LIKE_TRUE
  ↔ ∃ pre post, t = pre ++ (c :: cs) ++ post.
Proof.
  intros Hc. revert first. induction t as [|d t IH]; intros first; simpl.
  - split; [discriminate|]. intros (pre & post & H). destruct pre; discriminate.
  - assert (Hlater : (∃ pre post, t = pre ++ (c :: cs) ++ post) →
                     ∃ pre post, d :: t = pre ++ (c :: cs) ++ post).
    { intros (pre & post & ->). exists (d :: pre), post. reflexivity. }
    assert (Hsplit : (∃ pre post, d :: t = pre ++ (c :: cs) ++ post) →
                     (c = d ∧ ∃ post, t = cs ++ post)
                     ∨ ∃ pre post, t = pre ++ (c :: cs) ++ post).
    { intros (pre & post & H). destruct pre as [|e pre]; simpl in H.
      - injection H as -> ->. left. eauto.
      - injection H as -> ->. right. eauto. }
    destruct ((first || negb (isCont d)) && bool_decide (c = d)) eqn:Htry.
    + apply andb_true_iff in Htry. destruct Htry as [_ Hd].
      apply bool_decide_eq_true in Hd. subst d.
      pose proof (MatchFrom_literals_then_any cs t) as Hm.
      destruct (MatchFrom (map Lit cs ++ [Any]) false t).
      * split; [|reflexivity]. intros _. destruct Hm as [post ->].
        exists [], post. reflexivity.
      * rewrite IH. split; [exact Hlater|]. intros H.
        destruct (Hsplit H) as [[_ Hp] | Hp]; [contradiction | exact Hp].
      * split; [discriminate|]. intros H. exfalso.
        destruct (Hsplit H) as [[_ [post ->]] | (pre & post & ->)];
          rewrite ?length_app in Hm; simpl in Hm; rewrite ?length_app in Hm; lia.
      * contradiction.
    + rewrite IH. split; [exact Hlater|]. intros H.
      destruct (Hsplit H) as [[<- _] | Hp]; [|exact Hp].
      rewrite Hc, bool_decide_eq_true_2, orb_true_r in Htry by reflexivity.
      discriminate.
Qed.

Lemma map_lower_app_inv (t a b : list ascii) :
  map lower t = a ++ b → ∃ t1 t2, t = t1 ++ t2 ∧ map lower t1 = a ∧ map lower t2 = b.
Proof.
  revert t. induction a as [|x a IH]; intros t H; simpl in H.
  - exists [], t. auto.
  - destruct t as [|y t]; [discriminate|]. simpl in H. injection H as Hx H.
    destruct (IH t H) as (t1 & t2 & -> & H1 & H2).
    exists (y :: t1), t2. simpl. rewrite Hx, H1. auto.
Qed.


Lemma ilike_wrapped (name s : string) :
  plain s → initial s →
  (ilike name ("%" +:+ s +:+ "%") = true ↔ occursFold (chars s) (chars name)).
Proof.
  intros Hs Hi. unfold ilike, ILIKE, MatchText, occursFold, sameFold.
  rewrite bool_decide_eq_true, !chars_append.
  change (chars "%") with ["%"%char]. simpl app. rewrite map_cons, map_app.
  change (map lower ["%"%char]) with ["%"%char].
  change (lower "%") with "%"%char.
  rewrite (pattern_wrapped _ (plain_lower _ Hs)).
  unfold initial in Hi. destruct (chars s) as [|c cs] eqn:Hcs.
  - simpl. split.
    + intros _. exists [], [], (chars name). auto.
    + intros _. destruct (map lower (chars name)); reflexivity.
  - assert (Hc : isCont (lower c) = false).
    { destruct (lower_special c) as (_ & _ & _ & ->). exact Hi. }
    simpl map. simpl MatchFrom.
    destruct (map lower (chars name)) as [|d t] eqn:Ht.
    + simpl. split; [discriminate|]. intros (pre & mid & post & Hn & Hm).
      destruct (chars name); [|discriminate]. destruct pre, mid; discriminate.
    + rewrite (scanFor_occurs _ _ _ _ Hc). rewrite <- Ht. split.
      * intros (pre & post & H). apply map_lower_app_inv in H.
        destruct H as (t1 & t2 & -> & H1 & H).
        change (lower c :: map lower cs) with (map lower (c :: cs)) in H.
        apply map_lower_app_inv in H. destruct H as (t3 & t4 & -> & H3 & H4).
        exists t1, t3, t4. auto.
      * intros (pre & mid & post & -> & Hm). exists (map lower pre), (map lower post).
        rewrite !map_app, Hm. reflexivity.
Qed.

(** * Aggregation *)

Lemma fold_left_add_shift (l : list Z) (x : Z) :
  fold_left Z.add l x = x + fold_left Z.add l 0.
Proof.
  revert x. induction l as [|y l IH]; intros x; simpl.
  - lia.
  - rewrite (IH (x + y)), (IH (0 + y)). lia.
Qed.

Lemma coalesce_sum_prices (l : list Subscription) :
  COALESCE (SUM (map Price l)) 0 = priceSum l.
Proof.
  destruct l as [|r l]; [reflexivity|]. simpl.
  rewrite fold_left_add_shift. f_equal.
  induction l as [|y l IH]; simpl; [reflexivity|].
  rewrite fold_left_add_shift. simpl in IH. lia.
Qed.

(** The WHERE clause that [Aggregate] builds binds, whatever filters are
    present; it selects the rows the specification counts, and it cannot
    but fail on the rows that halt the query. *)
Lemma aggregateWhere_bound ps pe u s :
  ∃ bs, bindWhere (Repository.aggregateWhere ps pe u s).2
                  (Repository.aggregateWhere ps pe u s).1 = Ok bs
        ∧ (∀ r, forallb (holds r) bs = counted ps pe u s r)
        ∧ (∀ r, stuck bs r = halts ps pe u s r)
        ∧ fallible bs = match s with Some p => endsInEscape p | None => false end.
Proof.
  unfold Repository.aggregateWhere, counted, halts, overlaps, ownedBy, named,
    stuck, fallible.
  destruct u as [u|], s as [s|]; simpl; eexists; (split; [reflexivity|]);
    (split; [|split; [|simpl; rewrite ?orb_false_r; reflexivity]]);
    intros r; simpl;
    destruct (EndDate r); simpl;
    repeat match goal with
           | |- context [GoTime.leb ?a ?b] => destruct (GoTime.leb a b); simpl
           | |- context [GoTime.geb ?a ?b] => destruct (GoTime.geb a b); simpl
           | |- context [bool_decide ?P] => destruct (bool_decide P); simpl
           | |- context [ilike ?a ?b] => destruct (ilike a b); simpl
           | |- context [refuses ?a ?b] => destruct (refuses a b); simpl
           end; reflexivity.
Qed.

(** A pattern that ends in an escape character counts no row, and only
    such a pattern halts on a row. *)
Lemma counted_escape ps pe u p r :
  endsInEscape p = true → counted ps pe u (Some p) r = false.
Proof.
  intros Hp. unfold counted, named. rewrite (endsInEscape_ilike _ _ Hp).
  apply andb_false_r.
Qed.

Lemma halts_escape ps pe u s r :
  halts ps pe u s r = true → ∃ p, s = Some p ∧ endsInEscape p = true.
Proof.
  unfold halts. destruct s as [p|]; [|rewrite andb_false_r; discriminate].
  intros H. apply andb_true_iff in H. destruct H as [_ H].
  exists p. split; [reflexivity|]. exact (refuses_endsInEscape _ _ H).
Qed.

Lemma refused_escape db ps pe u s :
  refused db ps pe u s = true → ∃ p, s = Some p ∧ endsInEscape p = true.
Proof.
  unfold refused. intros H. apply orb_true_iff in H. destruct H as [H|H].
  - apply existsb_exists in H. destruct H as (r & _ & H).
    exact (halts_escape _ _ _ _ _ H).
  - destruct s as [p|]; [|discriminate]. apply andb_true_iff in H.
    exists p. tauto.
Qed.

Lemma clean_refused db ps pe u s : clean s → refused db ps pe u s = false.
Proof.
  intros Hs. destruct (refused db ps pe u s) eqn:H; [|reflexivity].
  destruct (refused_escape _ _ _ _ _ H) as (p & -> & Hp). simpl in Hs. congruence.
Qed.

Lemma filter_none {A} (l : list A) : List.filter (λ _, false) l = [].
Proof. induction l; [reflexivity | assumption]. Qed.

Lemma existsb_same {A} (f g : A → bool) (l : list A) :
  (∀ x, f x = g x) → existsb f l = existsb g l.
Proof.
  intros H. induction l as [|x l IH]; simpl; [reflexivity|].
  rewrite H, IH. reflexivity.
Qed.

(** What [Aggregate] of the repository does: one SELECT, the table as it
    was, and the sum of the rows counted; an error when the engine
    refuses the pattern, which then counts no row. *)
Lemma repository_Aggregate_run db ps pe u s :
  Repository.Aggregate db ps pe u s =
  (mkDB (table db) (journal db ++ [aggregateStmt ps pe u s]) (engine db),
   (priceSum (List.filter (counted ps pe u s) (table db)),
    if refused db ps pe u s
    then Some (ErrWrap "failed to aggregate subscriptions"
                       (ErrEngine "invalid_escape_sequence"))
    else None)).
Proof.
  pose proof (refused_escape db ps pe u s) as Hesc.
  unfold Repository.Aggregate, refused, aggregateStmt in *.
  destruct (aggregateWhere_bound ps pe u s) as (bs & Hb & Hsel & Hstuck & Hfall).
  destruct (Repository.aggregateWhere ps pe u s) as [conds a]. simpl in *.
  unfold QueryScalar, send, run. rewrite Hb. cbn [mbind Res_bind].
  unfold scanned. rewrite Hfall, andb_true_l.
  rewrite (existsb_same _ _ _ Hstuck).
  match goal with |- context [if ?b then Fail _ else _] => destruct b eqn:Hr end.
  - destruct (Hesc eq_refl) as (p & -> & Hp). simpl.
    rewrite (List.filter_ext _ (λ _, false)) by (intros r; apply counted_escape, Hp).
    rewrite filter_none. reflexivity.
  - simpl. rewrite coalesce_sum_prices. unfold selected.
    rewrite (List.filter_ext _ _ Hsel). reflexivity.
Qed.

(** The total is the sum of the rows counted, whether the engine
    refuses the query or not. *)
Lemma repository_Aggregate_total db ps pe u s :
  (Repository.Aggregate db ps pe u s).2.1
  = priceSum (List.filter (counted ps pe u s) (table db)).
Proof. rewrite repository_Aggregate_run. reflexivity. Qed.






(** The same holds for the variant with plain errors, which reads the
    window as month and year. *)
Lemma plain_aggregate_sums_overlapping db req periodStart periodEnd userID :
  GoTime.Parse MonthYear (aggregate_StartDate req) = Some periodStart →
  GoTime.Parse MonthYear (aggregate_EndDate req) = Some periodEnd →
  After periodStart periodEnd = false →
  optionalUUID (aggregate_UserID req) = Some userID →
  clean (aggregate_ServiceName req) →
  (PlainService.Aggregate db req).2 =
  (Some (mkResponse (priceSum (List.filter
      (counted periodStart periodEnd userID (aggregate_ServiceName req))
      (table db)))), None).
Proof.
  intros Hs He Hw Hu Hc. unfold PlainService.Aggregate. rewrite Hs, He, Hw.
  unfold optionalUUID in Hu.
  destruct (aggregate_UserID req) as [u|].
  - destruct (GoUUID.Parse u) as [v|]; [|discriminate].
    injection Hu as <-. rewrite repository_Aggregate_run, (clean_refused _ _ _ _ _ Hc).
    reflexivity.
  - injection Hu as <-. rewrite repository_Aggregate_run, (clean_refused _ _ _ _ _ Hc).
    reflexivity.
Qed.

(** Subscriptions A and B of the sample: the window 2024-02 counts both
    in full; the window 2024-04 to 2024-05 no longer counts A, and still
    counts B, which has no end date. *)
Example aggregate_sample_windows :
  (Service.Aggregate Sample.store
     (mkAggregate None None "2024-02-01" "2024-02-01")).2
  = (Some (mkResponse 17), None)
  ∧ (Service.Aggregate Sample.store
       (mkAggregate None None "2024-04-01" "2024-05-01")).2
    = (Some (mkResponse 7), None)
  ∧ (Service.Aggregate Sample.emptyStore
       (mkAggregate None None "2024-04-01" "2024-05-01")).2
    = (Some (mkResponse 0), None).
Proof. repeat split; reflexivity. Qed.

(** * The window of an aggregate request *)

(** C8, as amended.  When both periods of an aggregate request parse and
    the start is after the end, the service of unnamed/part_003 fails
    with a validation error on field "date_range", and the service of
    src/internal/service/subscription.go fails with a plain error, which
    is no validation error and carries no field; in both the database is
    the one the service got: nothing is sent. *)
Theorem aggregate_inverted_window db periodStart periodEnd :
  After periodStart periodEnd = true →
  (∀ req,
     GoTime.Parse YearMonthDay (aggregate_StartDate req) = Some periodStart →
     GoTime.Parse YearMonthDay (aggregate_EndDate req) = Some periodEnd →
     isValidation (Service.Aggregate db req).2.2 "date_range"
     ∧ (Service.Aggregate db req).2.1 = None
     ∧ untouched db (Service.Aggregate db req).1)
  ∧ (∀ req,
       GoTime.Parse MonthYear (aggregate_StartDate req) = Some periodStart →
       GoTime.Parse MonthYear (aggregate_EndDate req) = Some periodEnd →
       (PlainService.Aggregate db req).2
       = (None, Some (ErrNew "start_date must be before or equal to end_date"))
       ∧ (∀ field, ¬ isValidation (PlainService.Aggregate db req).2.2 field)
       ∧ untouched db (PlainService.Aggregate db req).1).
Proof.
  intros Hw. split; intros req Hs He.
  - unfold Service.Aggregate. rewrite Hs, He, Hw.
    split; [eexists; reflexivity | split; reflexivity].
  - unfold PlainService.Aggregate. rewrite Hs, He, Hw.
    split; [reflexivity|]. split; [|reflexivity].
    intros field [inner H]. discriminate H.
Qed.

Lemma aggregate_inverted_window_witness :
  After (mkDate 2024 5 1) (mkDate 2024 4 1) = true
  ∧ isValidation
      (Service.Aggregate Sample.store
         (mkAggregate None None "2024-05-01" "2024-04-01")).2.2 "date_range"
  ∧ untouched Sample.store
      (Service.Aggregate Sample.store
         (mkAggregate None None "2024-05-01" "2024-04-01")).1
  ∧ untouched Sample.store
      (PlainService.Aggregate Sample.store
         (mkAggregate None None "05-2024" "04-2024")).1.
Proof.
  destruct (aggregate_inverted_window Sample.store (mkDate 2024 5 1)
              (mkDate 2024 4 1) eq_refl) as [Htyped Hplain].
  destruct (Htyped (mkAggregate None None "2024-05-01" "2024-04-01")
              eq_refl eq_refl) as (Hv & _ & Hdb).
  destruct (Hplain (mkAggregate None None "05-2024" "04-2024")
              eq_refl eq_refl) as (_ & _ & Hdb').
  repeat split; assumption.
Defined.

(** C8 as it was stated fails for the service of
    src/internal/service/subscription.go: both periods of the request
    below parse, the start is after the end, and the error is not a
    validation error and names no field. *)
Lemma aggregate_inverted_window_untagged :
  let req := mkAggregate None None "05-2024" "04-2024" in
  GoTime.Parse MonthYear (aggregate_StartDate req) = Some (mkDate 2024 5 1)
  ∧ GoTime.Parse MonthYear (aggregate_EndDate req) = Some (mkDate 2024 4 1)
  ∧ After (mkDate 2024 5 1) (mkDate 2024 4 1) = true
  ∧ (PlainService.Aggregate Sample.store req).2.2
    = Some (ErrNew "start_date must be before or equal to end_date")
  ∧ AsValidation (ErrNew "start_date must be before or equal to end_date") = None.
Proof. repeat split; reflexivity. Qed.

(** * Fetching an identifier that is not stored *)

Lemma repository_GetByID_absent db u :
  List.filter (hasID (Some u)) (table db) = [] →
  (Repository.GetByID db u).2 = (None, None).
Proof.
  intros Hf. unfold Repository.GetByID, QueryRow, QueryRows, send, run.
  simpl. rewrite Hf. reflexivity.
Qed.

(** The repository, and the service with plain errors, answer with the
    absent result and no error. *)
Lemma plain_GetByID_absent db id u :
  GoUUID.Parse id = Some u →
  List.filter (hasID (Some u)) (table db) = [] →
  (PlainService.GetByID db id).2 = (None, None).
Proof.
  intros Hid Hf. unfold PlainService.GetByID. rewrite Hid.
  pose proof (repository_GetByID_absent db u Hf) as H.
  destruct (Repository.GetByID db u) as [db' [sub err]]. simpl in H.
  injection H as -> ->. reflexivity.
Qed.

(** The service with typed errors turns the absent result into a
    [NotFoundError], which its handler answers with status 500: the
    branch of the handler for the absent result, status 404, is never
    taken. *)
Lemma service_GetByID_missing db id u :
  GoUUID.Parse id = Some u →
  List.filter (hasID (Some u)) (table db) = [] →
  (Service.GetByID db id).2 = (None, Some (NotFoundError id))
  ∧ Handler.status (Handler.GetSubscription db id).2 = 500.
Proof.
  intros Hid Hf. unfold Handler.GetSubscription, Service.GetByID. rewrite Hid.
  pose proof (repository_GetByID_absent db u Hf) as H.
  destruct (Repository.GetByID db u) as [db' [sub err]]. simpl in H.
  injection H as -> ->. split; reflexivity.
Qed.

Lemma handler_GetSubscription_never_404 db id :
  Handler.status (Handler.GetSubscription db id).2 ≠ 404.
Proof.
  unfold Handler.GetSubscription, Service.GetByID.
  destruct (GoUUID.Parse id) as [u|]; [|discriminate].
  destruct (Repository.GetByID db u) as [db' [[sub|] [err|]]]; simpl;
    try destruct (AsValidation err) as [[f e]|]; discriminate.
Qed.

(** C4, at an identifier that is well formed and not stored: the
    repository and the plain service return the absent result, the
    service with typed errors returns an error, and the handler answers
    500. *)
Example get_missing_id_is_error :
  GoUUID.Parse Sample.missingID = Some 9
  ∧ (Repository.GetByID Sample.store 9).2 = (None, None)
  ∧ (PlainService.GetByID Sample.store Sample.missingID).2 = (None, None)
  ∧ (Service.GetByID Sample.store Sample.missingID).2
    = (None, Some (NotFoundError Sample.missingID))
  ∧ Handler.status (Handler.GetSubscription Sample.store Sample.missingID).2 = 500.
Proof. repeat split; reflexivity. Qed.

(** * Scanning the table *)

(** A WHERE clause without a pattern that ends in an escape character
    fails on no row, and the engine has nothing to choose. *)
Lemma stuck_fallible bs r : stuck bs r = true → fallible bs = true.
Proof.
  unfold stuck, fallible. intros H. apply andb_true_iff in H. destruct H as [H _].
  apply existsb_exists in H. destruct H as (b & Hb & Hf).
  apply existsb_exists. exists b. split; [exact Hb|].
  destruct b as [| | | | |[pat|]]; try discriminate.
  exact (refuses_endsInEscape _ _ Hf).
Qed.

Lemma scanned_infallible e sent all bs t :
  fallible bs = false → scanned e sent all bs t = Ok (selected bs t).
Proof.
  intros Hf. unfold scanned. rewrite Hf, andb_false_l, orb_false_r.
  destruct (existsb (stuck bs) t) eqn:Hs; [|rewrite andb_false_r; reflexivity].
  apply existsb_exists in Hs. destruct Hs as (r & _ & Hr).
  apply stuck_fallible in Hr. congruence.
Qed.





(** With wildcards of its own the filter of an aggregate query matches
    as a pattern, still over the whole name; with a backslash at its
    end it is refused on the name Netflix and matches no name. *)
Example aggregate_name_filter_pattern :
  (Repository.Aggregate Sample.store (mkDate 2024 2 1) (mkDate 2024 2 1)
                        None (Some "net%")).2 = (10, None)
  ∧ (Repository.Aggregate Sample.store (mkDate 2024 2 1) (mkDate 2024 2 1)
                          None (Some "NETFLIX")).2 = (10, None)
  ∧ (Repository.Aggregate Sample.store (mkDate 2024 2 1) (mkDate 2024 2 1)
                          None (Some "net")).2 = (0, None)
  ∧ (Repository.Aggregate Sample.store (mkDate 2024 2 1) (mkDate 2024 2 1)
                          None (Some "n_tflix")).2 = (10, None)
  ∧ (Repository.Aggregate Sample.store (mkDate 2024 2 1) (mkDate 2024 2 1)
                          None (Some "net\")).2
    = (0, Some (ErrWrap "failed to aggregate subscriptions"
                        (ErrEngine "invalid_escape_sequence"))).
Proof. repeat split; vm_compute; reflexivity. Qed.

(** * Updates: from the map to the rows *)

Lemma Res_bind_Ok {A B} (r : Res A) (f : A → Res B) (b : B) :
  (r ≫= f) = Ok b → ∃ a, r = Ok a ∧ f a = Ok b.
Proof. destruct r as [a|c]; simpl; [eauto | discriminate]. Qed.

Ltac bind_inv H :=
  let x := fresh "x" in
  let E := fresh "E" in
  apply Res_bind_Ok in H; destruct H as (x & E & H).

(** The loop numbers the entries from 1 on, in the order of the visit. *)
Lemma setLoop_from (entries : list (string * Value)) setClauses args (i : nat) :
  fold_left (λ '(setClauses, args, i) '(field, value),
               (setClauses ++ [(field, i)], args ++ [value], S i))
            entries (setClauses, args, i)
  = (setClauses ++ zip entries.*1 (seq i (length entries)),
     args ++ entries.*2, (i + length entries)%nat).
Proof.
  revert setClauses args i.
  induction entries as [|[k v] es IH]; intros sc ar i; simpl.
  - rewrite !app_nil_r, Nat.add_0_r. reflexivity.
  - rewrite IH, <- !app_assoc, Nat.add_succ_r. reflexivity.
Qed.

Lemma setLoop_spec (entries : list (string * Value)) :
  Repository.setLoop entries =
  (zip entries.*1 (seq 1 (length entries)), entries.*2, S (length entries)).
Proof. unfold Repository.setLoop. rewrite setLoop_from. reflexivity. Qed.

Lemma bindSet_app e a s1 s2 asg :
  bindSet e a (s1 ++ s2) = Ok asg →
  ∃ a1 a2, asg = a1 ++ a2 ∧ bindSet e a s1 = Ok a1 ∧ bindSet e a s2 = Ok a2.
Proof.
  revert asg. induction s1 as [|cl s1 IH]; intros asg H; simpl in *.
  - exists [], asg. auto.
  - bind_inv H. bind_inv H. injection H as <-.
    destruct (IH _ E0) as (a1 & a2 & -> & H1 & H2).
    exists (x :: a1), a2. rewrite E, H1, H2. auto.
Qed.

(** Each bound assignment is the entry of the same rank, its field read
    as a column and its value read by the type of the column. *)
Lemma bindSet_entries e (entries : list (string * Value)) pre post asg :
  bindSet e (pre ++ entries.*2 ++ post)
          (zip entries.*1 (seq (S (length pre)) (length entries))) = Ok asg →
  Forall2 (λ en b, columnOf en.1 = Some b.1 ∧ typed e b.1 en.2 = Ok b.2)
          entries asg.
Proof.
  revert pre asg. induction entries as [|[k v] es IH]; intros pre asg H; simpl in H.
  - injection H as <-. constructor.
  - bind_inv H. bind_inv H. injection H as <-.
    constructor.
    + unfold bindClause in E. simpl in E.
      rewrite lookup_app_r in E by lia. rewrite Nat.sub_diag in E. simpl in E.
      simpl. destruct (columnOf k) as [c|]; [|discriminate].
      bind_inv E. injection E as <-. split; [reflexivity | exact E1].
    + apply (IH (pre ++ [v])).
      rewrite <- app_assoc, length_app, Nat.add_1_r. exact E0.
Qed.

Lemma sizedAll_app a1 a2 asg :
  sizedAll (a1 ++ a2) = Ok asg →
  ∃ b1 b2, asg = b1 ++ b2 ∧ sizedAll a1 = Ok b1 ∧ sizedAll a2 = Ok b2.
Proof.
  revert asg. induction a1 as [|[c v] a1 IH]; intros asg H; simpl in *.
  - exists [], asg. auto.
  - bind_inv H. bind_inv H. injection H as <-.
    destruct (IH _ E0) as (b1 & b2 & -> & H1 & H2).
    exists ((c, x) :: b1), b2. rewrite E, H1, H2. auto.
Qed.

Lemma sizedAll_each a b :
  sizedAll a = Ok b → Forall2 (λ x y, y.1 = x.1 ∧ sized x.2 = Ok y.2) a b.
Proof.
  revert b. induction a as [|[c v] a IH]; intros b H; simpl in H.
  - injection H as <-. constructor.
  - bind_inv H. bind_inv H. injection H as <-. constructor; [auto | apply IH, E0].
Qed.

Lemma bound_entries e (entries : list (string * Value)) asg asg' :
  Forall2 (λ en b, columnOf en.1 = Some b.1 ∧ typed e b.1 en.2 = Ok b.2)
          entries asg →
  sizedAll asg = Ok asg' →
  Forall2 (bound e) entries asg'.
Proof.
  intros H1 H2. apply sizedAll_each in H2. revert asg' H2.
  induction H1 as [|en b es bs [Hc Ht] _ IH]; intros asg' H2.
  - inversion H2. constructor.
  - inversion H2 as [|? b' ? bs' [Hb Hs] Hrest]; subst. constructor.
    + unfold bound, landed. rewrite Hb. split; [exact Hc|].
      rewrite Ht. exact Hs.
    + apply IH, Hrest.
Qed.

Lemma columnOf_end_date k : columnOf k = Some ColEndDate → k = "end_date".
Proof.
  unfold columnOf. repeat case_bool_decide; congruence.
Qed.

Lemma columnOf_id k : columnOf k = Some ColID → k = "id".
Proof.
  unfold columnOf. repeat case_bool_decide; congruence.
Qed.

(** Writing a column other than [c] leaves [c] as it was; stated for the
    two columns the theorems follow. *)
Lemma store_EndDate r c v r' :
  store r c v = Ok r' → c ≠ ColEndDate → EndDate r' = EndDate r.
Proof.
  destruct c, v; simpl; intros H Hc; try discriminate; try congruence;
    injection H as <-; reflexivity.
Qed.

Lemma store_ID r c v r' :
  store r c v = Ok r' → c ≠ ColID → ID r' = ID r.
Proof.
  destruct c, v; simpl; intros H Hc; try discriminate; try congruence;
    injection H as <-; reflexivity.
Qed.

Lemma storeAll_ID asg r r' :
  storeAll asg r = Ok r' → (∀ v, (ColID, v) ∉ asg) → ID r' = ID r.
Proof.
  revert r. induction asg as [|[c v] asg IH]; intros r H Hid; simpl in H.
  - congruence.
  - bind_inv H. rewrite (IH _ H).
    + apply (store_ID _ _ _ _ E). intros ->. apply (Hid v). left.
    + intros w Hw. apply (Hid w). right. exact Hw.
Qed.

Lemma storeAll_EndDate_kept asg r r' :
  storeAll asg r = Ok r' → (∀ v, (ColEndDate, v) ∉ asg) →
  EndDate r' = EndDate r.
Proof.
  revert r. induction asg as [|[c v] asg IH]; intros r H He; simpl in H.
  - congruence.
  - bind_inv H. rewrite (IH _ H).
    + apply (store_EndDate _ _ _ _ E). intros ->. apply (He v). left.
    + intros w Hw. apply (He w). right. exact Hw.
Qed.

Lemma storeAll_EndDate_null asg r r' :
  storeAll asg r = Ok r' →
  (ColEndDate, VNull) ∈ asg → (∀ v, (ColEndDate, v) ∈ asg → v = VNull) →
  EndDate r' = None.
Proof.
  revert r. induction asg as [|[c v] asg IH]; intros r H Hin Hall; simpl in H.
  - inversion Hin.
  - bind_inv H.
    destruct (decide ((ColEndDate, VNull) ∈ asg)) as [Hlater|Hlast].
    + apply (IH _ H Hlater). intros w Hw. apply Hall. right. exact Hw.
    + apply elem_of_cons in Hin as [Heq|Hin]; [|contradiction].
      injection Heq as <- <-. simpl in E. injection E as <-.
      rewrite (storeAll_EndDate_kept _ _ _ H); [reflexivity|].
      intros w Hw. rewrite (Hall w) in Hw by (right; exact Hw). contradiction.
Qed.

Lemma checks_Ok r r' : checks r = Ok r' → r' = r.
Proof.
  unfold checks. destruct (Price r <? 0); [discriminate|].
  destruct (EndDate r); [destruct (GoTime.geb _ _)|]; congruence.
Qed.

Lemma updateRows_each id asg t t' :
  updateRows id asg t = Ok t' →
  Forall2 (λ r r', if hasID id r then storeAll asg r = Ok r' else r' = r) t t'.
Proof.
  revert t'. induction t as [|r t IH]; intros t' H; simpl in H.
  - injection H as <-. constructor.
  - bind_inv H. bind_inv H. injection H as <-. constructor; [|apply IH, E0].
    destruct (hasID id r).
    + bind_inv E. rewrite (checks_Ok _ _ E). exact E1.
    + injection E as <-. reflexivity.
Qed.

Lemma hasID_same u r r' : ID r' = ID r → hasID u r' = hasID u r.
Proof. intros H. unfold hasID. rewrite H. reflexivity. Qed.

(** When every row keeps its identifier and its end date, so does what
    is stored under each identifier. *)
Lemma storedEndDate_kept (t t' : list Subscription) js js' e e' u :
  Forall2 (λ r r', ID r' = ID r ∧ EndDate r' = EndDate r) t t' →
  storedEndDate (mkDB t' js' e') u = storedEndDate (mkDB t js e) u.
Proof.
  unfold storedEndDate. simpl.
  induction 1 as [|r r' t t' [Hid He] _ IH]; [reflexivity|].
  cbn [List.filter]. rewrite (hasID_same _ _ _ Hid).
  destruct (hasID (Some u) r).
  - simpl. rewrite He. reflexivity.
  - exact IH.
Qed.

Lemma storedEndDate_cleared (t t' : list Subscription) js' e' u :
  Forall2 (λ r r', ID r' = ID r
                   ∧ (hasID (Some u) r = true → EndDate r' = None)) t t' →
  List.filter (hasID (Some u)) t ≠ [] →
  ∃ r', head (List.filter (hasID (Some u)) t') = Some r' ∧ EndDate r' = None
        ∧ storedEndDate (mkDB t' js' e') u = Some None.
Proof.
  unfold storedEndDate. simpl.
  induction 1 as [|r r' t t' [Hid He] _ IH]; [simpl; congruence|].
  cbn [List.filter]. rewrite (hasID_same _ _ _ Hid).
  destruct (hasID (Some u) r) eqn:Hr.
  - intros _. exists r'. simpl. rewrite (He Hr). auto.
  - exact IH.
Qed.

(** What the engine does with the statement of [Repository.Update]. *)
Lemma run_update_statement e sent (entries : list (string * Value)) now id t t' ans :
  let n := length entries in
  run e sent
      (UpdateSet (zip entries.*1 (seq 1 n) ++ [("updated_at", S n)]) (S (S n)))
      (entries.*2 ++ [VTimestamp now] ++ [VUUID id]) t = Ok (t', ans) →
  ∃ asg, Forall2 (bound e) entries asg
         ∧ updateRows (Some id)
                      (asg ++ [(ColUpdatedAt, VTimestamp (micros e now))]) t
           = Ok t'
         ∧ ans = Affected (Z.of_nat (length (List.filter (hasID (Some id)) t))).
Proof.
  intros n H. unfold run in H.
  bind_inv H. apply bindSet_app in E as (a1 & a2 & -> & H1 & H2).
  apply (bindSet_entries e entries []) in H1.
  assert (Hn : length entries.*2 = n) by apply length_fmap.
  simpl in H2. unfold bindClause in H2. simpl in H2.
  rewrite lookup_app_r in H2 by lia. rewrite Hn, Nat.sub_diag in H2.
  simpl in H2. injection H2 as <-.
  bind_inv H. simpl in E.
  rewrite lookup_app_r in E by lia. rewrite Hn in E.
  replace (S n - n)%nat with 1%nat in E by lia. simpl in E. injection E as <-.
  bind_inv H. injection E as <-.
  bind_inv H. apply sizedAll_app in E as (b1 & b2 & -> & Hs1 & Hs2).
  simpl in Hs2. injection Hs2 as <-.
  case_bool_decide; [|discriminate].
  bind_inv H. destruct (_ && _); [discriminate|]. injection H as <- <-.
  exists b1. split; [exact (bound_entries _ _ _ _ H1 Hs1) | auto].
Qed.

(** The statement [Repository.Update] sends for a map that is not empty,
    and what it returns for each answer of the engine. *)
Lemma repository_Update_run rt db u (m : gmap string Value) now :
  size m ≠ 0%nat →
  let entries := rt m in
  let n := length entries in
  let st := mkStmt (UpdateSet (zip entries.*1 (seq 1 n) ++ [("updated_at", S n)])
                              (S (S n)))
                   (entries.*2 ++ [VTimestamp now] ++ [VUUID u]) in
  let sent := journal db ++ [st] in
  Repository.Update rt db u m now =
  match run (engine db) sent (query st) (args st) (table db) with
  | Ok (t', Affected k) =>
      (mkDB t' sent (engine db), if k =? 0 then Some ErrNoRows else None)
  | Ok (t', _) => (mkDB t' sent (engine db), Some ErrNoRows)
  | Fail c => (mkDB (table db) sent (engine db),
               Some (ErrWrap "failed to update subscription" (ErrEngine c)))
  end.
Proof.
  intros Hm entries n st sent. unfold Repository.Update.
  rewrite bool_decide_eq_false_2 by exact Hm.
  rewrite setLoop_spec. fold entries. fold n.
  unfold Exec, send. rewrite <- (app_assoc entries.*2). fold st. fold sent.
  change (run (engine db) sent (UpdateSet _ _) _ (table db))
    with (run (engine db) sent (query st) (args st) (table db)).
  destruct (run (engine db) sent (query st) (args st) (table db))
    as [[t' [k|rs|k]]|c]; try reflexivity.
  destruct (k =? 0); reflexivity.
Qed.

(** ** The update set *)

Lemma buildUpdates_keys req k v :
  (Service.buildUpdates req).1 !! k = Some v →
  k = "service_name" ∨ k = "price" ∨ k = "end_date".
Proof.
  unfold Service.buildUpdates, Service.serviceNameStep, Service.priceStep,
    Service.endDateStep.
  destruct (update_ServiceName req), (update_Price req) as [p|],
    (update_EndDate req) as [e|]; simpl;
    try destruct (p <? 0); simpl;
    try case_bool_decide; simpl;
    try destruct (GoTime.Parse YearMonthDay e); simpl;
    intros Hk;
    repeat (rewrite lookup_insert in Hk; case_decide; [subst k; tauto|]);
    try (rewrite lookup_empty in Hk; discriminate); try discriminate.
Qed.

Lemma buildUpdates_end_null req m :
  update_EndDate req = Some "" → Service.buildUpdates req = (m, None) →
  m !! "end_date" = Some VNull.
Proof.
  unfold Service.buildUpdates, Service.priceStep, Service.endDateStep.
  intros ->. destruct (update_Price req) as [p|]; [destruct (p <? 0)|]; simpl;
    intros H; try discriminate; injection H as <-; apply lookup_insert_eq.
Qed.

Lemma buildUpdates_end_absent req :
  update_EndDate req = None → (Service.buildUpdates req).1 !! "end_date" = None.
Proof.
  unfold Service.buildUpdates, Service.serviceNameStep, Service.priceStep,
    Service.endDateStep.
  intros ->. destruct (update_ServiceName req), (update_Price req) as [p|];
    simpl; try destruct (p <? 0); simpl;
    repeat (rewrite lookup_insert_ne by discriminate); apply lookup_empty.
Qed.

Lemma buildUpdates_empty req :
  update_ServiceName req = None → update_Price req = None →
  update_EndDate req = None → Service.buildUpdates req = (∅, None).
Proof.
  unfold Service.buildUpdates, Service.serviceNameStep, Service.priceStep,
    Service.endDateStep.
  intros -> -> ->. reflexivity.
Qed.

Lemma visited_entry (rt : Repository.MapRange) (m : gmap string Value) k v :
  Repository.visitsAll rt → ((k, v) ∈ rt m ↔ m !! k = Some v).
Proof.
  intros Hrt. rewrite (Hrt m). apply elem_of_map_to_list.
Qed.

(** * Creating: what the engine does with the INSERT *)

Lemma checks_cases r : checks r = Ok r ∨ checks r = Fail "check_violation".
Proof.
  unfold checks. destruct (Price r <? 0); [auto|].
  destruct (EndDate r); [destruct (GoTime.geb _ _)|]; auto.
Qed.

Lemma checks_negative r : Price r < 0 → checks r = Fail "check_violation".
Proof. intros H. unfold checks. apply Z.ltb_lt in H. rewrite H. reflexivity. Qed.

(** The CHECKs look at the price and the dates, which the table keeps
    as they are sent. *)
Lemma checks_kept e r : checks r = Ok r ↔ checks (kept e r) = Ok (kept e r).
Proof.
  unfold checks, kept. simpl. destruct (Price r <? 0); [split; discriminate|].
  destruct (EndDate r); [destruct (GoTime.geb _ _)|]; split;
    intros H; try discriminate H; reflexivity.
Qed.

(** The engine on the row of an INSERT: a price beyond INTEGER is
    refused when it is bound, a name beyond VARCHAR(255) when the
    statement is planned, and the row that results is held against the
    CHECKs. *)
Lemma insertRow_create e id name price user sd ed now :
  insertRow e [VUUID id; VString name; VInt price; VUUID user; VDate sd;
               Repository.pointerArg ed; VTimestamp now; VTimestamp now] =
  if int4 price then
    match varchar 255 name with
    | None => Fail "string_data_right_truncation"
    | Some name' =>
        checks (mkSubscription id name' price user sd ed
                               (micros e now) (micros e now))
    end
  else Fail "numeric_value_out_of_range".
Proof.
  unfold insertRow, insertColumns. simpl bindSet. unfold bindClause.
  cbn [fst snd param lookup list_lookup mbind Res_bind].
  repeat match goal with
         | |- context [columnOf ?s] =>
             let v := eval vm_compute in (columnOf s) in
             change (columnOf s) with v
         end.
  unfold typed. cbn [fits].
  destruct (int4 price); [|reflexivity].
  destruct ed as [d|]; cbn [Repository.pointerArg fits mbind Res_bind sizedAll sized];
    (destruct (varchar 255 name) as [name'|]; [|reflexivity]); reflexivity.
Qed.

(** [Repository.Create] sends one INSERT.  The engine refuses a price
    beyond INTEGER, then a name beyond VARCHAR(255), then a row that
    fails a CHECK, then an identifier that is stored already; otherwise
    the row is appended as the table keeps it. *)
Lemma repository_Create_run db sub now :
  let sub' := withTimes sub now now in
  ∃ st, query st = Insert ∧
  let sent := journal db ++ [st] in
  let refusal c :=
    (mkDB (table db) sent (engine db),
     (sub', Some (ErrWrap "failed to create subscription" (ErrEngine c)))) in
  Repository.Create db sub now =
  if int4 (Price sub) then
    match varchar 255 (ServiceName sub) with
    | None => refusal "string_data_right_truncation"
    | Some _ =>
        match checks (kept (engine db) sub') with
        | Fail c => refusal c
        | Ok _ =>
            if bool_decide (ID sub ∈ map ID (table db))
            then refusal "unique_violation"
            else (mkDB (table db ++ [kept (engine db) sub']) sent (engine db),
                  (sub', None))
        end
    end
  else refusal "numeric_value_out_of_range".
Proof.
  intros sub'.
  exists (mkStmt Insert
            [VUUID (ID sub); VString (ServiceName sub); VInt (Price sub);
             VUUID (UserID sub); VDate (StartDate sub);
             Repository.pointerArg (EndDate sub); VTimestamp now; VTimestamp now]).
  split; [reflexivity|]. subst sub'.
  unfold Repository.Create, Exec, send, run.
  cbn [withTimes ID ServiceName Price UserID StartDate EndDate CreatedAt
       UpdatedAt].
  rewrite insertRow_create.
  destruct (int4 (Price sub)); [|reflexivity].
  unfold kept, cut.
  cbn [withTimes ID ServiceName Price UserID StartDate EndDate CreatedAt
       UpdatedAt].
  destruct (varchar 255 (ServiceName sub)) as [name'|]; [|reflexivity].
  cbn [from_option id].
  match goal with
  | |- context [checks ?r] => destruct (checks_cases r) as [-> | ->]
  end; cbn [mbind Res_bind ID]; [|reflexivity].
  case_bool_decide; reflexivity.
Qed.
(** * Update *)

(** The variant with plain errors has no condition for a request
    without fields: the empty map reaches the repository, which returns
    at once, and the update reports success. *)
Lemma plain_update_without_fields rt db id req now u :
  GoUUID.Parse id = Some u →
  update_ServiceName req = None →
  update_Price req = None →
  update_EndDate req = None →
  PlainService.Update rt db id req now = (db, None).
Proof.
  intros Hid Hs Hp He. unfold PlainService.Update, PlainService.buildUpdates,
    PlainService.endDateStep, Service.serviceNameStep.
  rewrite Hid, Hs, Hp, He. unfold Repository.Update.
  rewrite bool_decide_eq_true_2 by apply map_size_empty. reflexivity.
Qed.

(** C2, as amended.  An update whose request sets no field, under an
    identifier that parses, sends nothing to the database, which is the
    one it got.  The service of unnamed/part_003 returns [ErrNoUpdates],
    which is no validation error; the service of
    src/internal/service/subscription.go has no such condition and
    reports success. *)
Theorem update_without_fields rt db id req now u :
  GoUUID.Parse id = Some u →
  update_ServiceName req = None →
  update_Price req = None →
  update_EndDate req = None →
  ((Service.Update rt db id req now).2 = Some ErrNoUpdates
   ∧ AsValidation ErrNoUpdates = None
   ∧ untouched db (Service.Update rt db id req now).1)
  ∧ ((PlainService.Update rt db id req now).2 = None
     ∧ untouched db (PlainService.Update rt db id req now).1).
Proof.
  intros Hid Hs Hp He. split.
  - unfold Service.Update.
    rewrite Hid, (buildUpdates_empty _ Hs Hp He).
    rewrite bool_decide_eq_true_2 by apply map_size_empty.
    repeat split.
  - rewrite (plain_update_without_fields rt db id req now u Hid Hs Hp He).
    split; reflexivity.
Qed.

Lemma update_without_fields_witness :
  GoUUID.Parse Sample.firstID = Some 1
  ∧ Service.Update map_to_list Sample.store Sample.firstID
                   (mkUpdate None None None) 300
    = (Sample.store, Some ErrNoUpdates)
  ∧ (PlainService.Update map_to_list Sample.store Sample.firstID
                         (mkUpdate None None None) 300).2 = None.
Proof.
  split; [reflexivity|].
  pose proof (update_without_fields map_to_list Sample.store Sample.firstID
                (mkUpdate None None None) 300 1 eq_refl eq_refl eq_refl eq_refl)
    as ((Herr & _ & Hdb) & Hplain & _).
  split; [|exact Hplain].
  destruct (Service.Update map_to_list Sample.store Sample.firstID
              (mkUpdate None None None) 300) as [db' e].
  simpl in Herr, Hdb. unfold untouched in Hdb. rewrite Herr, Hdb. reflexivity.
Defined.

(** C2 as it was stated fails for the service of
    src/internal/service/subscription.go: the request below sets no
    field, the identifier parses, and the update returns no error at
    all, where the claim has the no-updates condition. *)
Lemma update_without_fields_succeeds :
  GoUUID.Parse Sample.firstID = Some 1
  ∧ PlainService.Update map_to_list Sample.store Sample.firstID
                        (mkUpdate None None None) 300
    = (Sample.store, None)
  ∧ (PlainService.Update map_to_list Sample.store Sample.firstID
                         (mkUpdate None None None) 300).2
    ≠ Some ErrNoUpdates.
Proof. repeat split; [reflexivity .. | discriminate]. Qed.

(** The variant with plain errors does not look at the price: a negative
    one reaches the engine, which refuses the row. *)
Lemma plain_negative_price_reaches_storage db req newID now sub :
  create_Price req < 0 →
  ToSubscription req newID = (Some sub, None) →
  ∃ st c,
    query st = Insert
    ∧ PlainService.Create db req newID now
      = (mkDB (table db) (journal db ++ [st]) (engine db),
         (None, Some (ErrWrap "failed to create subscription" (ErrEngine c)))).
Proof.
  intros Hp Hsub. unfold PlainService.Create. rewrite Hsub.
  assert (Hprice : Price sub = create_Price req).
  { unfold ToSubscription in Hsub.
    destruct (GoUUID.Parse _); [|discriminate].
    destruct (GoTime.Parse MonthYear (create_StartDate req)); [|discriminate].
    case_bool_decide; [destruct (GoTime.Parse MonthYear (create_EndDate req))|];
      try discriminate; injection Hsub as <-; reflexivity. }
  destruct (repository_Create_run db sub now) as (st & Hq & ->).
  exists st.
  destruct (int4 (Price sub)); [|eexists; split; [exact Hq | reflexivity]].
  destruct (varchar 255 (ServiceName sub));
    [|eexists; split; [exact Hq | reflexivity]].
  rewrite checks_negative by (simpl; lia).
  eexists; split; [exact Hq | reflexivity].
Qed.

(** C5, as amended.  In the service of unnamed/part_003, a create call
    with a price below 0, and an update call with a price below 0 under
    an identifier that parses, fail with a validation error on field
    "price", and the database is the one they got: nothing has been
    sent.  The service of src/internal/service/subscription.go has no
    check of the price: its create call sends the INSERT for a request
    that converts, the engine refuses it, and the call fails with the
    storage error, which is no validation error; nothing is stored. *)
Theorem negative_price_rejected :
  (∀ db req newID now,
     create_Price req < 0 →
     ∃ e, Service.Create db req newID now
          = (db, (None, Some (ValidationError "price" e))))
  ∧ (∀ rt db id req now u p,
       GoUUID.Parse id = Some u →
       update_Price req = Some p → p < 0 →
       ∃ e, Service.Update rt db id req now
            = (db, Some (ValidationError "price" e)))
  ∧ (∀ db req newID now sub,
       create_Price req < 0 →
       ToSubscription req newID = (Some sub, None) →
       ∃ st err,
         query st = Insert
         ∧ sentOne db (PlainService.Create db req newID now).1 st
         ∧ table (PlainService.Create db req newID now).1 = table db
         ∧ (PlainService.Create db req newID now).2 = (None, Some err)
         ∧ AsValidation err = None).
Proof.
  split; [|split].
  - intros db req newID now Hp. unfold Service.Create.
    apply Z.ltb_lt in Hp. rewrite Hp. eauto.
  - intros rt db id req now u p Hid Hp Hneg. unfold Service.Update,
      Service.buildUpdates, Service.priceStep.
    apply Z.ltb_lt in Hneg. rewrite Hid, Hp, Hneg. eauto.
  - intros db req newID now sub Hp Hsub.
    destruct (plain_negative_price_reaches_storage db req newID now sub Hp Hsub)
      as (st & c & Hq & ->).
    exists st, (ErrWrap "failed to create subscription" (ErrEngine c)).
    repeat split. exact Hq.
Qed.

Lemma negative_price_rejected_witness :
  (∃ e, Service.Create Sample.store
          (mkCreate "Netflix" (-5) Sample.alice "01-2024" "") 3 300
        = (Sample.store, (None, Some (ValidationError "price" e))))
  ∧ (∃ e, Service.Update map_to_list Sample.store Sample.firstID
            (mkUpdate (Some "Hulu") (Some (-5)) (Some "")) 300
          = (Sample.store, Some (ValidationError "price" e)))
  ∧ (∃ st err,
       query st = Insert
       ∧ (PlainService.Create Sample.store
            (mkCreate "Netflix" (-5) Sample.alice "01-2024" "") 3 300).2
         = (None, Some err)
       ∧ AsValidation err = None).
Proof.
  destruct negative_price_rejected as (Hc & Hu & Hp). split; [|split].
  - apply Hc. reflexivity.
  - apply (Hu map_to_list Sample.store Sample.firstID _ 300 1 (-5));
      reflexivity.
  - destruct (Hp Sample.store (mkCreate "Netflix" (-5) Sample.alice "01-2024" "")
                3 300 _ ltac:(reflexivity) eq_refl)
      as (st & err & Hq & _ & _ & Hres & Hv).
    exists st, err. auto.
Defined.

(** C5 as it was stated fails for an update: the identifier is read
    before the price, so with an identifier that does not parse the
    validation error is the one on field "id". *)
Lemma negative_price_malformed_id :
  update_Price (mkUpdate None (Some (-5)) None) = Some (-5)
  ∧ -5 < 0
  ∧ (Service.Update map_to_list Sample.store "42"
                    (mkUpdate None (Some (-5)) None) 300).2
    = Some (Service.invalidUUID "id")
  ∧ ¬ isValidation
        (Service.Update map_to_list Sample.store "42"
                        (mkUpdate None (Some (-5)) None) 300).2 "price".
Proof.
  split; [reflexivity|]. split; [lia|]. split; [reflexivity|].
  intros [inner H]. discriminate H.
Qed.

(** At the sample: the negative price reaches the table, whose CHECK
    refuses it. *)
Example plain_negative_price_check :
  (PlainService.Create Sample.emptyStore
     (mkCreate "Netflix" (-5) Sample.alice "01-2024" "") 3 300).2
  = (None, Some (ErrWrap "failed to create subscription"
                         (ErrEngine "check_violation"))).
Proof. reflexivity. Qed.

(** C7. Whatever the request, an update sends nothing or one UPDATE
    statement, and every column named in its SET clauses is one of
    service_name, price, end_date, or the updated_at the repository
    adds. *)
Theorem update_columns_allowed rt db id req now :
  Repository.visitsAll rt →
  untouched db (Service.Update rt db id req now).1
  ∨ ∃ set i a,
      sentOne db (Service.Update rt db id req now).1 (mkStmt (UpdateSet set i) a)
      ∧ ∀ c, c ∈ setColumns (mkStmt (UpdateSet set i) a) →
             c ∈ allowList ∨ c = "updated_at".
Proof.
  intros Hrt. unfold Service.Update.
  destruct (GoUUID.Parse id) as [u|]; [|left; reflexivity].
  destruct (Service.buildUpdates req) as [m [err|]] eqn:Hm; [left; reflexivity|].
  case_bool_decide as Hsize; [left; reflexivity|].
  right. rewrite (repository_Update_run rt db u m now Hsize).
  set (entries := rt m). set (n := length entries).
  exists (zip entries.*1 (seq 1 n) ++ [("updated_at", S n)]), (S (S n)),
         (entries.*2 ++ [VTimestamp now] ++ [VUUID u]).
  split.
  - cbn [query args].
    destruct (run _ _ _ _ (table db)) as [[t' [k|rs|k]]|c];
      try destruct (k =? 0); reflexivity.
  - intros c Hc. unfold setColumns in Hc. cbn [query] in Hc.
    rewrite fmap_app, fst_zip in Hc
      by (rewrite length_seq, length_fmap; reflexivity).
    apply elem_of_app in Hc as [Hc|Hc].
    + left. apply list_elem_of_fmap in Hc as ([k v] & -> & Hkv).
      apply (visited_entry rt m k v Hrt) in Hkv.
      assert (Hkey := buildUpdates_keys req k v). rewrite Hm in Hkey.
      destruct (Hkey Hkv) as [->| [->| ->]]; unfold allowList; set_solver.
    + right. apply list_elem_of_singleton in Hc. exact Hc.
Qed.

Lemma visitsAll_map_to_list : Repository.visitsAll map_to_list.
Proof. intros m. reflexivity. Defined.

Lemma update_columns_allowed_witness :
  Repository.visitsAll map_to_list
  ∧ ∃ set i a,
      sentOne Sample.store
        (Service.Update map_to_list Sample.store Sample.firstID
           (mkUpdate (Some "Hulu") (Some 5) (Some "")) 300).1
        (mkStmt (UpdateSet set i) a)
      ∧ ∀ c, c ∈ setColumns (mkStmt (UpdateSet set i) a) →
             c ∈ allowList ∨ c = "updated_at".
Proof.
  split; [exact visitsAll_map_to_list|].
  destruct (update_columns_allowed map_to_list Sample.store Sample.firstID
              (mkUpdate (Some "Hulu") (Some 5) (Some "")) 300
              visitsAll_map_to_list) as [H|H].
  - exfalso. unfold untouched in H. apply (f_equal journal) in H.
    vm_compute in H. discriminate H.
  - exact H.
Defined.

(** ** Clearing the end date *)

Lemma bound_from_entry e (entries : list (string * Value)) asg c v :
  Forall2 (bound e) entries asg →
  (c, v) ∈ asg →
  ∃ k w, columnOf k = Some c ∧ (k, w) ∈ entries ∧ landed e c w = Ok v.
Proof.
  induction 1 as [|[k w] [c' v'] es bs [Hc Hv] _ IH]; intros Hin.
  - inversion Hin.
  - simpl in Hc, Hv. apply elem_of_cons in Hin as [Heq|Hin].
    + injection Heq as -> ->. exists k, w. split; [exact Hc|]. split; [left | exact Hv].
    + destruct (IH Hin) as (k' & w' & Hk' & Hin' & Hl). exists k', w'.
      split; [exact Hk'|]. split; [right; exact Hin' | exact Hl].
Qed.

Lemma entry_bound e (entries : list (string * Value)) asg k w :
  Forall2 (bound e) entries asg →
  (k, w) ∈ entries →
  ∃ c v, columnOf k = Some c ∧ landed e c w = Ok v ∧ (c, v) ∈ asg.
Proof.
  induction 1 as [|[k' w'] [c' v'] es bs [Hc Hv] _ IH]; intros Hin.
  - inversion Hin.
  - simpl in Hc, Hv. apply elem_of_cons in Hin as [Heq|Hin].
    + injection Heq as -> ->. exists c', v'. split; [exact Hc|]. split; [exact Hv | left].
    + destruct (IH Hin) as (c & v & Hk' & Hl & Hin'). exists c, v.
      split; [exact Hk'|]. split; [exact Hl | right; exact Hin'].
Qed.

(** NULL lands as NULL, and nothing else does. *)
Lemma landed_null e c v : landed e c v = Ok VNull ↔ v = VNull.
Proof.
  unfold landed, typed. split.
  - destruct v, c; simpl; try discriminate; try reflexivity;
      try (destruct (int4 n); discriminate);
      try (destruct (varchar 255 s); discriminate).
  - intros ->. destruct c; reflexivity.
Qed.

(** The assignments of an update never write the identifier. *)
Lemma update_keeps_ID rt req m asg e t :
  Repository.visitsAll rt →
  Service.buildUpdates req = (m, None) →
  Forall2 (bound e) (rt m) asg →
  ∀ v, (ColID, v) ∉ asg ++ [(ColUpdatedAt, VTimestamp t)].
Proof.
  intros Hrt Hm Hf v Hin. apply elem_of_app in Hin as [Hin|Hin].
  - destruct (bound_from_entry _ _ _ _ _ Hf Hin) as (k & w & Hk & Hkv & _).
    apply columnOf_id in Hk. subst k.
    apply (visited_entry rt m _ w Hrt) in Hkv.
    assert (Hkey := buildUpdates_keys req "id" w). rewrite Hm in Hkey.
    destruct (Hkey Hkv) as [H|[H|H]]; discriminate H.
  - apply list_elem_of_singleton in Hin. discriminate Hin.
Qed.

Lemma service_GetByID_found t js e id u r rest :
  GoUUID.Parse id = Some u →
  List.filter (hasID (Some u)) t = r :: rest →
  (Service.GetByID (mkDB t js e) id).2 = (Some r, None).
Proof.
  intros Hid Hf. unfold Service.GetByID, Repository.GetByID, QueryRow,
    QueryRows, send, run. rewrite Hid. simpl. rewrite Hf. reflexivity.
Qed.

(** C6. When the request carries the end date as the empty string, the
    update set maps end_date to NULL, and after an update that succeeds a
    fetch of the same identifier returns a subscription without end date.
    When the request leaves the end date out, the update set has no entry
    for end_date and every stored end date is what it was. *)
Theorem end_date_sentinel_clears rt db id req now :
  Repository.visitsAll rt →
  (update_EndDate req = Some "" →
     (∀ m, Service.buildUpdates req = (m, None) → m !! "end_date" = Some VNull)
     ∧ ∀ db', Service.Update rt db id req now = (db', None) →
              ∃ sub, (Service.GetByID db' id).2 = (Some sub, None)
                     ∧ EndDate sub = None)
  ∧ (update_EndDate req = None →
       (Service.buildUpdates req).1 !! "end_date" = None
       ∧ ∀ u, storedEndDate (Service.Update rt db id req now).1 u
              = storedEndDate db u).
Proof.
  intros Hrt. split.
  - intros He. split; [intros m; apply buildUpdates_end_null, He|].
    intros db' H. unfold Service.Update in H.
    destruct (GoUUID.Parse id) as [u|] eqn:Hid; [|discriminate].
    destruct (Service.buildUpdates req) as [m [err|]] eqn:Hm; [discriminate|].
    case_bool_decide as Hsize; [discriminate|].
    rewrite (repository_Update_run rt db u m now Hsize) in H.
    destruct (run _ _ _ _ (table db)) as [[t' ans]|c] eqn:Hrun;
      [|destruct (Is _ _); discriminate].
    apply run_update_statement in Hrun as (asg & Hf & Hrows & ->).
    destruct (_ =? 0) eqn:Hk; [discriminate|]. injection H as <-.
    assert (Hnull := buildUpdates_end_null req m He Hm).
    apply updateRows_each in Hrows.
    destruct (storedEndDate_cleared (table db) t' [] (engine db) u)
      as (sub & Hhead & Hsub & _).
    + eapply Forall2_impl; [exact Hrows|]. intros r r' Hr. simpl in Hr.
      destruct (bool_decide (ID r = u)) eqn:Hru.
      * split.
        -- apply (storeAll_ID _ _ _ Hr), (update_keeps_ID rt req m asg _ _ Hrt Hm Hf).
        -- intros _. apply (storeAll_EndDate_null _ _ _ Hr).
           ++ apply elem_of_app. left.
              apply (visited_entry rt m _ _ Hrt) in Hnull.
              destruct (entry_bound _ _ _ _ _ Hf Hnull) as (c & v & Hc & Hl & Hin).
              vm_compute in Hc. injection Hc as <-.
              destruct (landed_null (engine db) ColEndDate VNull) as [_ Hn].
              rewrite (Hn eq_refl) in Hl. injection Hl as <-. exact Hin.
           ++ intros v Hin. apply elem_of_app in Hin as [Hin|Hin].
              ** destruct (bound_from_entry _ _ _ _ _ Hf Hin) as (k & w & Hk' & Hkv & Hl).
                 apply columnOf_end_date in Hk'. subst k.
                 apply (visited_entry rt m _ w Hrt) in Hkv.
                 assert (w = VNull) as -> by congruence.
                 destruct (landed_null (engine db) ColEndDate VNull) as [_ Hn].
                 rewrite (Hn eq_refl) in Hl. congruence.
              ** apply list_elem_of_singleton in Hin. discriminate Hin.
      * subst r'. split; [reflexivity | simpl; rewrite Hru; discriminate].
    + intros Hnil. rewrite Hnil in Hk. discriminate Hk.
    + exists sub. split; [|exact Hsub].
      destruct (List.filter (hasID (Some u)) t') as [|r rest] eqn:Hf'; [discriminate|].
      injection Hhead as ->. apply (service_GetByID_found _ _ _ _ u _ rest Hid Hf').
  - intros He. split; [apply buildUpdates_end_absent, He|]. intros w.
    unfold Service.Update.
    destruct (GoUUID.Parse id) as [u|] eqn:Hid; [|reflexivity].
    destruct (Service.buildUpdates req) as [m [err|]] eqn:Hm; [reflexivity|].
    case_bool_decide as Hsize; [reflexivity|].
    rewrite (repository_Update_run rt db u m now Hsize).
    assert (Habs := buildUpdates_end_absent req He). rewrite Hm in Habs.
    destruct (run _ _ _ _ (table db)) as [[t' ans]|c] eqn:Hrun.
    + apply run_update_statement in Hrun as (asg & Hf & Hrows & ->).
      apply updateRows_each in Hrows.
      assert (Hkept : storedEndDate (mkDB t' (journal db) (engine db)) w
                      = storedEndDate db w).
      { destruct db as [t js eng]. apply storedEndDate_kept.
        eapply Forall2_impl; [exact Hrows|]. intros r r' Hr. simpl in *.
        destruct (bool_decide (ID r = u)); [|subst r'; split; reflexivity].
        split.
        - apply (storeAll_ID _ _ _ Hr), (update_keeps_ID rt req m asg _ _ Hrt Hm Hf).
        - apply (storeAll_EndDate_kept _ _ _ Hr). intros v Hin.
          apply elem_of_app in Hin as [Hin|Hin].
          + destruct (bound_from_entry _ _ _ _ _ Hf Hin) as (k & w' & Hk' & Hkv & _).
            apply columnOf_end_date in Hk'. subst k.
            apply (visited_entry rt m _ w' Hrt) in Hkv. simpl in Habs. congruence.
          + apply list_elem_of_singleton in Hin. discriminate Hin. }
      destruct (_ =? 0); exact Hkept.
    + destruct (Is _ _); reflexivity.
Qed.


Lemma end_date_sentinel_clears_witness :
  Repository.visitsAll map_to_list
  ∧ update_EndDate (mkUpdate None None (Some "")) = Some ""
  ∧ (∃ sub, (Service.GetByID
               (Service.Update map_to_list Sample.store Sample.firstID
                  (mkUpdate None None (Some "")) 300).1 Sample.firstID).2
            = (Some sub, None)
            ∧ EndDate sub = None)
  ∧ storedEndDate
      (Service.Update map_to_list Sample.store Sample.firstID
         (mkUpdate None (Some 5) None) 300).1 1
    = storedEndDate Sample.store 1.
Proof.
  split; [exact visitsAll_map_to_list|]. split; [reflexivity|]. split.
  - destruct (end_date_sentinel_clears map_to_list Sample.store Sample.firstID
                (mkUpdate None None (Some "")) 300 visitsAll_map_to_list)
      as [Hclear _].
    destruct (Hclear eq_refl) as [_ Hfetch]. apply Hfetch. reflexivity.
  - destruct (end_date_sentinel_clears map_to_list Sample.store Sample.firstID
                (mkUpdate None (Some 5) None) 300 visitsAll_map_to_list)
      as [_ Hkeep].
    destruct (Hkeep eq_refl) as [_ Hsame]. apply Hsame.
Defined.

(** The sample: the end date of A is cleared, and a price update leaves
    it alone. *)
Example end_date_sample :
  storedEndDate Sample.store 1 = Some (Some (mkDate 2024 3 1))
  ∧ storedEndDate
      (Service.Update map_to_list Sample.store Sample.firstID
         (mkUpdate None None (Some "")) 300).1 1 = Some None
  ∧ storedEndDate
      (Service.Update map_to_list Sample.store Sample.firstID
         (mkUpdate None (Some 5) None) 300).1 1 = Some (Some (mkDate 2024 3 1)).
Proof. repeat split; reflexivity. Qed.

(** The variant with plain errors fills the map in the same way. *)
Lemma plain_buildUpdates_keys req k v :
  (PlainService.buildUpdates req).1 !! k = Some v →
  k = "service_name" ∨ k = "price" ∨ k = "end_date".
Proof.
  unfold PlainService.buildUpdates, Service.serviceNameStep,
    PlainService.endDateStep.
  destruct (update_ServiceName req), (update_Price req) as [p|],
    (update_EndDate req) as [e|]; simpl;
    try case_bool_decide; simpl;
    try destruct (GoTime.Parse MonthYear e); simpl;
    intros Hk;
    repeat (rewrite lookup_insert in Hk; case_decide; [subst k; tauto|]);
    try (rewrite lookup_empty in Hk; discriminate); try discriminate.
Qed.

Lemma plain_end_date_sentinel req :
  (update_EndDate req = Some "" →
     ∃ m, PlainService.buildUpdates req = (m, None)
          ∧ m !! "end_date" = Some VNull)
  ∧ (update_EndDate req = None →
       (PlainService.buildUpdates req).1 !! "end_date" = None).
Proof.
  unfold PlainService.buildUpdates, Service.serviceNameStep,
    PlainService.endDateStep.
  split; intros ->.
  - eexists. split; [reflexivity | apply lookup_insert_eq].
  - destruct (update_ServiceName req), (update_Price req); simpl;
      repeat (rewrite lookup_insert_ne by discriminate); apply lookup_empty.
Qed.

Lemma plain_update_columns_allowed rt db id req now :
  Repository.visitsAll rt →
  untouched db (PlainService.Update rt db id req now).1
  ∨ ∃ set i a,
      sentOne db (PlainService.Update rt db id req now).1
              (mkStmt (UpdateSet set i) a)
      ∧ ∀ c, c ∈ set.*1 → c ∈ allowList ∨ c = "updated_at".
Proof.
  intros Hrt. unfold PlainService.Update.
  destruct (GoUUID.Parse id) as [u|]; [|left; reflexivity].
  destruct (PlainService.buildUpdates req) as [m [err|]] eqn:Hm; [left; reflexivity|].
  destruct (decide (size m = 0%nat)) as [Hsize|Hsize].
  { left. unfold Repository.Update. rewrite bool_decide_eq_true_2 by exact Hsize.
    reflexivity. }
  right. rewrite (repository_Update_run rt db u m now Hsize).
  set (entries := rt m). set (n := length entries).
  exists (zip entries.*1 (seq 1 n) ++ [("updated_at", S n)]), (S (S n)),
         (entries.*2 ++ [VTimestamp now] ++ [VUUID u]).
  split.
  - cbn [query args].
    destruct (run _ _ _ _ (table db)) as [[t' [k|rs|k]]|c];
      try destruct (k =? 0); reflexivity.
  - intros c Hc.
    rewrite fmap_app, fst_zip in Hc
      by (rewrite length_seq, length_fmap; reflexivity).
    apply elem_of_app in Hc as [Hc|Hc].
    + left. apply list_elem_of_fmap in Hc as ([k v] & -> & Hkv).
      apply (visited_entry rt m k v Hrt) in Hkv.
      assert (Hkey := plain_buildUpdates_keys req k v). rewrite Hm in Hkey.
      destruct (Hkey Hkv) as [->| [->| ->]]; unfold allowList; set_solver.
    + right. apply list_elem_of_singleton in Hc. exact Hc.
Qed.


(** * Creating a subscription that ends before it starts *)

Lemma ToSubscription_dates req newID userID startDate endDate :
  GoUUID.Parse (create_UserID req) = Some userID →
  GoTime.Parse MonthYear (create_StartDate req) = Some startDate →
  GoTime.Parse MonthYear (create_EndDate req) = Some endDate →
  ToSubscription req newID =
  (Some (mkSubscription newID (create_ServiceName req) (create_Price req)
                        userID startDate (Some endDate) zeroTime zeroTime), None).
Proof.
  intros Hu Hs He. unfold ToSubscription. rewrite Hu, Hs.
  case_bool_decide as Hne.
  - rewrite He. reflexivity.
  - rewrite Hne in He. discriminate He.
Qed.

(** The INSERT of a row whose end date is before its start date is
    refused: by the CHECK of the table, unless the price or the name
    does not fit its column and is refused before. *)
Lemma repository_Create_end_before_start db sub now endDate :
  0 ≤ Price sub →
  EndDate sub = Some endDate →
  Before endDate (StartDate sub) = true →
  ∃ a code,
    Repository.Create db sub now =
      (mkDB (table db) (journal db ++ [mkStmt Insert a]) (engine db),
       (withTimes sub now now,
        Some (ErrWrap "failed to create subscription" (ErrEngine code))))
    ∧ code =
        if int4 (Price sub) then
          match varchar 255 (ServiceName sub) with
          | Some _ => "check_violation"
          | None => "string_data_right_truncation"
          end
        else "numeric_value_out_of_range".
Proof.
  intros Hp He Hb.
  destruct (repository_Create_run db sub now) as ([q a] & Hq & ->).
  simpl in Hq. subst q. exists a.
  destruct (int4 (Price sub)); [|eexists; split; reflexivity].
  destruct (varchar 255 (ServiceName sub)); [|eexists; split; reflexivity].
  assert (Hc : checks (kept (engine db) (withTimes sub now now))
               = Fail "check_violation").
  { unfold checks, kept. simpl. rewrite He.
    replace (Price sub <? 0) with false by (symmetry; apply Z.ltb_ge; exact Hp).
    unfold GoTime.geb. rewrite Hb. reflexivity. }
  rewrite Hc. eexists; split; reflexivity.
Qed.




(** The variant with plain errors does the same, with one wrapper less. *)
Lemma plain_create_end_before_start db req newID now userID startDate endDate :
  0 ≤ create_Price req →
  GoUUID.Parse (create_UserID req) = Some userID →
  GoTime.Parse MonthYear (create_StartDate req) = Some startDate →
  GoTime.Parse MonthYear (create_EndDate req) = Some endDate →
  Before endDate startDate = true →
  ∃ code, (PlainService.Create db req newID now).2
          = (None, Some (ErrWrap "failed to create subscription"
                                 (ErrEngine code))).
Proof.
  intros Hp Hu Hs He Hb. unfold PlainService.Create.
  rewrite (ToSubscription_dates req newID _ _ _ Hu Hs He).
  edestruct (repository_Create_end_before_start db
               (mkSubscription newID (create_ServiceName req) (create_Price req)
                  userID startDate (Some endDate) zeroTime zeroTime)
               now endDate Hp eq_refl Hb) as (a & code & Ha & _).
  rewrite Ha. exists code. reflexivity.
Qed.

(** Beyond the width of INTEGER the engine refuses the price before it
    comes to the CHECK. *)
Example create_end_before_start_wide_price :
  (Service.Create Sample.store
     (mkCreate "Hulu" 2147483648 Sample.alice "03-2024" "01-2024") 3 300).2
  = (None, Some (ErrWrap "failed to create subscription"
                   (ErrWrap "failed to create subscription"
                      (ErrEngine "numeric_value_out_of_range")))).
Proof. vm_compute. reflexivity. Qed.


(** * Listing *)

Lemma param_after (a : list Value) v rest :
  param (a ++ v :: rest) (S (length a)) = Ok v.
Proof.
  unfold param. rewrite lookup_app_r by lia. rewrite Nat.sub_diag. reflexivity.
Qed.

Lemma param_after_next (a : list Value) v w rest :
  param (a ++ v :: w :: rest) (S (S (length a))) = Ok w.
Proof.
  unfold param. rewrite lookup_app_r by lia.
  replace (S (length a) - length a)%nat with 1%nat by lia. reflexivity.
Qed.

(** The WHERE clause that [List] builds binds, whatever follows its
    arguments, and selects the rows the filter describes; its pattern
    ends in [%], so that the engine refuses it on no value; the next
    placeholder is the one after its arguments. *)
Lemma listWhere_bound f :
  ∃ conds a,
    Repository.listWhere f = (conds, a, S (length a))
    ∧ ∀ extra, ∃ bs, bindWhere (a ++ extra) conds = Ok bs
                     ∧ (∀ r, forallb (holds r) bs = listed f r)
                     ∧ fallible bs = false.
Proof.
  exists (Repository.listWhere f).1.1, (Repository.listWhere f).1.2.
  destruct f as [[u|] [s|] [sd|] [ed|] l o]; unfold Repository.listWhere;
    simpl; (split; [reflexivity|]); intros extra; eexists;
    (split; [reflexivity|]);
    (split; [intros r; unfold listed, ownedBy; simpl;
             destruct (EndDate r); rewrite ?andb_true_r, ?andb_assoc; reflexivity
            |unfold fallible; simpl; rewrite ?orb_false_r;
             try apply wrapped_closed; reflexivity]).
Qed.

Lemma asCount_positive n : (0 <? n) = true → asCount (VInt n) = Ok (Some (Z.to_nat n)).
Proof.
  intros H. apply Z.ltb_lt in H. unfold asCount.
  replace (n <? 0) with false by (symmetry; apply Z.ltb_ge; lia). reflexivity.
Qed.

(** [List] sends one SELECT and leaves the table alone; it returns the
    selected rows, in the order of the engine and paged, appended one by
    one to the nil slice. *)
Lemma repository_List_run db f :
  ∃ st, isSelect (query st) = true ∧
  Repository.List db f =
  (mkDB (table db) (journal db ++ [st]) (engine db),
   (fold_left append
      (page f (orderByStartDateDesc (tieRank (engine db) (journal db ++ [st]))
                 (List.filter (listed f) (table db))))
      SliceNil, None)).
Proof.
  unfold Repository.List, page.
  destruct (listWhere_bound f) as (conds & a & -> & Hb).
  destruct (0 <? filter_Limit f) eqn:Hl, (0 <? filter_Offset f) eqn:Ho;
    eexists; (split; [|unfold QueryRows, send, run]).
  - shelve.
  - rewrite <- app_assoc.
    destruct (Hb ([VInt (filter_Limit f)] ++ [VInt (filter_Offset f)]))
      as (bs & -> & Hsel & Hfall).
    cbn [mbind Res_bind bindCount app].
    rewrite param_after, param_after_next. cbn [mbind Res_bind].
    rewrite (asCount_positive _ Hl), (asCount_positive _ Ho).
    cbn [mbind Res_bind]. rewrite (scanned_infallible _ _ _ _ _ Hfall).
    cbn [mbind Res_bind]. unfold selected.
    rewrite (List.filter_ext _ _ Hsel). reflexivity.
  - shelve.
  - destruct (Hb [VInt (filter_Limit f)]) as (bs & -> & Hsel & Hfall).
    cbn [mbind Res_bind bindCount].
    rewrite param_after. cbn [mbind Res_bind]. rewrite (asCount_positive _ Hl).
    cbn [mbind Res_bind]. rewrite (scanned_infallible _ _ _ _ _ Hfall).
    cbn [mbind Res_bind]. unfold selected.
    rewrite (List.filter_ext _ _ Hsel). reflexivity.
  - shelve.
  - destruct (Hb [VInt (filter_Offset f)]) as (bs & -> & Hsel & Hfall).
    cbn [mbind Res_bind bindCount].
    rewrite param_after. cbn [mbind Res_bind]. rewrite (asCount_positive _ Ho).
    cbn [mbind Res_bind]. rewrite (scanned_infallible _ _ _ _ _ Hfall).
    cbn [mbind Res_bind]. unfold selected.
    rewrite (List.filter_ext _ _ Hsel). reflexivity.
  - shelve.
  - destruct (Hb []) as (bs & Hbind & Hsel & Hfall). rewrite app_nil_r in Hbind.
    rewrite Hbind. cbn [mbind Res_bind bindCount].
    rewrite (scanned_infallible _ _ _ _ _ Hfall).
    cbn [mbind Res_bind]. unfold selected.
    rewrite (List.filter_ext _ _ Hsel). reflexivity.
  Unshelve. all: reflexivity.
Qed.

Lemma repository_List_result db f :
  (Repository.List db f).2 =
  (fold_left append
     (page f (orderByStartDateDesc (listRank db f)
                (List.filter (listed f) (table db))))
     SliceNil, None)
  ∧ table (Repository.List db f).1 = table db.
Proof.
  unfold listRank. destruct (repository_List_run db f) as (st & _ & ->).
  split; reflexivity.
Qed.

Lemma page_nil f : page f [] = [].
Proof.
  unfold page. destruct (0 <? filter_Offset f), (0 <? filter_Limit f);
    rewrite ?drop_nil, ?take_nil; reflexivity.
Qed.

(** With an accepted filter that selects no row, the service returns
    what the repository returns: the nil slice and no error. *)
Lemma service_List_nil db userID serviceName startDate endDate limit offset f :
  Service.buildFilter userID serviceName startDate endDate limit offset
  = (Some f, None) →
  List.filter (listed f) (table db) = [] →
  ∃ db', Service.List db userID serviceName startDate endDate limit offset
         = (db', (SliceNil, None))
         ∧ table db' = table db.
Proof.
  intros Hf Hnone. unfold Service.List. rewrite Hf.
  destruct (repository_List_result db f) as [Hres Htable].
  rewrite Hnone in Hres. simpl in Hres. rewrite page_nil in Hres. simpl in Hres.
  destruct (Repository.List db f) as [db' [subs err]]. simpl in Hres, Htable.
  injection Hres as -> ->. exists db'. split; [reflexivity | exact Htable].
Qed.



(** The handler puts an empty slice in the place of the nil one before
    it answers. *)
Lemma handler_ListSubscriptions_without_match db userID serviceName startDate
  endDate limit offset f :
  Service.buildFilter (Handler.pointerTo userID) (Handler.pointerTo serviceName)
                      (Handler.pointerTo startDate) (Handler.pointerTo endDate)
                      limit offset = (Some f, None) →
  List.filter (listed f) (table db) = [] →
  (Handler.ListSubscriptions db userID serviceName startDate endDate
                             limit offset).2
  = Handler.mkHTTP 200 (Handler.ListBody (SliceOf []) limit offset 0).
Proof.
  intros Hf Hnone. unfold Handler.ListSubscriptions.
  destruct (service_List_nil db _ _ _ _ limit offset f Hf Hnone) as (db' & -> & _).
  reflexivity.
Qed.

(** The variant with plain errors returns the nil slice as well. *)
Lemma plain_list_without_match db userID serviceName startDate endDate limit
  offset f :
  PlainService.buildFilter userID serviceName startDate endDate limit offset
  = (Some f, None) →
  List.filter (listed f) (table db) = [] →
  (PlainService.List db userID serviceName startDate endDate limit offset).2
  = (SliceNil, None).
Proof.
  intros Hf Hnone. unfold PlainService.List. rewrite Hf.
  destruct (repository_List_result db f) as [Hres _].
  rewrite Hnone in Hres. simpl in Hres. rewrite page_nil in Hres. simpl in Hres.
  destruct (Repository.List db f) as [db' [subs err]]. simpl in Hres.
  injection Hres as -> ->. reflexivity.
Qed.


(** * Further properties of the services and handlers *)


(** * The order of dates *)

Lemma compare_flip (a b : Date) : GoTime.compare b a = CompOpp (GoTime.compare a b).
Proof.
  unfold GoTime.compare.
  rewrite (Z.compare_antisym (year a)), (Z.compare_antisym (month a)),
    (Z.compare_antisym (day a)).
  destruct (year a ?= year b), (month a ?= month b), (day a ?= day b);
    reflexivity.
Qed.

Lemma Before_After (a b : Date) : Before a b = After b a.
Proof.
  unfold Before, After. rewrite (compare_flip a b).
  destruct (GoTime.compare a b); reflexivity.
Qed.

Lemma geb_notAfter (a b : Date) : GoTime.geb a b = true ↔ notAfter b a.
Proof.
  unfold GoTime.geb, notAfter. rewrite Before_After.
  destruct (After b a); simpl; split; congruence.
Qed.

Lemma leb_notAfter (a b : Date) : GoTime.leb a b = true ↔ notAfter a b.
Proof.
  unfold GoTime.leb, notAfter. destruct (After a b); simpl; split; congruence.
Qed.

(** [After] is the strict order of (year, month, day). *)
Lemma After_lex (a b : Date) :
  After a b = true ↔
  year b < year a
  ∨ (year a = year b ∧ (month b < month a
                        ∨ (month a = month b ∧ day b < day a))).
Proof.
  unfold After, GoTime.compare.
  destruct (Z.compare_spec (year a) (year b)) as [Hy|Hy|Hy],
    (Z.compare_spec (month a) (month b)) as [Hm|Hm|Hm],
    (Z.compare_spec (day a) (day b)) as [Hd|Hd|Hd]; split; intros Hab;
    try discriminate; try reflexivity; lia.
Qed.

Lemma notAfter_lex (a b : Date) :
  notAfter a b ↔
  year a < year b
  ∨ (year a = year b ∧ (month a < month b
                        ∨ (month a = month b ∧ day a ≤ day b))).
Proof.
  unfold notAfter. destruct (After a b) eqn:H.
  - apply After_lex in H. split; [discriminate | lia].
  - split; [intros _ | reflexivity].
    assert (Hn : ¬ (After a b = true)) by congruence.
    rewrite After_lex in Hn. lia.
Qed.

Lemma notAfter_refl (a : Date) : notAfter a a.
Proof. apply notAfter_lex. lia. Qed.

Lemma notAfter_trans (a b c : Date) : notAfter a b → notAfter b c → notAfter a c.
Proof. rewrite !notAfter_lex. lia. Qed.

Lemma notAfter_total (a b : Date) : notAfter a b ∨ notAfter b a.
Proof. rewrite !notAfter_lex. lia. Qed.

Lemma After_notAfter (a b : Date) : After a b = true → notAfter b a.
Proof. rewrite After_lex, notAfter_lex. lia. Qed.


(** * Creating *)

Lemma checks_checked r : checks r = Ok r ↔ checked r.
Proof.
  unfold checks, checked. destruct (Z.ltb_spec (Price r) 0).
  - split; [discriminate | lia].
  - destruct (EndDate r) as [e|].
    + destruct (GoTime.geb e (StartDate r)) eqn:Hg.
      * apply geb_notAfter in Hg. tauto.
      * split; [discriminate|]. intros [_ Hn]. apply geb_notAfter in Hn. congruence.
    + tauto.
Qed.

Lemma ToSubscription_result req newID sub :
  ToSubscription req newID = (Some sub, None) →
  ID sub = newID ∧ ServiceName sub = create_ServiceName req
  ∧ Price sub = create_Price req
  ∧ GoUUID.Parse (create_UserID req) = Some (UserID sub)
  ∧ GoTime.Parse MonthYear (create_StartDate req) = Some (StartDate sub)
  ∧ (if bool_decide (create_EndDate req = "") then EndDate sub = None
     else GoTime.Parse MonthYear (create_EndDate req) = EndDate sub
          ∧ EndDate sub ≠ None).
Proof.
  unfold ToSubscription.
  destruct (GoUUID.Parse (create_UserID req)) as [user|]; [|discriminate].
  destruct (GoTime.Parse MonthYear (create_StartDate req)) as [sd|]; [|discriminate].
  case_bool_decide as Hne.
  - destruct (GoTime.Parse MonthYear (create_EndDate req)) as [ed|] eqn:He;
      [|discriminate].
    intros H. injection H as <-. simpl.
    rewrite bool_decide_eq_false_2 by exact Hne. repeat split. discriminate.
  - intros H. injection H as <-. simpl.
    rewrite bool_decide_eq_true_2 by exact Hne. repeat split.
Qed.

Lemma service_GetByID_stored t js e id u r :
  GoUUID.Parse id = Some u →
  head (List.filter (hasID (Some u)) t) = Some r →
  (Service.GetByID (mkDB t js e) id).2 = (Some r, None).
Proof.
  intros Hid Hh.
  destruct (List.filter (hasID (Some u)) t) as [|x rest] eqn:Hf; [discriminate|].
  injection Hh as ->. apply (service_GetByID_found _ _ _ _ u _ rest Hid Hf).
Qed.

Lemma filter_hasID_fresh u (t : list Subscription) :
  u ∉ map ID t → List.filter (hasID (Some u)) t = [].
Proof.
  induction t as [|r t IH]; intros Hu; [reflexivity|]. simpl in *.
  rewrite bool_decide_eq_false_2.
  - apply IH. intros Hin. apply Hu. right. exact Hin.
  - intros Heq. apply Hu. rewrite Heq. left.
Qed.

(** ** The widths of the columns *)

(** A timestamp is kept as a whole number of microseconds, at most half
    a microsecond from the one that was sent. *)
Lemma micros_near e t :
  micros e t mod 1000 = 0 ∧ - 500 ≤ micros e t - t ≤ 500.
Proof.
  unfold micros.
  pose proof (Z.div_mod t 1000 ltac:(lia)) as Hdm.
  pose proof (Z.mod_pos_bound t 1000 ltac:(lia)) as Hb.
  assert (Hm : ∀ q, (1000 * q) mod 1000 = 0)
    by (intros q; rewrite Z.mul_comm; apply Z.mod_mul; lia).
  destruct (Z.ltb_spec (t mod 1000) 500); [split; [apply Hm | lia]|].
  destruct (Z.ltb_spec 500 (t mod 1000)); [split; [apply Hm | lia]|].
  destruct (tieUp e t); (split; [apply Hm | lia]).
Qed.

Lemma micros_whole e t : t mod 1000 = 0 → micros e t = t.
Proof.
  intros H. unfold micros. rewrite H. simpl.
  pose proof (Z.div_mod t 1000 ltac:(lia)). lia.
Qed.

Lemma firstChars_all n cs :
  (length (List.filter (λ c, negb (isCont c)) cs) ≤ n)%nat →
  firstChars n cs = cs.
Proof.
  revert n. induction cs as [|c cs IH]; intros n Hn; simpl in *; [reflexivity|].
  destruct (isCont c); simpl in Hn.
  - f_equal. apply IH, Hn.
  - destruct n as [|n]; [lia|]. f_equal. apply IH. lia.
Qed.

(** A text of at most 255 characters is kept as it is. *)
Lemma varchar_short s : (charLength s ≤ 255)%nat → varchar 255 s = Some s.
Proof.
  intros H. unfold varchar, charLength in *. rewrite (firstChars_all _ _ H).
  rewrite drop_all. simpl. unfold chars.
  rewrite string_of_list_ascii_of_string. reflexivity.
Qed.

Lemma cut_short s : (charLength s ≤ 255)%nat → cut s = s.
Proof. intros H. unfold cut. rewrite (varchar_short _ H). reflexivity. Qed.

Lemma fitsName_short s : (charLength s ≤ 255)%nat → fitsName s.
Proof. intros H. exists s. apply varchar_short, H. Qed.


Lemma int4_fitsPrice n : int4 n = true → fitsPrice n.
Proof.
  unfold fitsPrice, int4. intros H. apply andb_true_iff in H.
  destruct H as [_ H]. apply Z.ltb_lt in H. exact H.
Qed.

(** X1. A create call that succeeds has appended exactly one row to the
    table: the returned subscription as the table keeps it, with the
    name cut to 255 characters (a name of at most 255 characters is kept
    as it is) and the two timestamps in whole microseconds, at most half
    a microsecond from the time of the call, which is what the returned
    subscription carries.  The row has the new identifier, which was not
    stored before, and passes the two CHECKs; price and name fit their
    columns; and a fetch by a string that parses to the new identifier
    returns the row. *)
Theorem create_then_get db req newID now db' sub :
  Service.Create db req newID now = (db', (Some sub, None)) →
  let row := kept (engine db) sub in
  table db' = table db ++ [row]
  ∧ ID sub = newID ∧ CreatedAt sub = now ∧ UpdatedAt sub = now
  ∧ checked row ∧ fitsPrice (Price sub) ∧ fitsName (ServiceName sub)
  ∧ ((charLength (ServiceName sub) ≤ 255)%nat → ServiceName row = ServiceName sub)
  ∧ CreatedAt row = UpdatedAt row
  ∧ CreatedAt row mod 1000 = 0 ∧ - 500 ≤ CreatedAt row - now ≤ 500
  ∧ (newID ∉ map ID (table db))
  ∧ ∀ id, GoUUID.Parse id = Some newID →
          (Service.GetByID db' id).2 = (Some row, None).
Proof.
  unfold Service.Create. destruct (create_Price req <? 0); [discriminate|].
  destruct (ToSubscription req newID) as [[s|] [e|]] eqn:Hto; try discriminate.
  destruct (ToSubscription_result _ _ _ Hto) as (Hid & _).
  destruct (repository_Create_run db s now) as (st & _ & ->).
  destruct (int4 (Price s)) eqn:Hint; [|discriminate].
  destruct (varchar 255 (ServiceName s)) as [name'|] eqn:Hname; [|discriminate].
  destruct (checks_cases (kept (engine db) (withTimes s now now))) as [Hc | Hc];
    rewrite Hc; [|discriminate].
  case_bool_decide as Hfresh; [discriminate|].
  intros H. injection H as <- <-. cbv zeta. cbn [table].
  split; [reflexivity|]. split; [exact Hid|]. split; [reflexivity|].
  split; [reflexivity|]. split; [apply checks_checked, Hc|].
  split; [apply int4_fitsPrice, Hint|]. split; [exists name'; exact Hname|].
  split; [intros Hshort; simpl; apply cut_short, Hshort|].
  split; [reflexivity|].
  split; [apply micros_near|]. split; [apply micros_near|].
  rewrite Hid in Hfresh. split; [exact Hfresh|].
  intros id Hparse. apply (service_GetByID_stored _ _ _ _ newID _ Hparse).
  rewrite List.filter_app, (filter_hasID_fresh _ _ Hfresh). simpl.
  rewrite Hid, bool_decide_eq_true_2 by reflexivity. reflexivity.
Qed.

Lemma create_then_get_witness :
  let sub := mkSubscription 9 "Hulu" 8 170 (mkDate 2024 3 1) None 1234567 1234567 in
  let row := mkSubscription 9 "Hulu" 8 170 (mkDate 2024 3 1) None 1235000 1235000 in
  let db' := (Service.Create Sample.store
                (mkCreate "Hulu" 8 Sample.alice "03-2024" "") 9 1234567).1 in
  Service.Create Sample.store
    (mkCreate "Hulu" 8 Sample.alice "03-2024" "") 9 1234567
  = (db', (Some sub, None))
  ∧ table db' = table Sample.store ++ [row]
  ∧ (Service.GetByID db' Sample.missingID).2 = (Some row, None).
Proof.
  intros sub row db'.
  assert (Hrun : Service.Create Sample.store
                   (mkCreate "Hulu" 8 Sample.alice "03-2024" "") 9 1234567
                 = (db', (Some sub, None))) by (vm_compute; reflexivity).
  split; [exact Hrun|].
  destruct (create_then_get _ _ _ _ _ _ Hrun)
    as (Ht & _ & _ & _ & _ & _ & _ & _ & _ & _ & _ & _ & Hget).
  split; [exact Ht | apply Hget; vm_compute; reflexivity].
Defined.



(** X3. A create call that returns an error has stored nothing: the
    table is the one before the call, and the call returns no
    subscription. *)
Theorem create_failure_stores_nothing db req newID now db' sub err :
  Service.Create db req newID now = (db', (sub, Some err)) →
  table db' = table db ∧ sub = None.
Proof.
  unfold Service.Create. destruct (create_Price req <? 0).
  { intros H. injection H as <- <- _. split; reflexivity. }
  destruct (ToSubscription req newID) as [[s|] [e|]];
    try (intros H; injection H as <- <- _; split; reflexivity).
  destruct (repository_Create_run db s now) as (st & _ & ->).
  destruct (int4 (Price s));
    [|intros H; injection H as <- <- _; split; reflexivity].
  destruct (varchar 255 (ServiceName s));
    [|intros H; injection H as <- <- _; split; reflexivity].
  destruct (checks (kept (engine db) (withTimes s now now))) as [r|c].
  - case_bool_decide; intros Hrun; [|discriminate].
    injection Hrun as <- <- _. split; reflexivity.
  - intros H. injection H as <- <- _. split; reflexivity.
Qed.

Lemma create_failure_stores_nothing_witness :
  let ran := Service.Create Sample.store
               (mkCreate "Hulu" 8 Sample.alice "01-2024" "") 1 300 in
  ran.2 = (None, Some (ErrWrap "failed to create subscription"
                         (ErrWrap "failed to create subscription"
                            (ErrEngine "unique_violation"))))
  ∧ table ran.1 = table Sample.store.
Proof.
  intros ran.
  assert (Hrun : ran = (ran.1, (None, Some (ErrWrap "failed to create subscription"
                         (ErrWrap "failed to create subscription"
                            (ErrEngine "unique_violation"))))))
    by (vm_compute; reflexivity).
  split; [rewrite Hrun; reflexivity|].
  apply (create_failure_stores_nothing _ _ _ _ _ _ _ Hrun).
Defined.


(** * Updating: the whole row *)

Lemma columnOf_name k c : columnOf k = Some c ↔ k = columnName c.
Proof.
  split.
  - unfold columnOf. repeat case_bool_decide; intros Hsome; try discriminate;
      injection Hsome as <-; assumption.
  - intros ->. destruct c; reflexivity.
Qed.

Lemma store_cell r c v r' :
  store r c v = Ok r' →
  cell c r' = v ∧ ∀ c', c' ≠ c → cell c' r' = cell c' r.
Proof.
  destruct c, v; simpl; intros H; try discriminate; injection H as <-;
    (split; [reflexivity|]); intros c' Hc'; destruct c'; try reflexivity;
    congruence.
Qed.

Lemma storeAll_cell_kept asg r r' c :
  storeAll asg r = Ok r' → (∀ v, (c, v) ∉ asg) → cell c r' = cell c r.
Proof.
  revert r. induction asg as [|[c0 v0] asg IH]; intros r H Hc; simpl in H.
  - congruence.
  - bind_inv H. rewrite (IH _ H).
    + apply (store_cell _ _ _ _ E). intros ->. apply (Hc v0). left.
    + intros w Hw. apply (Hc w). right. exact Hw.
Qed.

Lemma storeAll_cell_set asg r r' c v :
  storeAll asg r = Ok r' →
  (c, v) ∈ asg → (∀ w, (c, w) ∈ asg → w = v) → cell c r' = v.
Proof.
  revert r. induction asg as [|[c0 v0] asg IH]; intros r H Hin Hall; simpl in H.
  - inversion Hin.
  - bind_inv H.
    destruct (decide ((c, v) ∈ asg)) as [Hlater|Hlast].
    + apply (IH _ H Hlater). intros w Hw. apply Hall. right. exact Hw.
    + apply elem_of_cons in Hin as [Heq|Hin]; [|contradiction].
      injection Heq as <- <-.
      rewrite (storeAll_cell_kept _ _ _ c H).
      * apply (store_cell _ _ _ _ E).
      * intros w Hw. rewrite (Hall w) in Hw by (right; exact Hw). contradiction.
Qed.

(** A row is its eight cells. *)
Lemma cell_ext r1 r2 : (∀ c, cell c r1 = cell c r2) → r1 = r2.
Proof.
  intros H. destruct r1 as [i1 n1 p1 u1 s1 e1 c1 t1], r2 as [i2 n2 p2 u2 s2 e2 c2 t2].
  pose proof (H ColID) as Hi. pose proof (H ColServiceName) as Hn.
  pose proof (H ColPrice) as Hp. pose proof (H ColUserID) as Hu.
  pose proof (H ColStartDate) as Hs. pose proof (H ColEndDate) as He.
  pose proof (H ColCreatedAt) as Hc. pose proof (H ColUpdatedAt) as Ht.
  simpl in *. destruct e1, e2; try discriminate; congruence.
Qed.

(** What the update set holds for each of its three keys. *)
Lemma buildUpdates_lookup req m :
  Service.buildUpdates req = (m, None) →
  m !! "service_name" = VString <$> update_ServiceName req
  ∧ m !! "price" = VInt <$> update_Price req
  ∧ m !! "end_date" =
      match update_EndDate req with
      | None => None
      | Some e => if bool_decide (e = "") then Some VNull
                  else VDate <$> GoTime.Parse YearMonthDay e
      end
  ∧ match update_EndDate req with
    | Some e => e = "" ∨ is_Some (GoTime.Parse YearMonthDay e)
    | None => True
    end.
Proof.
  unfold Service.buildUpdates, Service.serviceNameStep, Service.priceStep,
    Service.endDateStep.
  destruct (update_ServiceName req) as [s|], (update_Price req) as [p|],
    (update_EndDate req) as [e|]; simpl;
    try destruct (p <? 0); simpl; try discriminate;
    try case_bool_decide; simpl;
    try destruct (GoTime.Parse YearMonthDay e) as [d|]; simpl;
    intros Hm; try discriminate; injection Hm as <-;
    repeat split; eauto;
    repeat (rewrite lookup_insert; case_decide; try discriminate);
    try reflexivity; try apply lookup_empty.
Qed.

(** Every entry of the update set can be bound to its column. *)
Lemma buildUpdates_fits req m k v :
  Service.buildUpdates req = (m, None) → m !! k = Some v →
  ∃ c, columnOf k = Some c ∧ fits c v = true.
Proof.
  intros Hm Hk. destruct (buildUpdates_lookup req m Hm) as (Hs & Hp & He & _).
  assert (Hkey := buildUpdates_keys req k v). rewrite Hm in Hkey.
  destruct (Hkey Hk) as [->| [->| ->]].
  - rewrite Hs in Hk. destruct (update_ServiceName req); [|discriminate].
    injection Hk as <-. exists ColServiceName. split; reflexivity.
  - rewrite Hp in Hk. destruct (update_Price req); [|discriminate].
    injection Hk as <-. exists ColPrice. split; reflexivity.
  - rewrite He in Hk. destruct (update_EndDate req) as [e|]; [|discriminate].
    exists ColEndDate. split; [reflexivity|]. case_bool_decide.
    + injection Hk as <-. reflexivity.
    + destruct (GoTime.Parse YearMonthDay e); [|discriminate].
      injection Hk as <-. reflexivity.
Qed.

(** The assignments of the statement are the update set, column by
    column, each value as the table gets it. *)
Lemma assignment_of_entry rt (m : gmap string Value) e asg c v :
  Repository.visitsAll rt →
  Forall2 (bound e) (rt m) asg →
  (c, v) ∈ asg ↔ ∃ w, m !! columnName c = Some w ∧ landed e c w = Ok v.
Proof.
  intros Hrt Hf. split.
  - intros Hin. destruct (bound_from_entry _ _ _ _ _ Hf Hin) as (k & w & Hk & Hkv & Hl).
    apply columnOf_name in Hk. subst k. exists w.
    split; [apply (visited_entry rt m _ w Hrt), Hkv | exact Hl].
  - intros (w & Hm & Hl). apply (visited_entry rt m _ w Hrt) in Hm.
    destruct (entry_bound _ _ _ _ _ Hf Hm) as (c' & v' & Hc' & Hl' & Hin).
    apply columnOf_name in Hc'.
    assert (c' = c) as -> by (destruct c, c'; try discriminate Hc'; reflexivity).
    rewrite Hl in Hl'. injection Hl' as <-. exact Hin.
Qed.

(** The row that the statement of an accepted request leaves. *)
Lemma storeAll_updated rt req m e asg now r r' :
  Repository.visitsAll rt →
  Service.buildUpdates req = (m, None) →
  Forall2 (bound e) (rt m) asg →
  storeAll (asg ++ [(ColUpdatedAt, VTimestamp (micros e now))]) r = Ok r' →
  r' = updated e req now r.
Proof.
  intros Hrt Hm Hf Hr.
  destruct (buildUpdates_lookup req m Hm) as (Hs & Hp & He & Hparse).
  assert (Hin : ∀ c v,
             (c, v) ∈ asg ++ [(ColUpdatedAt, VTimestamp (micros e now))] ↔
             (∃ w, m !! columnName c = Some w ∧ landed e c w = Ok v)
             ∨ (c = ColUpdatedAt ∧ v = VTimestamp (micros e now))).
  { intros c v. rewrite elem_of_app, list_elem_of_singleton,
      (assignment_of_entry rt m e asg c v Hrt Hf).
    split; (intros [H|H]; [left; exact H | right]).
    - injection H as -> ->. split; reflexivity.
    - destruct H as [-> ->]. reflexivity. }
  assert (Hother : ∀ k, k ≠ "service_name" → k ≠ "price" → k ≠ "end_date" →
                        m !! k = None).
  { intros k H1 H2 H3. destruct (m !! k) as [v|] eqn:Hk; [|reflexivity].
    assert (Hkey := buildUpdates_keys req k v). rewrite Hm in Hkey.
    destruct (Hkey Hk) as [?|[?|?]]; contradiction. }
  assert (Hkept : ∀ c, m !! columnName c = None → c ≠ ColUpdatedAt →
                       cell c r' = cell c r).
  { intros c Hc Hne. apply (storeAll_cell_kept _ _ _ c Hr). intros v Hv.
    apply Hin in Hv as [(w & Hv & _) | [Hv _]]; [congruence | contradiction]. }
  assert (Hset : ∀ c w, m !! columnName c = Some w → c ≠ ColUpdatedAt →
                        landed e c w = Ok (cell c r')).
  { intros c w Hc Hne. apply (visited_entry rt m _ w Hrt) in Hc as Hvis.
    destruct (entry_bound _ _ _ _ _ Hf Hvis) as (c' & v & Hc' & Hl & Hv).
    apply columnOf_name in Hc'.
    assert (c' = c) as -> by (destruct c, c'; try discriminate Hc'; reflexivity).
    rewrite Hl. f_equal. symmetry. apply (storeAll_cell_set _ _ _ c v Hr).
    - apply elem_of_app. left. exact Hv.
    - intros x Hx. apply Hin in Hx as [(w' & Hw' & Hl') | [Hx _]];
        [congruence | contradiction]. }
  apply cell_ext. intros c. destruct c.
  - apply Hkept; [apply Hother|]; discriminate.
  - destruct (update_ServiceName req) as [s|] eqn:Hreq.
    + pose proof (Hset ColServiceName (VString s) Hs ltac:(discriminate)) as Hl.
      unfold landed, typed in Hl. simpl in Hl. simpl. rewrite Hreq. unfold cut.
      destruct (varchar 255 s); [|discriminate]. injection Hl as <-. reflexivity.
    + rewrite Hkept; [|exact Hs|discriminate]. simpl. rewrite Hreq. reflexivity.
  - destruct (update_Price req) as [p|] eqn:Hreq.
    + pose proof (Hset ColPrice (VInt p) Hp ltac:(discriminate)) as Hl.
      unfold landed, typed in Hl. simpl in Hl. simpl. rewrite Hreq.
      destruct (int4 p); [|discriminate]. injection Hl as <-. reflexivity.
    + rewrite Hkept; [|exact Hp|discriminate]. simpl. rewrite Hreq. reflexivity.
  - apply Hkept; [apply Hother|]; discriminate.
  - apply Hkept; [apply Hother|]; discriminate.
  - destruct (update_EndDate req) as [en|] eqn:Hreq.
    + case_bool_decide as Hempty.
      * pose proof (Hset ColEndDate VNull He ltac:(discriminate)) as Hl.
        unfold landed, typed in Hl. simpl in Hl. simpl. injection Hl as <-.
        rewrite Hreq, bool_decide_eq_true_2 by exact Hempty. reflexivity.
      * destruct Hparse as [?|[d Hd]]; [contradiction|]. rewrite Hd in He.
        pose proof (Hset ColEndDate (VDate d) He ltac:(discriminate)) as Hl.
        unfold landed, typed in Hl. simpl in Hl. simpl. injection Hl as <-.
        rewrite Hreq, bool_decide_eq_false_2, Hd by exact Hempty.
        reflexivity.
    + rewrite Hkept; [|exact He|discriminate]. simpl. rewrite Hreq. reflexivity.
  - apply Hkept; [apply Hother|]; discriminate.
  - rewrite (storeAll_cell_set _ _ _ ColUpdatedAt (VTimestamp (micros e now)) Hr).
    + reflexivity.
    + apply Hin. right. split; reflexivity.
    + intros w Hw. apply Hin in Hw as [(w' & Hw & _) | [_ Hw]]; [|exact Hw].
      rewrite Hother in Hw by discriminate. discriminate Hw.
Qed.

Lemma Forall2_map_eq {A} (f : A → A) (t t' : list A) :
  Forall2 (λ r r', r' = f r) t t' → t' = map f t.
Proof. induction 1 as [|r r' t t' -> _ IH]; simpl; congruence. Qed.

(** X4. An update that succeeds has rewritten exactly the subscription
    of the given identifier: the fields the request carries are replaced
    (the name as VARCHAR(255) keeps it, an empty end date clears the end
    date), updated_at is the time of the call in whole microseconds, at
    most half a microsecond from it; every other field and every other
    subscription is what it was, and a fetch of the identifier returns
    the rewritten subscription. *)
Theorem update_applies_request rt db id req now u db' :
  Repository.visitsAll rt →
  GoUUID.Parse id = Some u →
  Service.Update rt db id req now = (db', None) →
  let after := updated (engine db) req now in
  table db' = map (λ r, if hasID (Some u) r then after r else r) (table db)
  ∧ (∃ r, stored db u = Some r ∧ stored db' u = Some (after r)
          ∧ (Service.GetByID db' id).2 = (Some (after r), None))
  ∧ (∀ r, UpdatedAt (after r) mod 1000 = 0
          ∧ - 500 ≤ UpdatedAt (after r) - now ≤ 500)
  ∧ (∀ r s, update_ServiceName req = Some s → (charLength s ≤ 255)%nat →
            ServiceName (after r) = s).
Proof.
  intros Hrt Hid H after. unfold Service.Update in H. rewrite Hid in H.
  destruct (Service.buildUpdates req) as [m [err|]] eqn:Hm; [discriminate|].
  case_bool_decide as Hsize; [discriminate|].
  rewrite (repository_Update_run rt db u m now Hsize) in H.
  destruct (run _ _ _ _ (table db)) as [[t' ans]|c] eqn:Hrun;
    [|destruct (Is _ _); discriminate].
  apply run_update_statement in Hrun as (asg & Hf & Hrows & ->).
  destruct (_ =? 0) eqn:Hk; [discriminate|]. injection H as <-.
  apply updateRows_each in Hrows.
  assert (Ht : t' = map (λ r, if hasID (Some u) r then after r else r)
                        (table db)).
  { apply Forall2_map_eq. eapply Forall2_impl; [exact Hrows|].
    intros r r' Hr. simpl in Hr. simpl.
    destruct (bool_decide (ID r = u)); [|exact Hr].
    apply (storeAll_updated rt req m (engine db) asg now r r' Hrt Hm Hf Hr). }
  split; [exact Ht|]. split; [|split].
  - unfold stored. simpl. rewrite Ht.
    destruct (List.filter (hasID (Some u)) (table db)) as [|r rest] eqn:Hfil;
      [discriminate Hk|].
    exists r. split; [reflexivity|].
    match goal with
    | |- ?P ∧ _ => assert (Hst : P); [|split; [exact Hst|]]
    end.
    2:{ rewrite <- Ht. apply (service_GetByID_stored _ _ _ id u _ Hid).
        rewrite Ht. exact Hst. }
    clear - Hfil. revert Hfil. induction (table db) as [|x t IH]; [discriminate|].
    cbn [List.filter map]. destruct (hasID (Some u) x) eqn:Hx.
    + intros Heq. injection Heq as -> _. cbn [List.filter].
      change (hasID (Some u) (after r)) with (hasID (Some u) r).
      rewrite Hx. reflexivity.
    + intros Heq. cbn [List.filter]. rewrite Hx. apply IH, Heq.
  - intros r. subst after. simpl. apply micros_near.
  - intros r s Hs Hshort. subst after. simpl. rewrite Hs. apply cut_short, Hshort.
Qed.

Lemma update_applies_request_witness :
  let db' := (Service.Update map_to_list Sample.store Sample.firstID
                (mkUpdate (Some "Hulu") None (Some "2025-01-31")) 1234567).1 in
  Repository.visitsAll map_to_list
  ∧ table db' =
      [mkSubscription 1 "Hulu" 10 170 (mkDate 2024 1 1)
                      (Some (mkDate 2025 1 31)) 100000 1235000; Sample.subB].
Proof.
  intros db'. split; [exact visitsAll_map_to_list|].
  assert (Hrun : Service.Update map_to_list Sample.store Sample.firstID
                   (mkUpdate (Some "Hulu") None (Some "2025-01-31")) 1234567
                 = (db', None)) by (vm_compute; reflexivity).
  destruct (update_applies_request map_to_list Sample.store Sample.firstID _
              1234567 1 db' visitsAll_map_to_list eq_refl Hrun) as [Ht _].
  rewrite Ht. vm_compute. reflexivity.
Defined.

(** ** Updating an identifier that is not stored *)













(** Beyond the width of INTEGER the price of such an update is refused
    when it is bound, and the error is the one of the storage. *)
Example update_missing_id_wide_price :
  (Service.Update map_to_list Sample.store Sample.missingID
                  (mkUpdate None (Some 2147483648) None) 300).2
  = Some (ErrWrap "failed to update subscription"
            (ErrWrap "failed to update subscription"
               (ErrEngine "numeric_value_out_of_range"))).
Proof. vm_compute. reflexivity. Qed.


(** * Deleting *)

Lemma service_Delete_run db id u :
  GoUUID.Parse id = Some u →
  Service.Delete db id =
  (mkDB (List.filter (λ r, negb (hasID (Some u) r)) (table db))
        (journal db ++ [mkStmt DeleteByID [VUUID u]]) (engine db),
   if Z.of_nat (length (List.filter (hasID (Some u)) (table db))) =? 0
   then Some (NotFoundError id) else None).
Proof.
  intros Hid. unfold Service.Delete, Repository.Delete, Exec, send, run.
  rewrite Hid. simpl. destruct (_ =? 0); reflexivity.
Qed.

Lemma filter_out_other u v (t : list Subscription) :
  v ≠ u →
  List.filter (hasID (Some v)) (List.filter (λ r, negb (hasID (Some u) r)) t)
  = List.filter (hasID (Some v)) t.
Proof.
  intros Hne. induction t as [|r t IH]; [reflexivity|]. cbn [List.filter].
  destruct (hasID (Some u) r) eqn:Hu; cbn [negb List.filter].
  - destruct (hasID (Some v) r) eqn:Hv; [|exact IH].
    simpl in Hu, Hv. apply bool_decide_eq_true in Hu, Hv. congruence.
  - destruct (hasID (Some v) r); [f_equal|]; exact IH.
Qed.

Lemma filter_out_same u (t : list Subscription) :
  List.filter (hasID (Some u)) (List.filter (λ r, negb (hasID (Some u) r)) t) = [].
Proof.
  induction t as [|r t IH]; [reflexivity|]. cbn [List.filter].
  destruct (hasID (Some u) r) eqn:Hu; cbn [negb List.filter]; [exact IH|].
  rewrite Hu. exact IH.
Qed.

Lemma filter_out_none u (t : list Subscription) :
  List.filter (hasID (Some u)) t = [] →
  List.filter (λ r, negb (hasID (Some u) r)) t = t.
Proof.
  induction t as [|r t IH]; [reflexivity|]. cbn [List.filter].
  destruct (hasID (Some u) r); [discriminate|]. intros H. cbn [negb].
  rewrite (IH H). reflexivity.
Qed.

(** X6. Deleting a stored subscription succeeds and removes exactly the
    rows of that identifier: afterwards nothing is stored under it, a
    fetch of it reports NotFoundError, and what is stored under every
    other identifier is what it was. *)
Theorem delete_then_get db id u r :
  GoUUID.Parse id = Some u →
  stored db u = Some r →
  (Service.Delete db id).2 = None
  ∧ table (Service.Delete db id).1
    = List.filter (λ x, negb (hasID (Some u) x)) (table db)
  ∧ stored (Service.Delete db id).1 u = None
  ∧ (∀ v, v ≠ u → stored (Service.Delete db id).1 v = stored db v)
  ∧ (Service.GetByID (Service.Delete db id).1 id).2
    = (None, Some (NotFoundError id)).
Proof.
  intros Hid Hr. rewrite (service_Delete_run db id u Hid). unfold stored in *.
  cbn [fst snd table].
  destruct (List.filter (hasID (Some u)) (table db)) as [|x rest] eqn:Hf;
    [discriminate|].
  split; [reflexivity|]. split; [reflexivity|].
  split; [rewrite filter_out_same; reflexivity|].
  split; [intros v Hv; rewrite (filter_out_other u v _ Hv); reflexivity|].
  apply (service_GetByID_missing _ id u Hid). apply filter_out_same.
Qed.

Lemma delete_then_get_witness :
  GoUUID.Parse Sample.firstID = Some 1
  ∧ stored Sample.store 1 = Some Sample.subA
  ∧ table (Service.Delete Sample.store Sample.firstID).1 = [Sample.subB]
  ∧ (Service.GetByID (Service.Delete Sample.store Sample.firstID).1
                     Sample.firstID).2
    = (None, Some (NotFoundError Sample.firstID)).
Proof.
  destruct (delete_then_get Sample.store Sample.firstID 1 Sample.subA
              eq_refl eq_refl) as (_ & Ht & _ & _ & Hget).
  split; [reflexivity|]. split; [reflexivity|].
  split; [rewrite Ht; reflexivity | exact Hget].
Defined.

(** X7. Deleting under a well-formed identifier that is not stored
    reports the NotFoundError of that identifier, not a storage error,
    and leaves the table as it was. *)
Theorem delete_missing_id db id u :
  GoUUID.Parse id = Some u →
  stored db u = None →
  (Service.Delete db id).2 = Some (NotFoundError id)
  ∧ table (Service.Delete db id).1 = table db.
Proof.
  intros Hid Hnone. rewrite (service_Delete_run db id u Hid). unfold stored in Hnone.
  cbn [fst snd table].
  destruct (List.filter (hasID (Some u)) (table db)) as [|x rest] eqn:Hf;
    [|discriminate].
  split; [reflexivity|]. apply filter_out_none, Hf.
Qed.

Lemma delete_missing_id_witness :
  GoUUID.Parse Sample.missingID = Some 9
  ∧ stored Sample.store 9 = None
  ∧ Service.Delete Sample.store Sample.missingID
    = (mkDB (table Sample.store) [mkStmt DeleteByID [VUUID 9]] Sample.plainEngine,
       Some (NotFoundError Sample.missingID)).
Proof.
  split; [reflexivity|]. split; [reflexivity|].
  destruct (delete_missing_id Sample.store Sample.missingID 9 eq_refl eq_refl)
    as [Herr Ht].
  destruct (Service.Delete Sample.store Sample.missingID) as [db' e] eqn:Hrun.
  simpl in Herr, Ht. subst e. f_equal.
  apply (f_equal fst) in Hrun. simpl in Hrun. rewrite <- Hrun. reflexivity.
Defined.


(** * Validation comes first *)

Lemma repository_GetByID_cases db u :
  (∃ sub, Repository.GetByID db u
          = (mkDB (table db) (journal db ++ [mkStmt SelectByID [VUUID u]]) (engine db),
             (sub, None)))
  ∧ stored db u = (Repository.GetByID db u).2.1.
Proof.
  unfold Repository.GetByID, QueryRow, QueryRows, send, run, stored. simpl.
  destruct (List.filter (hasID (Some u)) (table db)) as [|r rest]; simpl;
    split; eauto.
Qed.

Lemma repository_List_error db f e :
  (Repository.List db f).2.2 = Some e → AsValidation e = None.
Proof.
  destruct (repository_List_result db f) as [Hres _]. rewrite Hres. discriminate.
Qed.

Lemma create_validation_untouched db req newID now err f inner :
  (Service.Create db req newID now).2.2 = Some err →
  AsValidation err = Some (f, inner) →
  (Service.Create db req newID now).1 = db.
Proof.
  unfold Service.Create.
  destruct (create_Price req <? 0); [reflexivity|].
  destruct (ToSubscription req newID) as [[s|] [e|]]; try reflexivity.
  destruct (repository_Create_run db s now) as (st & _ & ->).
  destruct (int4 _);
    [destruct (varchar _ _);
       [destruct (checks _) as [r|c]; [case_bool_decide|]|]|];
    simpl; intros Herr Hv; try discriminate;
    injection Herr as <-; discriminate Hv.
Qed.

Lemma get_validation_untouched db id err f inner :
  (Service.GetByID db id).2.2 = Some err →
  AsValidation err = Some (f, inner) →
  (Service.GetByID db id).1 = db.
Proof.
  unfold Service.GetByID.
  destruct (GoUUID.Parse id) as [u|]; [|reflexivity].
  destruct (repository_GetByID_cases db u) as [[sub ->] _].
  destruct sub; simpl; intros Herr Hv; [discriminate|].
  injection Herr as <-. discriminate Hv.
Qed.

Lemma update_validation_untouched rt db id req now err :
  (Service.Update rt db id req now).2 = Some err →
  err = ErrNoUpdates ∨ (∃ f inner, AsValidation err = Some (f, inner)) →
  (Service.Update rt db id req now).1 = db.
Proof.
  unfold Service.Update.
  destruct (GoUUID.Parse id) as [u|]; [|reflexivity].
  destruct (Service.buildUpdates req) as [m [e|]]; [reflexivity|].
  case_bool_decide as Hsize; [reflexivity|].
  rewrite (repository_Update_run rt db u m now Hsize).
  destruct (run _ _ _ _ (table db)) as [[t' [k|rs|k]]|c];
    try destruct (k =? 0); simpl; intros Herr Hv; try discriminate;
    injection Herr as <-;
    destruct Hv as [Hv | (f & inner & Hv)]; discriminate Hv.
Qed.

Lemma delete_validation_untouched db id err f inner :
  (Service.Delete db id).2 = Some err →
  AsValidation err = Some (f, inner) →
  (Service.Delete db id).1 = db.
Proof.
  unfold Service.Delete.
  destruct (GoUUID.Parse id) as [u|] eqn:Hid; [|reflexivity].
  pose proof (service_Delete_run db id u Hid) as Hrun.
  unfold Service.Delete in Hrun. rewrite Hid in Hrun. rewrite Hrun.
  destruct (_ =? 0); simpl; intros Herr Hv; [|discriminate].
  injection Herr as <-. discriminate Hv.
Qed.

Lemma list_validation_untouched db userID serviceName startDate endDate limit
  offset err f inner :
  (Service.List db userID serviceName startDate endDate limit offset).2.2
  = Some err →
  AsValidation err = Some (f, inner) →
  (Service.List db userID serviceName startDate endDate limit offset).1 = db.
Proof.
  unfold Service.List.
  destruct (Service.buildFilter _ _ _ _ _ _) as [[fl|] [e|]]; try reflexivity.
  pose proof (repository_List_error db fl) as Hl.
  destruct (Repository.List db fl) as [db' [subs [e|]]]; simpl in *;
    intros Herr Hv; [|discriminate].
  injection Herr as <-. simpl in Hv. rewrite (Hl e eq_refl) in Hv. discriminate Hv.
Qed.

Lemma aggregate_validation_untouched db req err f inner :
  (Service.Aggregate db req).2.2 = Some err →
  AsValidation err = Some (f, inner) →
  (Service.Aggregate db req).1 = db.
Proof.
  unfold Service.Aggregate.
  destruct (GoTime.Parse YearMonthDay (aggregate_StartDate req)); [|reflexivity].
  destruct (GoTime.Parse YearMonthDay (aggregate_EndDate req)); [|reflexivity].
  destruct (After _ _); [reflexivity|].
  destruct (aggregate_UserID req) as [u|]; [destruct (GoUUID.Parse u)|];
    try reflexivity; rewrite repository_Aggregate_run;
    destruct (refused _ _ _ _ _); simpl; intros Herr Hv; try discriminate;
    injection Herr as <-; discriminate Hv.
Qed.

(** X8. Whatever the operation, when the service returns a validation
    error the database is the one it was given: no statement has been
    sent.  The same holds for ErrNoUpdates. *)
Theorem validation_precedes_storage rt db :
  (∀ req newID now err f inner,
     (Service.Create db req newID now).2.2 = Some err →
     AsValidation err = Some (f, inner) →
     untouched db (Service.Create db req newID now).1)
  ∧ (∀ id err f inner,
       (Service.GetByID db id).2.2 = Some err →
       AsValidation err = Some (f, inner) →
       untouched db (Service.GetByID db id).1)
  ∧ (∀ id req now err,
       (Service.Update rt db id req now).2 = Some err →
       err = ErrNoUpdates ∨ (∃ f inner, AsValidation err = Some (f, inner)) →
       untouched db (Service.Update rt db id req now).1)
  ∧ (∀ id err f inner,
       (Service.Delete db id).2 = Some err →
       AsValidation err = Some (f, inner) →
       untouched db (Service.Delete db id).1)
  ∧ (∀ userID serviceName startDate endDate limit offset err f inner,
       (Service.List db userID serviceName startDate endDate limit offset).2.2
       = Some err →
       AsValidation err = Some (f, inner) →
       untouched db
         (Service.List db userID serviceName startDate endDate limit offset).1)
  ∧ (∀ req err f inner,
       (Service.Aggregate db req).2.2 = Some err →
       AsValidation err = Some (f, inner) →
       untouched db (Service.Aggregate db req).1).
Proof.
  unfold untouched. split; [|split; [|split; [|split; [|split]]]].
  - intros req newID now err f inner. apply create_validation_untouched.
  - intros id err f inner. apply get_validation_untouched.
  - intros id req now err. apply update_validation_untouched.
  - intros id err f inner. apply delete_validation_untouched.
  - intros userID serviceName startDate endDate limit offset err f inner.
    apply list_validation_untouched.
  - intros req err f inner. apply aggregate_validation_untouched.
Qed.

Lemma validation_precedes_storage_witness :
  (Service.Update map_to_list Sample.store Sample.firstID
                  (mkUpdate (Some "Hulu") (Some 5) (Some "31-01-2025")) 300).2
  = Some (Service.invalidDate "end_date")
  ∧ untouched Sample.store
      (Service.Update map_to_list Sample.store Sample.firstID
                      (mkUpdate (Some "Hulu") (Some 5) (Some "31-01-2025")) 300).1.
Proof.
  assert (Herr : (Service.Update map_to_list Sample.store Sample.firstID
                    (mkUpdate (Some "Hulu") (Some 5) (Some "31-01-2025")) 300).2
                 = Some (Service.invalidDate "end_date"))
    by (vm_compute; reflexivity).
  split; [exact Herr|].
  destruct (validation_precedes_storage map_to_list Sample.store)
    as (_ & _ & Hupdate & _).
  apply (Hupdate _ _ _ _ Herr). right. eexists _, _. reflexivity.
Defined.


(** * What the table keeps *)

Lemma updateRows_checked id asg t t' :
  updateRows id asg t = Ok t' → Forall checked t → Forall checked t'.
Proof.
  revert t'. induction t as [|r t IH]; intros t' H Hall; simpl in H.
  - injection H as <-. constructor.
  - bind_inv H. bind_inv H. injection H as <-.
    apply Forall_cons in Hall as [Hr Hall]. constructor; [|apply IH; assumption].
    destruct (hasID id r).
    + bind_inv E. pose proof (checks_Ok _ _ E) as ->.
      apply checks_checked, E.
    + injection E as <-. exact Hr.
Qed.

Lemma updateRows_IDs id asg t t' :
  updateRows id asg t = Ok t' → ColID ∉ asg.*1 → map ID t' = map ID t.
Proof.
  intros H Hno. apply updateRows_each in H.
  induction H as [|r r' t t' Hr _ IH]; [reflexivity|]. simpl. rewrite IH. f_equal.
  destruct (hasID id r); [|congruence].
  apply (storeAll_ID _ _ _ Hr). intros v Hv. apply Hno.
  apply list_elem_of_fmap. exists (ColID, v). auto.
Qed.

Lemma NoDup_IDs_filter (p : Subscription → bool) (t : list Subscription) :
  NoDup (map ID t) → NoDup (map ID (List.filter p t)).
Proof.
  induction t as [|r t IH]; intros Hnd; [constructor|]. simpl in *.
  apply NoDup_cons in Hnd as [Hr Hnd]. destruct (p r); [|apply IH, Hnd].
  simpl. apply NoDup_cons. split; [|apply IH, Hnd].
  intros Hin. apply Hr. apply list_elem_of_fmap in Hin as (x & Hx & Hin).
  apply list_elem_of_In, List.filter_In in Hin as [Hin _].
  apply list_elem_of_fmap. exists x. split; [exact Hx | apply list_elem_of_In, Hin].
Qed.

Lemma Forall_filter_bool {A} (P : A → Prop) (p : A → bool) (t : list A) :
  Forall P t → Forall P (List.filter p t).
Proof.
  induction 1 as [|x t Hx _ IH]; simpl; [constructor|].
  destruct (p x); [constructor|]; assumption.
Qed.

(** An UPDATE that the engine accepts leaves a consistent table. *)
Lemma run_UpdateSet_consistent e sent set p a t t' ans :
  consistent t → run e sent (UpdateSet set p) a t = Ok (t', ans) → consistent t'.
Proof.
  intros [Hnd Hall] H. unfold run in H.
  bind_inv H. bind_inv H. bind_inv H. bind_inv H.
  case_bool_decide as Hcols; [|discriminate]. bind_inv H.
  destruct (bool_decide (ColID ∈ x2.*1)) eqn:Hid; simpl in H.
  - destruct (uniqueIDs x3) eqn:Hu; simpl in H; [|discriminate].
    injection H as <- _. split.
    + apply bool_decide_eq_true in Hu. exact Hu.
    + apply (updateRows_checked _ _ _ _ E3 Hall).
  - injection H as <- _. apply bool_decide_eq_false in Hid. split.
    + rewrite (updateRows_IDs _ _ _ _ E3 Hid). exact Hnd.
    + apply (updateRows_checked _ _ _ _ E3 Hall).
Qed.

(** X9. The three operations that write keep the table consistent: if
    there was one row per identifier and every row had a price that is
    not negative and no end date before its start date, the same holds
    after Create, Update and Delete, whatever they were given and
    whatever they returned. *)
Theorem writes_keep_table_consistent rt db :
  consistent (table db) →
  (∀ req newID now, consistent (table (Service.Create db req newID now).1))
  ∧ (∀ id req now, consistent (table (Service.Update rt db id req now).1))
  ∧ (∀ id, consistent (table (Service.Delete db id).1)).
Proof.
  intros Hk. split; [|split].
  - intros req newID now. unfold Service.Create.
    destruct (create_Price req <? 0); [exact Hk|].
    destruct (ToSubscription req newID) as [[s|] [e|]]; try exact Hk.
    destruct (repository_Create_run db s now) as (st & _ & ->).
    destruct (int4 _); [|exact Hk]. destruct (varchar _ _); [|exact Hk].
    destruct (checks_cases (kept (engine db) (withTimes s now now))) as [Hc|Hc];
      rewrite Hc; [|exact Hk].
    case_bool_decide as Hfresh; [exact Hk|]. simpl. destruct Hk as [Hnd Hall].
    split.
    + rewrite map_app. apply NoDup_app. split; [exact Hnd|].
      split; [|apply NoDup_singleton].
      intros x Hx Hlast. apply list_elem_of_singleton in Hlast. subst x.
      exact (Hfresh Hx).
    + apply Forall_app. split; [exact Hall|]. constructor; [|constructor].
      apply checks_checked, Hc.
  - intros id req now. unfold Service.Update.
    destruct (GoUUID.Parse id) as [u|]; [|exact Hk].
    destruct (Service.buildUpdates req) as [m [e|]]; [exact Hk|].
    case_bool_decide as Hsize; [exact Hk|].
    rewrite (repository_Update_run rt db u m now Hsize).
    destruct (run _ _ _ _ (table db)) as [[t' ans]|c] eqn:Hrun.
    + apply (run_UpdateSet_consistent _ _ _ _ _ _ _ _ Hk) in Hrun.
      destruct ans as [k|rs|k]; try destruct (k =? 0); exact Hrun.
    + destruct (Is _ _); exact Hk.
  - intros id. unfold Service.Delete.
    destruct (GoUUID.Parse id) as [u|] eqn:Hid; [|exact Hk].
    pose proof (service_Delete_run db id u Hid) as Hrun.
    unfold Service.Delete in Hrun. rewrite Hid in Hrun. rewrite Hrun.
    destruct Hk as [Hnd Hall]. cbn [fst table]. split.
    + apply NoDup_IDs_filter, Hnd.
    + apply Forall_filter_bool, Hall.
Qed.

Lemma consistent_sample : consistent (table Sample.store).
Proof.
  split.
  - simpl. apply NoDup_cons. split.
    + intros H. apply list_elem_of_singleton in H. discriminate H.
    + apply NoDup_singleton.
  - repeat constructor; simpl; lia.
Defined.

Lemma writes_keep_table_consistent_witness :
  consistent (table Sample.store)
  ∧ consistent (table (Service.Update map_to_list Sample.store Sample.firstID
                         (mkUpdate None (Some 5) (Some "")) 300).1)
  ∧ consistent (table (Service.Delete Sample.store Sample.firstID).1).
Proof.
  destruct (writes_keep_table_consistent map_to_list Sample.store
              consistent_sample) as (_ & Hu & Hd).
  split; [exact consistent_sample|]. split; [apply Hu | apply Hd].
Defined.

(** X10. The three operations that read write nothing, whatever they
    were given and whatever they returned: the table is the one before
    the call, and what they have sent is nothing or one SELECT. *)
Theorem reads_leave_table db :
  (∀ id, readOnly db (Service.GetByID db id).1)
  ∧ (∀ userID serviceName startDate endDate limit offset,
       readOnly db (Service.List db userID serviceName startDate endDate
                                 limit offset).1)
  ∧ (∀ req, readOnly db (Service.Aggregate db req).1).
Proof.
  split; [|split].
  - intros id. unfold Service.GetByID.
    destruct (GoUUID.Parse id) as [u|]; [|split; [reflexivity | by left]].
    destruct (repository_GetByID_cases db u) as [[sub ->] _].
    destruct sub; (split; [reflexivity | right; eexists; split; reflexivity]).
  - intros userID serviceName startDate endDate limit offset. unfold Service.List.
    destruct (Service.buildFilter _ _ _ _ _ _) as [[fl|] [e|]];
      try (split; [reflexivity | by left]).
    destruct (repository_List_run db fl) as (st & Hst & ->).
    split; [reflexivity | right; exists st; split; [reflexivity | exact Hst]].
  - intros req. unfold Service.Aggregate.
    destruct (GoTime.Parse YearMonthDay (aggregate_StartDate req));
      [|split; [reflexivity | by left]].
    destruct (GoTime.Parse YearMonthDay (aggregate_EndDate req));
      [|split; [reflexivity | by left]].
    destruct (After _ _); [split; [reflexivity | by left]|].
    destruct (aggregate_UserID req) as [u|]; [destruct (GoUUID.Parse u)|];
      try (split; [reflexivity | by left]);
      rewrite repository_Aggregate_run; destruct (refused _ _ _ _ _);
      (split; [reflexivity | right; eexists; split; reflexivity]).
Qed.


(** * Listing: order, content, pages *)

(** Whatever the rank of the engine, ORDER BY returns the rows it was
    given, newest first. *)
Lemma insertDesc_perm rank r l : insertDesc rank r l ≡ₚ r :: l.
Proof.
  induction l as [|x l IH]; simpl; [reflexivity|].
  destruct (precedes rank x r); [|reflexivity].
  rewrite IH. apply Permutation_swap.
Qed.

Lemma orderByStartDateDesc_perm rank l : orderByStartDateDesc rank l ≡ₚ l.
Proof.
  induction l as [|x l IH]; simpl; [reflexivity|].
  rewrite insertDesc_perm, IH. reflexivity.
Qed.

Lemma precedes_notAfter rank x r :
  precedes rank x r = true → notAfter (StartDate r) (StartDate x).
Proof.
  unfold precedes. intros H. apply orb_true_iff in H. destruct H as [H|H].
  - apply After_notAfter, H.
  - apply andb_true_iff in H. destruct H as [H _].
    apply bool_decide_eq_true in H. rewrite H. apply notAfter_refl.
Qed.

Lemma not_precedes_notAfter rank x r :
  precedes rank x r = false → notAfter (StartDate x) (StartDate r).
Proof.
  unfold precedes. intros H. apply orb_false_iff in H. destruct H as [H _].
  exact H.
Qed.

Lemma insertDesc_newestFirst rank r l :
  newestFirst l → newestFirst (insertDesc rank r l).
Proof.
  unfold newestFirst. induction 1 as [|x l Hl IH Hx]; simpl.
  - repeat constructor.
  - destruct (precedes rank x r) eqn:Hxr.
    + constructor; [exact IH|].
      rewrite insertDesc_perm. constructor; [|exact Hx].
      apply (precedes_notAfter _ _ _ Hxr).
    + apply not_precedes_notAfter in Hxr.
      constructor; [constructor; assumption|].
      constructor; [exact Hxr|].
      eapply Forall_impl; [exact Hx|]. intros y Hy. simpl in Hy.
      apply (notAfter_trans _ (StartDate x)); assumption.
Qed.

Lemma orderByStartDateDesc_newestFirst rank l :
  newestFirst (orderByStartDateDesc rank l).
Proof.
  induction l as [|x l IH]; simpl; [constructor|].
  apply insertDesc_newestFirst, IH.
Qed.

Lemma notAfter_antisym (a b : Date) : notAfter a b → notAfter b a → a = b.
Proof.
  rewrite !notAfter_lex. destruct a as [ya ma da], b as [yb mb db]. simpl.
  intros H1 H2. f_equal; lia.
Qed.

Lemma NoDup_map_same {A B} (f : A → B) (l : list A) x y :
  NoDup (map f l) → x ∈ l → y ∈ l → f x = f y → x = y.
Proof.
  induction l as [|z l IH]; intros Hnd Hx Hy Hf; [inversion Hx|].
  simpl in Hnd. apply NoDup_cons in Hnd as [Hz Hnd].
  apply elem_of_cons in Hx as [->|Hx]; apply elem_of_cons in Hy as [->|Hy].
  - reflexivity.
  - exfalso. apply Hz. rewrite Hf. apply list_elem_of_fmap. eauto.
  - exfalso. apply Hz. rewrite <- Hf. apply list_elem_of_fmap. eauto.
  - apply IH; assumption.
Qed.

(** When no two rows start on one date, there is one order newest
    first. *)
Lemma newestFirst_unique l1 l2 :
  newestFirst l1 → newestFirst l2 → l1 ≡ₚ l2 →
  NoDup (map StartDate l1) → l1 = l2.
Proof.
  unfold newestFirst. intros H1. revert l2.
  induction H1 as [|x l1 Hs1 IH Hx]; intros l2 H2 Hp Hnd.
  - apply Permutation_nil_l in Hp. congruence.
  - destruct H2 as [|y l2 Hs2 Hy].
    + apply Permutation_nil_r in Hp. discriminate.
    + assert (Hxy : x = y).
      { assert (Hyin : y ∈ x :: l1) by (rewrite Hp; left).
        assert (Hxin : x ∈ y :: l2) by (rewrite <- Hp; left).
        apply (NoDup_map_same StartDate (x :: l1)); [exact Hnd | left | exact Hyin|].
        apply notAfter_antisym.
        - apply elem_of_cons in Hxin as [->|Hxin]; [apply notAfter_refl|].
          rewrite Forall_forall in Hy. apply Hy, Hxin.
        - apply elem_of_cons in Hyin as [->|Hyin]; [apply notAfter_refl|].
          rewrite Forall_forall in Hx. apply Hx, Hyin. }
      subst y. f_equal. apply IH; [exact Hs2 | |].
      * apply (Permutation_cons_inv Hp).
      * simpl in Hnd. apply NoDup_cons in Hnd as [_ Hnd]. exact Hnd.
Qed.

Lemma newestFirst_take n l : newestFirst l → newestFirst (take n l).
Proof.
  unfold newestFirst. intros H. rewrite <- (take_drop n l) in H.
  apply StronglySorted_app_1_l in H. exact H.
Qed.

Lemma newestFirst_drop n l : newestFirst l → newestFirst (drop n l).
Proof.
  unfold newestFirst. intros H. rewrite <- (take_drop n l) in H.
  apply StronglySorted_app_1_r in H. exact H.
Qed.

Lemma page_newestFirst f l : newestFirst l → newestFirst (page f l).
Proof.
  intros H. unfold page.
  destruct (0 <? filter_Offset f), (0 <? filter_Limit f);
    auto using newestFirst_take, newestFirst_drop.
Qed.

Lemma page_sublist f (l : list Subscription) x : x ∈ page f l → x ∈ l.
Proof.
  unfold page. intros H.
  destruct (0 <? filter_Offset f), (0 <? filter_Limit f);
    repeat first [apply subseteq_take in H | apply subseteq_drop in H];
    exact H.
Qed.

Lemma elements_appended {A} (l : list A) :
  elements (fold_left append l SliceNil) = l.
Proof.
  change l with (elements (@SliceNil A) ++ l) at 2.
  generalize (@SliceNil A). induction l as [|x l IH]; intros acc; simpl.
  - rewrite app_nil_r. reflexivity.
  - rewrite IH. unfold append. simpl. rewrite <- app_assoc. reflexivity.
Qed.

(** What the service returns for a filter it accepts. *)
Lemma service_List_elements db userID serviceName startDate endDate limit offset f :
  Service.buildFilter userID serviceName startDate endDate limit offset
  = (Some f, None) →
  (Service.List db userID serviceName startDate endDate limit offset).2.2 = None
  ∧ elements (Service.List db userID serviceName startDate endDate
                           limit offset).2.1
    = page f (orderByStartDateDesc (listRank db f)
                (List.filter (listed f) (table db))).
Proof.
  intros Hf. unfold Service.List. rewrite Hf.
  destruct (repository_List_result db f) as [Hres _].
  destruct (Repository.List db f) as [db' [subs err]]. simpl in Hres.
  injection Hres as -> ->. simpl. split; [reflexivity | apply elements_appended].
Qed.

Lemma buildFilter_paging userID serviceName startDate endDate limit offset f
  limit' offset' :
  Service.buildFilter userID serviceName startDate endDate limit offset
  = (Some f, None) →
  filter_Limit f = limit ∧ filter_Offset f = offset
  ∧ Service.buildFilter userID serviceName startDate endDate limit' offset'
    = (Some (mkFilter (filter_UserID f) (filter_ServiceName f)
                      (filter_StartDate f) (filter_EndDate f) limit' offset'),
       None).
Proof.
  unfold Service.buildFilter.
  destruct userID as [u|]; [destruct (GoUUID.Parse u)|];
    destruct startDate as [sd|]; try destruct (GoTime.Parse YearMonthDay sd);
    destruct endDate as [ed|]; try destruct (GoTime.Parse YearMonthDay ed);
    intros H; try discriminate; injection H as <-; repeat split.
Qed.

(** X11. A list call that is accepted returns its subscriptions newest
    first: no subscription starts after one that comes before it. *)
Theorem list_newest_first db userID serviceName startDate endDate limit offset f :
  Service.buildFilter userID serviceName startDate endDate limit offset
  = (Some f, None) →
  newestFirst (elements (Service.List db userID serviceName startDate endDate
                                      limit offset).2.1).
Proof.
  intros Hf.
  destruct (service_List_elements db _ _ _ _ _ _ f Hf) as [_ ->].
  apply page_newestFirst, orderByStartDateDesc_newestFirst.
Qed.

Lemma list_newest_first_witness :
  Service.buildFilter (Some Sample.alice) None None None 10 0
  = (Some (mkFilter (Some 170) None None None 10 0), None)
  ∧ elements (Service.List Sample.store (Some Sample.alice) None None None
                           10 0).2.1 = [Sample.subB; Sample.subA]
  ∧ newestFirst [Sample.subB; Sample.subA].
Proof.
  assert (Hf : Service.buildFilter (Some Sample.alice) None None None 10 0
               = (Some (mkFilter (Some 170) None None None 10 0), None))
    by (vm_compute; reflexivity).
  assert (He : elements (Service.List Sample.store (Some Sample.alice) None
                           None None 10 0).2.1 = [Sample.subB; Sample.subA])
    by (vm_compute; reflexivity).
  split; [exact Hf|]. split; [exact He|]. rewrite <- He.
  apply (list_newest_first Sample.store _ _ _ _ _ _ _ Hf).
Defined.

(** X12. Every subscription a list call returns is stored and meets the
    filter: it is of the user of the filter, its name matches the
    pattern made of the service-name filter between two [%], it starts
    on the start date of the filter or later, and it has no end date or
    one that is the end date of the filter or earlier.  For a
    service-name filter without [%], [_] and backslash the names that
    match are those that hold the filter somewhere, up to the case of
    the letters A to Z; with one of these characters the filter is read
    as a pattern.  When neither limit nor offset is positive, the stored
    subscriptions that meet the filter are returned, each as often as it
    is stored. *)
Theorem list_returns_matches db userID serviceName startDate endDate limit offset f :
  Service.buildFilter userID serviceName startDate endDate limit offset
  = (Some f, None) →
  let returned := elements (Service.List db userID serviceName startDate endDate
                                         limit offset).2.1 in
  (∀ r, r ∈ returned → r ∈ table db ∧ listed f r = true)
  ∧ (limit ≤ 0 → offset ≤ 0 →
     returned ≡ₚ List.filter (listed f) (table db))
  ∧ (∀ r, listed f r = true ↔
          ownedBy (filter_UserID f) r = true
          ∧ (∀ s, filter_ServiceName f = Some s →
                  ilike (ServiceName r) ("%" +:+ s +:+ "%") = true)
          ∧ (∀ d, filter_StartDate f = Some d → notAfter d (StartDate r))
          ∧ (∀ d e, filter_EndDate f = Some d → EndDate r = Some e →
                    notAfter e d))
  ∧ (∀ s name, plain s → initial s →
               (ilike name ("%" +:+ s +:+ "%") = true
                ↔ occursFold (chars s) (chars name))).
Proof.
  intros Hf returned. subst returned.
  destruct (service_List_elements db _ _ _ _ _ _ f Hf) as [_ ->].
  split; [|split; [|split]].
  - intros r Hr. apply page_sublist in Hr.
    rewrite orderByStartDateDesc_perm in Hr.
    apply list_elem_of_In, List.filter_In in Hr as [Hin Hl].
    split; [apply list_elem_of_In, Hin | exact Hl].
  - intros Hl Ho.
    destruct (buildFilter_paging _ _ _ _ _ _ f 0 0 Hf) as (Hfl & Hfo & _).
    unfold page. rewrite Hfl, Hfo.
    replace (0 <? offset) with false by (symmetry; apply Z.ltb_ge; exact Ho).
    replace (0 <? limit) with false by (symmetry; apply Z.ltb_ge; exact Hl).
    apply orderByStartDateDesc_perm.
  - intros r. unfold listed. rewrite !andb_true_iff. split.
    + intros [[[Hu Hn] Hs] He]. split; [exact Hu|]. split; [|split].
      * intros s Hfs. rewrite Hfs in Hn. exact Hn.
      * intros d Hfd. rewrite Hfd in Hs. apply geb_notAfter, Hs.
      * intros d e Hfd Hre. rewrite Hfd, Hre in He. apply leb_notAfter, He.
    + intros (Hu & Hn & Hs & He). repeat split.
      * exact Hu.
      * destruct (filter_ServiceName f) as [s|]; [apply Hn|]; reflexivity.
      * destruct (filter_StartDate f) as [d|]; [|reflexivity].
        apply geb_notAfter, Hs. reflexivity.
      * destruct (filter_EndDate f) as [d|], (EndDate r) as [e|]; try reflexivity.
        apply leb_notAfter, (He d e); reflexivity.
  - intros s name Hs Hi. apply ilike_wrapped; assumption.
Qed.

Lemma list_returns_matches_witness :
  Service.buildFilter None (Some "FLIX") None None 0 0
  = (Some (mkFilter None (Some "FLIX") None None 0 0), None)
  ∧ elements (Service.List Sample.store None (Some "FLIX") None None 0 0).2.1
    ≡ₚ [Sample.subA].
Proof.
  assert (Hf : Service.buildFilter None (Some "FLIX") None None 0 0
               = (Some (mkFilter None (Some "FLIX") None None 0 0), None))
    by (vm_compute; reflexivity).
  split; [exact Hf|].
  destruct (list_returns_matches Sample.store _ _ _ _ _ _ _ Hf) as (_ & Hall & _).
  rewrite (Hall ltac:(lia) ltac:(lia)). vm_compute. reflexivity.
Defined.

(** A filter with a wildcard of its own is read as a pattern: [n_t]
    lists Netflix, which does not hold it. *)
Example list_filter_pattern :
  elements (Service.List Sample.store None (Some "n_t") None None 0 0).2.1
  = [Sample.subA].
Proof. vm_compute. reflexivity. Qed.

(** X13. Paging: a list call with a positive limit and an offset that is
    not negative returns a page of the stored subscriptions that meet
    the filter: these in some order newest first, without the first
    offset of them, and at most limit of what is left.  The order of two
    subscriptions that start on one date is the engine's, and it need
    not be the same from one call to the next; when no two of the
    subscriptions that meet the filter start on one date, the page is
    the one of the same call without limit and offset, the first offset
    subscriptions dropped and limit taken. *)
Theorem list_page db userID serviceName startDate endDate limit offset f :
  Service.buildFilter userID serviceName startDate endDate limit offset
  = (Some f, None) →
  0 < limit → 0 ≤ offset →
  let matches := List.filter (listed f) (table db) in
  let whole := elements (Service.List db userID serviceName startDate endDate
                                      0 0).2.1 in
  let returned := elements (Service.List db userID serviceName startDate endDate
                                         limit offset).2.1 in
  (∃ sorted, sorted ≡ₚ matches ∧ newestFirst sorted
             ∧ returned = take (Z.to_nat limit) (drop (Z.to_nat offset) sorted))
  ∧ Z.of_nat (length returned)
    = Z.min limit (Z.max 0 (Z.of_nat (length matches) - offset))
  ∧ (NoDup (map StartDate matches) →
     returned = take (Z.to_nat limit) (drop (Z.to_nat offset) whole)).
Proof.
  intros Hf Hl Ho matches whole returned. subst whole returned.
  destruct (buildFilter_paging _ _ _ _ _ _ f 0 0 Hf) as (Hfl & Hfo & Hf0).
  destruct (service_List_elements db _ _ _ _ _ _ f Hf) as [_ ->].
  destruct (service_List_elements db _ _ _ _ _ _ _ Hf0) as [_ ->].
  change (listed (mkFilter (filter_UserID f) (filter_ServiceName f)
                           (filter_StartDate f) (filter_EndDate f) 0 0))
    with (listed f).
  fold matches.
  set (f0 := mkFilter (filter_UserID f) (filter_ServiceName f)
                      (filter_StartDate f) (filter_EndDate f) 0 0).
  set (sorted := orderByStartDateDesc (listRank db f) matches).
  set (sorted0 := orderByStartDateDesc (listRank db f0) matches).
  assert (Hpage : page f sorted
                  = take (Z.to_nat limit) (drop (Z.to_nat offset) sorted)).
  { unfold page. rewrite Hfl, Hfo.
    replace (0 <? limit) with true by (symmetry; apply Z.ltb_lt; exact Hl).
    destruct (Z.ltb_spec 0 offset); [reflexivity|].
    replace offset with 0 by lia. reflexivity. }
  assert (Hpage0 : page f0 sorted0 = sorted0) by reflexivity.
  rewrite Hpage, Hpage0.
  assert (Hperm : sorted ≡ₚ matches) by apply orderByStartDateDesc_perm.
  split; [|split].
  - exists sorted. split; [exact Hperm|].
    split; [apply orderByStartDateDesc_newestFirst | reflexivity].
  - rewrite length_take, length_drop, (Permutation_length Hperm). lia.
  - intros Hnd. f_equal. f_equal.
    apply newestFirst_unique.
    + apply orderByStartDateDesc_newestFirst.
    + apply orderByStartDateDesc_newestFirst.
    + rewrite Hperm. symmetry. apply orderByStartDateDesc_perm.
    + rewrite Hperm. exact Hnd.
Qed.

Lemma list_page_witness :
  NoDup (map StartDate (List.filter (listed (mkFilter None None None None 1 1))
                                    (table Sample.store)))
  ∧ elements (Service.List Sample.store None None None None 1 1).2.1 = [Sample.subA]
  ∧ elements (Service.List Sample.store None None None None 0 0).2.1
    = [Sample.subB; Sample.subA].
Proof.
  assert (Hf : Service.buildFilter None None None None 1 1
               = (Some (mkFilter None None None None 1 1), None))
    by (vm_compute; reflexivity).
  assert (Hnd : NoDup (map StartDate
                  (List.filter (listed (mkFilter None None None None 1 1))
                               (table Sample.store)))).
  { simpl. apply NoDup_cons. split.
    - intros H. apply list_elem_of_singleton in H. discriminate H.
    - apply NoDup_singleton. }
  destruct (list_page Sample.store None None None None 1 1 _ Hf
              ltac:(lia) ltac:(lia)) as (_ & _ & Hp).
  split; [exact Hnd|].
  split; [rewrite (Hp Hnd)|]; vm_compute; reflexivity.
Defined.

(** Two subscriptions that start on one date: the page of one is the
    one or the other, as the engine ranks them. *)
Example list_page_tie :
  let one := mkSubscription 11 "Hulu" 5 170 (mkDate 2024 5 1) None 0 0 in
  let two := mkSubscription 12 "Mubi" 6 170 (mkDate 2024 5 1) None 0 0 in
  let first := mkEngine (λ _ r, ID r) (λ _, false) (λ _, false) in
  let last := mkEngine (λ _ r, - ID r) (λ _, false) (λ _, false) in
  elements (Service.List (mkDB [one; two] [] first) None None None None 1 0).2.1
  = [one]
  ∧ elements (Service.List (mkDB [one; two] [] last) None None None None 1 0).2.1
    = [two].
Proof. split; vm_compute; reflexivity. Qed.


(** * Aggregation: how the total moves with the query *)

Lemma priceSum_filter_mono (p q : Subscription → bool) (t : list Subscription) :
  Forall (λ r, 0 ≤ Price r) t →
  (∀ r, p r = true → q r = true) →
  0 ≤ priceSum (List.filter p t) ≤ priceSum (List.filter q t).
Proof.
  intros Hall Hpq. induction Hall as [|r t Hr _ IH]; simpl; [lia|].
  destruct (p r) eqn:Hp.
  - rewrite (Hpq r Hp). simpl. lia.
  - destruct (q r); simpl; lia.
Qed.

Lemma counted_wider ps pe ps' pe' u s r :
  notAfter ps' ps → notAfter pe pe' →
  counted ps pe u s r = true → counted ps' pe' u s r = true.
Proof.
  intros Hs He. unfold counted, overlaps.
  rewrite !andb_true_iff. intros [[[Hle Hge] Hu] Hn].
  repeat split; try assumption.
  - apply leb_notAfter. apply leb_notAfter in Hle.
    apply (notAfter_trans _ pe); assumption.
  - destruct (EndDate r) as [e|]; [|reflexivity].
    apply geb_notAfter. apply geb_notAfter in Hge.
    apply (notAfter_trans _ ps); assumption.
Qed.

(** X14. With no negative price stored, widening the window of an
    aggregate query never lowers the total, and no total is negative. *)
Theorem aggregate_window_monotone db ps pe ps' pe' u s :
  Forall (λ r, 0 ≤ Price r) (table db) →
  notAfter ps' ps → notAfter pe pe' →
  0 ≤ (Repository.Aggregate db ps pe u s).2.1
    ≤ (Repository.Aggregate db ps' pe' u s).2.1.
Proof.
  intros Hall Hs He. rewrite !repository_Aggregate_total. simpl.
  apply (priceSum_filter_mono _ _ _ Hall). intros r.
  apply counted_wider; assumption.
Qed.

Lemma aggregate_window_monotone_witness :
  notAfter (mkDate 2024 1 1) (mkDate 2024 4 1)
  ∧ notAfter (mkDate 2024 5 1) (mkDate 2024 6 1)
  ∧ 0 ≤ (Repository.Aggregate Sample.store (mkDate 2024 4 1) (mkDate 2024 5 1)
                              None None).2.1
      ≤ (Repository.Aggregate Sample.store (mkDate 2024 1 1) (mkDate 2024 6 1)
                              None None).2.1.
Proof.
  split; [reflexivity|]. split; [reflexivity|].
  apply aggregate_window_monotone; [|reflexivity|reflexivity].
  repeat constructor; simpl; lia.
Defined.

(** X15. With no negative price stored, an aggregate query with a user
    or a service-name filter never totals more than the same query
    without it. *)
Theorem aggregate_filters_narrow db ps pe u s :
  Forall (λ r, 0 ≤ Price r) (table db) →
  (Repository.Aggregate db ps pe u s).2.1
  ≤ (Repository.Aggregate db ps pe None s).2.1
  ∧ (Repository.Aggregate db ps pe u s).2.1
    ≤ (Repository.Aggregate db ps pe u None).2.1.
Proof.
  intros Hall. rewrite !repository_Aggregate_total. simpl. split.
  - apply (priceSum_filter_mono _ _ _ Hall). intros r. unfold counted.
    rewrite !andb_true_iff. simpl. tauto.
  - apply (priceSum_filter_mono _ _ _ Hall). intros r. unfold counted.
    rewrite !andb_true_iff. simpl. tauto.
Qed.

Lemma aggregate_filters_narrow_witness :
  (Repository.Aggregate Sample.store (mkDate 2024 2 1) (mkDate 2024 2 1)
                        (Some 170) (Some "spotify")).2.1
  ≤ (Repository.Aggregate Sample.store (mkDate 2024 2 1) (mkDate 2024 2 1)
                          (Some 170) None).2.1.
Proof.
  apply aggregate_filters_narrow. repeat constructor; simpl; lia.
Defined.


(** * The errors of each operation *)

Lemma ToSubscription_one_result req newID :
  (∃ sub, ToSubscription req newID = (Some sub, None))
  ∨ (∃ err, ToSubscription req newID = (None, Some err)).
Proof.
  unfold ToSubscription.
  destruct (GoUUID.Parse (create_UserID req)); [|right; eauto].
  destruct (GoTime.Parse MonthYear (create_StartDate req)); [|right; eauto].
  case_bool_decide; [|left; eauto].
  destruct (GoTime.Parse MonthYear (create_EndDate req)); [left | right]; eauto.
Qed.

Lemma buildUpdates_error req m e :
  Service.buildUpdates req = (m, Some e) →
  e = ValidationError "price" (ErrNew "price cannot be negative")
  ∨ e = Service.invalidDate "end_date".
Proof.
  unfold Service.buildUpdates, Service.priceStep, Service.endDateStep.
  destruct (update_Price req) as [p|]; [destruct (p <? 0)|];
    destruct (update_EndDate req) as [d|]; try case_bool_decide;
    try destruct (GoTime.Parse YearMonthDay d);
    intros Heq; try discriminate; injection Heq as _ <-; auto.
Qed.

Lemma buildFilter_error userID serviceName startDate endDate limit offset fl e :
  Service.buildFilter userID serviceName startDate endDate limit offset
  = (fl, Some e) →
  e = Service.invalidUUID "user_id" ∨ e = Service.invalidDate "start_date"
  ∨ e = Service.invalidDate "end_date".
Proof.
  unfold Service.buildFilter.
  destruct userID as [u|]; [destruct (GoUUID.Parse u)|];
    destruct startDate as [sd|]; try destruct (GoTime.Parse YearMonthDay sd);
    destruct endDate as [ed|]; try destruct (GoTime.Parse YearMonthDay ed);
    intros Heq; try discriminate; injection Heq as _ <-; auto.
Qed.

Lemma buildFilter_one_result userID serviceName startDate endDate limit offset :
  Service.buildFilter userID serviceName startDate endDate limit offset
  ≠ (None, None).
Proof.
  unfold Service.buildFilter.
  destruct userID as [u|]; [destruct (GoUUID.Parse u)|];
    destruct startDate as [sd|]; try destruct (GoTime.Parse YearMonthDay sd);
    destruct endDate as [ed|]; try destruct (GoTime.Parse YearMonthDay ed);
    discriminate.
Qed.

Lemma service_Update_errors rt db id req now err :
  (Service.Update rt db id req now).2 = Some err →
  err = Service.invalidUUID "id"
  ∨ err = ValidationError "price" (ErrNew "price cannot be negative")
  ∨ err = Service.invalidDate "end_date"
  ∨ err = ErrNoUpdates
  ∨ err = NotFoundError id
  ∨ ∃ c, err = ErrWrap "failed to update subscription"
                 (ErrWrap "failed to update subscription" (ErrEngine c)).
Proof.
  unfold Service.Update.
  destruct (GoUUID.Parse id) as [u|]; [|intros Heq; injection Heq as <-; auto].
  destruct (Service.buildUpdates req) as [m [e|]] eqn:Hm.
  { intros Heq. injection Heq as <-.
    destruct (buildUpdates_error req m e Hm) as [-> | ->]; auto. }
  case_bool_decide as Hsize; [intros Heq; injection Heq as <-; auto 6|].
  rewrite (repository_Update_run rt db u m now Hsize).
  destruct (run _ _ _ _ (table db)) as [[t' [k|rs|k]]|c];
    try destruct (k =? 0); simpl; intros Heq; try discriminate;
    injection Heq as <-; eauto 10.
Qed.

Lemma service_Delete_errors db id err :
  (Service.Delete db id).2 = Some err →
  err = Service.invalidUUID "id" ∨ err = NotFoundError id.
Proof.
  unfold Service.Delete.
  destruct (GoUUID.Parse id) as [u|] eqn:Hid;
    [|intros Heq; injection Heq as <-; auto].
  pose proof (service_Delete_run db id u Hid) as Hrun.
  unfold Service.Delete in Hrun. rewrite Hid in Hrun. rewrite Hrun.
  destruct (_ =? 0); simpl; intros Heq; [|discriminate].
  injection Heq as <-. auto.
Qed.

(** X16. The errors of the six operations.  Create fails with a
    validation error on "price" or "request" or with a wrapped storage
    error; GetByID and Delete with a validation error on "id", the
    NotFoundError of the identifier or a wrapped storage error; Update
    with one of these, a validation error on "price" or "end_date", or
    ErrNoUpdates; List and Aggregate with a validation error on one of
    their own fields or a wrapped storage error.  Nothing else is ever
    returned, and a result never comes together with an error. *)
Theorem error_taxonomy rt db :
  (∀ req newID now sub err,
     (Service.Create db req newID now).2 = (sub, Some err) →
     sub = None
     ∧ (isValidation (Some err) "price" ∨ isValidation (Some err) "request"
        ∨ ∃ inner, err = ErrWrap "failed to create subscription" inner))
  ∧ (∀ id sub err,
       (Service.GetByID db id).2 = (sub, Some err) →
       sub = None
       ∧ (isValidation (Some err) "id" ∨ err = NotFoundError id
          ∨ ∃ inner, err = ErrWrap "failed to get subscription" inner))
  ∧ (∀ id req now err,
       (Service.Update rt db id req now).2 = Some err →
       isValidation (Some err) "id" ∨ isValidation (Some err) "price"
       ∨ isValidation (Some err) "end_date" ∨ err = ErrNoUpdates
       ∨ err = NotFoundError id
       ∨ ∃ inner, err = ErrWrap "failed to update subscription" inner)
  ∧ (∀ id err,
       (Service.Delete db id).2 = Some err →
       isValidation (Some err) "id" ∨ err = NotFoundError id
       ∨ ∃ inner, err = ErrWrap "failed to delete subscription" inner)
  ∧ (∀ userID serviceName startDate endDate limit offset subs err,
       (Service.List db userID serviceName startDate endDate limit offset).2
       = (subs, Some err) →
       subs = SliceNil
       ∧ (isValidation (Some err) "user_id" ∨ isValidation (Some err) "start_date"
          ∨ isValidation (Some err) "end_date"
          ∨ ∃ inner, err = ErrWrap "failed to list subscriptions" inner))
  ∧ (∀ req res err,
       (Service.Aggregate db req).2 = (res, Some err) →
       res = None
       ∧ (isValidation (Some err) "start_date" ∨ isValidation (Some err) "end_date"
          ∨ isValidation (Some err) "date_range"
          ∨ isValidation (Some err) "user_id"
          ∨ ∃ inner, err = ErrWrap "failed to aggregate subscriptions" inner)).
Proof.
  split; [|split; [|split; [|split; [|split]]]].
  - intros req newID now sub err. unfold Service.Create.
    destruct (create_Price req <? 0).
    { intros Heq. injection Heq as <- <-. split; [reflexivity|].
      left. eexists. reflexivity. }
    destruct (ToSubscription_one_result req newID) as [[s ->] | [e ->]].
    + destruct (repository_Create_run db s now) as (st & _ & ->).
      cbv zeta.
      destruct (int4 _);
        [destruct (varchar _ _);
           [destruct (checks _) as [r|c]; [case_bool_decide|]|]|];
        simpl; intros Heq; try discriminate; injection Heq as <- <-;
        (split; [reflexivity|]); right; right; eexists; reflexivity.
    + intros Heq. injection Heq as <- <-. split; [reflexivity|].
      right. left. eexists. reflexivity.
  - intros id sub err. unfold Service.GetByID.
    destruct (GoUUID.Parse id) as [u|].
    + destruct (repository_GetByID_cases db u) as [[s ->] _].
      destruct s; simpl; intros Heq; [discriminate|].
      injection Heq as <- <-. auto.
    + intros Heq. injection Heq as <- <-. split; [reflexivity|].
      left. eexists. reflexivity.
  - intros id req now err Herr.
    destruct (service_Update_errors rt db id req now err Herr)
      as [-> | [-> | [-> | [-> | [-> | [c ->]]]]]].
    + left. eexists. reflexivity.
    + right. left. eexists. reflexivity.
    + right. right. left. eexists. reflexivity.
    + auto 6.
    + auto 6.
    + do 5 right. eexists. reflexivity.
  - intros id err Herr.
    destruct (service_Delete_errors db id err Herr) as [-> | ->]; [|auto].
    left. eexists. reflexivity.
  - intros userID serviceName startDate endDate limit offset subs err.
    unfold Service.List.
    destruct (Service.buildFilter _ _ _ _ _ _) as [fl [e|]] eqn:Hf.
    + intros Heq. assert (Hsub : subs = SliceNil ∧ err = e).
      { destruct fl; injection Heq as <- <-; auto. }
      destruct Hsub as [-> ->]. split; [reflexivity|].
      destruct (buildFilter_error _ _ _ _ _ _ _ _ Hf) as [-> | [-> | ->]].
      * left. eexists. reflexivity.
      * right. left. eexists. reflexivity.
      * right. right. left. eexists. reflexivity.
    + destruct fl as [fl|]; [|destruct (buildFilter_one_result _ _ _ _ _ _ Hf)].
      destruct (repository_List_run db fl) as (st & _ & ->). discriminate.
  - intros req res err. unfold Service.Aggregate.
    destruct (GoTime.Parse YearMonthDay (aggregate_StartDate req)).
    2:{ intros Heq. injection Heq as <- <-. split; [reflexivity|].
        left. eexists. reflexivity. }
    destruct (GoTime.Parse YearMonthDay (aggregate_EndDate req)).
    2:{ intros Heq. injection Heq as <- <-. split; [reflexivity|].
        right. left. eexists. reflexivity. }
    destruct (After _ _).
    { intros Heq. injection Heq as <- <-. split; [reflexivity|].
      right. right. left. eexists. reflexivity. }
    destruct (aggregate_UserID req) as [u|]; [destruct (GoUUID.Parse u)|];
      try (rewrite repository_Aggregate_run; destruct (refused _ _ _ _ _);
           cbn [fst snd]; intros Heq; [|discriminate];
           injection Heq as <- <-; (split; [reflexivity|]);
           do 4 right; eexists; reflexivity).
    intros Heq. injection Heq as <- <-. split; [reflexivity|].
    right. right. right. left. eexists. reflexivity.
Qed.

Lemma error_taxonomy_witness :
  (Service.Delete Sample.store "42").2 = Some (Service.invalidUUID "id")
  ∧ (isValidation (Some (Service.invalidUUID "id")) "id"
     ∨ Service.invalidUUID "id" = NotFoundError "42"
     ∨ ∃ inner, Service.invalidUUID "id"
                = ErrWrap "failed to delete subscription" inner).
Proof.
  assert (Herr : (Service.Delete Sample.store "42").2
                 = Some (Service.invalidUUID "id")) by (vm_compute; reflexivity).
  split; [exact Herr|].
  destruct (error_taxonomy map_to_list Sample.store) as (_ & _ & _ & Hd & _).
  apply (Hd "42" _ Herr).
Defined.


(** * The handlers *)

Lemma update_error_not_ErrNoRows rt db id req now err :
  (Service.Update rt db id req now).2 = Some err → Is err ErrNoRows = false.
Proof.
  intros Herr.
  destruct (service_Update_errors rt db id req now err Herr)
    as [-> | [-> | [-> | [-> | [-> | [c ->]]]]]]; reflexivity.
Qed.

Lemma delete_error_not_ErrNoRows db id err :
  (Service.Delete db id).2 = Some err → Is err ErrNoRows = false.
Proof.
  intros Herr.
  destruct (service_Delete_errors db id err Herr) as [-> | ->]; reflexivity.
Qed.

(** X17. The handlers of update and delete never answer 404: the service
    reports a missing subscription as NotFoundError, which they do not
    look for, so a delete of a well-formed identifier that is not stored
    is answered 500, and so is every update for which the service
    returns NotFoundError. *)
Theorem update_delete_never_404 rt db :
  (∀ id req now, Handlers.code (Handlers.UpdateSubscription rt db id req now).2 ≠ 404)
  ∧ (∀ id, Handlers.code (Handlers.DeleteSubscription db id).2 ≠ 404)
  ∧ (∀ id u, GoUUID.Parse id = Some u → stored db u = None →
             Handlers.code (Handlers.DeleteSubscription db id).2 = 500)
  ∧ (∀ id req now,
       (Service.Update rt db id req now).2 = Some (NotFoundError id) →
       Handlers.code (Handlers.UpdateSubscription rt db id req now).2 = 500).
Proof.
  split; [|split; [|split]].
  - intros id req now. unfold Handlers.UpdateSubscription.
    pose proof (update_error_not_ErrNoRows rt db id req now) as Hno.
    destruct (Service.Update rt db id req now) as [db' [err|]]; [|discriminate].
    rewrite (Hno err eq_refl).
    destruct (Is err ErrNoUpdates); [discriminate|].
    destruct (AsValidation err) as [[f e]|]; discriminate.
  - intros id. unfold Handlers.DeleteSubscription.
    pose proof (delete_error_not_ErrNoRows db id) as Hno.
    destruct (Service.Delete db id) as [db' [err|]]; [|discriminate].
    rewrite (Hno err eq_refl).
    destruct (AsValidation err) as [[f e]|]; discriminate.
  - intros id u Hid Hnone. unfold Handlers.DeleteSubscription.
    rewrite (service_Delete_run db id u Hid). unfold stored in Hnone.
    destruct (List.filter (hasID (Some u)) (table db)); [reflexivity | discriminate].
  - intros id req now Herr. unfold Handlers.UpdateSubscription.
    destruct (Service.Update rt db id req now) as [db' e]. simpl in Herr.
    subst e. reflexivity.
Qed.

Lemma update_delete_never_404_witness :
  GoUUID.Parse Sample.missingID = Some 9
  ∧ stored Sample.store 9 = None
  ∧ Handlers.code (Handlers.DeleteSubscription Sample.store Sample.missingID).2
    = 500
  ∧ Handlers.code
      (Handlers.UpdateSubscription map_to_list Sample.store Sample.missingID
         (mkUpdate None (Some 5) None) 300).2 = 500.
Proof.
  destruct (update_delete_never_404 map_to_list Sample.store)
    as (_ & _ & Hd & Hu).
  split; [reflexivity|]. split; [reflexivity|]. split.
  - apply (Hd Sample.missingID 9); reflexivity.
  - apply Hu. vm_compute. reflexivity.
Defined.





(** X19. A handler that answers 400 has left the database as it was, for
    each of the six handlers. *)
Theorem bad_request_touches_nothing rt db :
  (∀ req newID now,
     Handlers.code (Handlers.CreateSubscription db req newID now).2 = 400 →
     (Handlers.CreateSubscription db req newID now).1 = db)
  ∧ (∀ id, Handler.status (Handler.GetSubscription db id).2 = 400 →
           (Handler.GetSubscription db id).1 = db)
  ∧ (∀ id req now,
       Handlers.code (Handlers.UpdateSubscription rt db id req now).2 = 400 →
       (Handlers.UpdateSubscription rt db id req now).1 = db)
  ∧ (∀ id, Handlers.code (Handlers.DeleteSubscription db id).2 = 400 →
           (Handlers.DeleteSubscription db id).1 = db)
  ∧ (∀ Query, Handler.status (Handlers.ListSubscriptions db Query).2 = 400 →
              (Handlers.ListSubscriptions db Query).1 = db)
  ∧ (∀ req, Handlers.code (Handlers.AggregateSubscriptions db req).2 = 400 →
            (Handlers.AggregateSubscriptions db req).1 = db).
Proof.
  split; [|split; [|split; [|split; [|split]]]].
  - intros req newID now. unfold Handlers.CreateSubscription.
    pose proof (create_validation_untouched db req newID now) as Hv.
    destruct (Service.Create db req newID now) as [db' [sub [err|]]];
      [|discriminate]. simpl in *.
    destruct (AsValidation err) as [[f e]|] eqn:He; [|simpl; discriminate].
    intros _. apply (Hv err f e eq_refl He).
  - intros id. unfold Handler.GetSubscription.
    pose proof (get_validation_untouched db id) as Hv.
    destruct (Service.GetByID db id) as [db' [[sub|] [err|]]]; simpl in *;
      try discriminate;
      (destruct (AsValidation err) as [[f e]|] eqn:He; [|simpl; discriminate]);
      intros _; apply (Hv err f e eq_refl He).
  - intros id req now. unfold Handlers.UpdateSubscription.
    pose proof (update_validation_untouched rt db id req now) as Hv.
    pose proof (service_Update_errors rt db id req now) as Hkinds.
    destruct (Service.Update rt db id req now) as [db' [err|]]; [|discriminate].
    simpl in *. specialize (Hv err eq_refl).
    destruct (Hkinds err eq_refl) as [-> | [-> | [-> | [-> | [-> | [c ->]]]]]];
      simpl; intros Hcode; try discriminate Hcode; apply Hv;
      solve [left; reflexivity | right; eexists _, _; reflexivity].
  - intros id. unfold Handlers.DeleteSubscription.
    pose proof (delete_validation_untouched db id) as Hv.
    pose proof (service_Delete_errors db id) as Hkinds.
    destruct (Service.Delete db id) as [db' [err|]]; [|discriminate].
    simpl in *. specialize (Hv err).
    destruct (Hkinds err eq_refl) as [-> | ->]; simpl; intros Hcode;
      try discriminate Hcode. apply (Hv _ _ eq_refl eq_refl).
  - intros Query. unfold Handlers.ListSubscriptions.
    destruct (Handlers.readLimit Query) as [limit|m]; [|reflexivity].
    destruct (Handlers.readOffset Query) as [offset|m]; [|reflexivity].
    unfold Handler.ListSubscriptions.
    pose proof (list_validation_untouched db
                  (Handler.pointerTo (Query "user_id"))
                  (Handler.pointerTo (Query "service_name"))
                  (Handler.pointerTo (Query "start_date"))
                  (Handler.pointerTo (Query "end_date")) limit offset) as Hv.
    destruct (Service.List db _ _ _ _ limit offset) as [db' [subs [err|]]];
      [|discriminate]. simpl in *.
    destruct (AsValidation err) as [[f e]|] eqn:He; [|simpl; discriminate].
    intros _. apply (Hv err f e eq_refl He).
  - intros req. unfold Handlers.AggregateSubscriptions.
    pose proof (aggregate_validation_untouched db req) as Hv.
    destruct (Service.Aggregate db req) as [db' [res [err|]]]; [|discriminate].
    simpl in *.
    destruct (AsValidation err) as [[f e]|] eqn:He; [|simpl; discriminate].
    intros _. apply (Hv err f e eq_refl He).
Qed.

Lemma bad_request_touches_nothing_witness :
  Handlers.code (Handlers.AggregateSubscriptions Sample.store
                   (mkAggregate None None "2024-05-01" "2024-04-30")).2 = 400
  ∧ (Handlers.AggregateSubscriptions Sample.store
       (mkAggregate None None "2024-05-01" "2024-04-30")).1 = Sample.store.
Proof.
  assert (Hcode : Handlers.code (Handlers.AggregateSubscriptions Sample.store
                    (mkAggregate None None "2024-05-01" "2024-04-30")).2 = 400)
    by (vm_compute; reflexivity).
  split; [exact Hcode|].
  destruct (bad_request_touches_nothing map_to_list Sample.store)
    as (_ & _ & _ & _ & _ & Ha).
  apply Ha, Hcode.
Defined.

Lemma kept_same e r :
  (charLength (ServiceName r) ≤ 255)%nat →
  CreatedAt r mod 1000 = 0 → UpdatedAt r mod 1000 = 0 →
  kept e r = r.
Proof.
  intros Hn Hc Hu. unfold kept.
  rewrite (cut_short _ Hn), (micros_whole _ _ Hc), (micros_whole _ _ Hu).
  destruct r; reflexivity.
Qed.

(** X20. The create handler answers 201 exactly when the subscription it
    returns has been appended to the table, as the columns keep it: its
    name cut to their width, its two timestamps in microseconds, which
    is the subscription itself when its name has at most 255 characters
    and the time of the call is a whole number of microseconds.  With
    any other answer the table is what it was. *)
Theorem create_handler_stores db req newID now :
  let ran := Handlers.CreateSubscription db req newID now in
  (Handlers.code ran.2 = 201 →
   ∃ sub, Handlers.payload ran.2 = Handlers.One (Some sub)
          ∧ table ran.1 = table db ++ [kept (engine db) sub]
          ∧ ((charLength (ServiceName sub) ≤ 255)%nat → now mod 1000 = 0 →
             table ran.1 = table db ++ [sub]))
  ∧ (Handlers.code ran.2 ≠ 201 → table ran.1 = table db).
Proof.
  intros ran. subst ran. unfold Handlers.CreateSubscription, Service.Create.
  destruct (create_Price req <? 0); [split; [discriminate | reflexivity]|].
  destruct (ToSubscription_one_result req newID) as [[s ->] | [e ->]].
  - destruct (repository_Create_run db s now) as (st & _ & ->).
    cbv zeta.
    destruct (int4 _);
      [destruct (varchar _ _);
         [destruct (checks _) as [r|c]; [case_bool_decide|]|]|];
      simpl; split; try discriminate; try reflexivity.
    + intros _. eexists. split; [reflexivity|]. split; [reflexivity|].
      intros Hn Hw. rewrite kept_same; [reflexivity | exact Hn | exact Hw ..].
    + intros Hne. contradiction Hne. reflexivity.
  - simpl. split; [discriminate | reflexivity].
Qed.

Lemma create_handler_stores_witness :
  let ran := Handlers.CreateSubscription Sample.store
               (mkCreate "Hulu" 8 Sample.alice "03-2024" "") 9 3000 in
  Handlers.code ran.2 = 201
  ∧ ∃ sub, Handlers.payload ran.2 = Handlers.One (Some sub)
           ∧ table ran.1
             = table Sample.store ++ [kept (engine Sample.store) sub]
           ∧ ((charLength (ServiceName sub) ≤ 255)%nat → 3000 mod 1000 = 0 →
              table ran.1 = table Sample.store ++ [sub]).
Proof.
  intros ran.
  assert (Hcode : Handlers.code ran.2 = 201) by (vm_compute; reflexivity).
  split; [exact Hcode|].
  apply (create_handler_stores Sample.store
           (mkCreate "Hulu" 8 Sample.alice "03-2024" "") 9 3000), Hcode.
Defined.


(** * Writes and the total *)

Lemma priceSum_app l1 l2 : priceSum (l1 ++ l2) = priceSum l1 + priceSum l2.
Proof. induction l1 as [|r l1 IH]; simpl; lia. Qed.

Lemma priceSum_split (p q : Subscription → bool) (t : list Subscription) :
  priceSum (List.filter p t)
  = priceSum (List.filter p (List.filter q t))
    + priceSum (List.filter p (List.filter (λ r, negb (q r)) t)).
Proof.
  induction t as [|r t IH]; [reflexivity|]. cbn [List.filter].
  destruct (q r); cbn [negb List.filter]; destruct (p r); simpl; lia.
Qed.

Lemma counted_kept ps pe u s e r :
  (charLength (ServiceName r) ≤ 255)%nat →
  counted ps pe u s (kept e r) = counted ps pe u s r.
Proof.
  intros Hn. unfold counted, overlaps, ownedBy, named, kept. simpl.
  rewrite (cut_short _ Hn). reflexivity.
Qed.

(** X21. Totals follow the writes.  After a create call that succeeds,
    every aggregate query totals what it totalled before plus the price
    of the new subscription when the query counts the row that the
    table keeps of it, which it does exactly when it counts the
    subscription returned if the name of that has at most 255
    characters.  After a delete
    call under a well-formed identifier, every aggregate query totals
    what it totalled before minus the prices of the removed rows that it
    counted. *)
Theorem totals_follow_writes db ps pe u s :
  (∀ req newID now db' sub,
     Service.Create db req newID now = (db', (Some sub, None)) →
     (Repository.Aggregate db' ps pe u s).2.1
     = (Repository.Aggregate db ps pe u s).2.1
       + (if counted ps pe u s (kept (engine db) sub) then Price sub else 0)
     ∧ ((charLength (ServiceName sub) ≤ 255)%nat →
        counted ps pe u s (kept (engine db) sub) = counted ps pe u s sub))
  ∧ (∀ id v,
       GoUUID.Parse id = Some v →
       (Repository.Aggregate (Service.Delete db id).1 ps pe u s).2.1
       = (Repository.Aggregate db ps pe u s).2.1
         - priceSum (List.filter (counted ps pe u s)
                       (List.filter (hasID (Some v)) (table db)))).
Proof.
  split.
  - intros req newID now db' sub. unfold Service.Create.
    destruct (create_Price req <? 0); [discriminate|].
    destruct (ToSubscription req newID) as [[x|] [e|]]; try discriminate.
    destruct (repository_Create_run db x now) as (st & _ & ->).
    cbv zeta. destruct (int4 _); [|discriminate].
    destruct (varchar _ _); [|discriminate].
    destruct (checks _) as [r|c]; [|discriminate].
    case_bool_decide; [discriminate|].
    intros Heq. injection Heq as <- <-. split; [|apply counted_kept].
    rewrite !repository_Aggregate_total. cbn [fst snd table].
    rewrite List.filter_app, priceSum_app. cbn [List.filter].
    destruct (counted ps pe u s (kept (engine db) (withTimes x now now)));
      simpl; lia.
  - intros id v Hid. rewrite (service_Delete_run db id v Hid).
    rewrite !repository_Aggregate_total. cbn [fst snd table].
    rewrite (priceSum_split (counted ps pe u s) (hasID (Some v)) (table db)). lia.
Qed.

Lemma totals_follow_writes_witness :
  GoUUID.Parse Sample.firstID = Some 1
  ∧ (Repository.Aggregate (Service.Delete Sample.store Sample.firstID).1
       (mkDate 2024 2 1) (mkDate 2024 2 1) None None).2.1 = 17 - 10.
Proof.
  split; [reflexivity|].
  destruct (totals_follow_writes Sample.store (mkDate 2024 2 1) (mkDate 2024 2 1)
              None None) as [_ Hd].
  rewrite (Hd Sample.firstID 1 eq_refl). vm_compute. reflexivity.
Defined.


(** * The variant with plain errors: fetching and deleting *)

(** X22. In the variant with plain errors, a fetch under a well-formed
    identifier returns what is stored under it, the absent result when
    nothing is; and a delete removes the rows of the identifier when
    there are some, and otherwise fails with the error "subscription not
    found" and leaves the table as it was. *)
Theorem plain_get_and_delete db id u :
  GoUUID.Parse id = Some u →
  (PlainService.GetByID db id).2 = (stored db u, None)
  ∧ table (PlainService.Delete db id).1
    = List.filter (λ r, negb (hasID (Some u) r)) (table db)
  ∧ (PlainService.Delete db id).2
    = match stored db u with
      | Some _ => None
      | None => Some (ErrNew "subscription not found")
      end
  ∧ (stored db u = None → table (PlainService.Delete db id).1 = table db).
Proof.
  intros Hid. split; [|split; [|split]].
  - unfold PlainService.GetByID. rewrite Hid.
    destruct (repository_GetByID_cases db u) as [[sub Hrun] Hst].
    rewrite Hrun in *. simpl in *. rewrite Hst. reflexivity.
  - unfold PlainService.Delete, Repository.Delete, Exec, send, run.
    rewrite Hid. simpl. destruct (_ =? 0); reflexivity.
  - unfold PlainService.Delete, Repository.Delete, Exec, send, run, stored.
    rewrite Hid. simpl.
    destruct (List.filter (hasID (Some u)) (table db)); reflexivity.
  - intros Hnone. unfold PlainService.Delete, Repository.Delete, Exec, send, run.
    rewrite Hid. simpl. unfold stored in Hnone.
    assert (Hf : List.filter (hasID (Some u)) (table db) = []).
    { destruct (List.filter (hasID (Some u)) (table db)); [reflexivity | discriminate]. }
    rewrite Hf. simpl. apply filter_out_none, Hf.
Qed.

Lemma plain_get_and_delete_witness :
  GoUUID.Parse Sample.missingID = Some 9
  ∧ (PlainService.GetByID Sample.store Sample.missingID).2 = (None, None)
  ∧ (PlainService.Delete Sample.store Sample.missingID).2
    = Some (ErrNew "subscription not found").
Proof.
  destruct (plain_get_and_delete Sample.store Sample.missingID 9 eq_refl)
    as (Hg & _ & Hd & _).
  split; [reflexivity|]. split; [exact Hg | exact Hd].
Defined.
